(** * Indexable: a shallow embedding of [adam_core/utils/indexable.py]

    The Python class [Indexable] keeps its fields in the instance dictionary
    [self.__dict__] and derives an index (class index, class-index-to-members
    mapping, member index, member length) from them.  The embedding keeps the
    instance dictionary as an ordered association list, Python exceptions as an
    error type, and methods that assign attributes of [self] as functions that
    return the dictionary reached together with the outcome, so that the state
    left behind by a raised exception stays observable. *)

From Stdlib Require Import ZArith List String Ascii Bool Lia Permutation Sorted.
Import ListNotations.
Open Scope string_scope.
Open Scope list_scope.
Open Scope Z_scope.
Set Warnings "-register-all".

(** ** Exceptions and the error monad *)

Inductive exn :=
| ValueError (msg : string)
| IndexError
| TypeError
| AttributeError
| AssertionError
| NotImplementedError
| KeyError
| Unmodelled.   (* a state the methods of the class never produce and the model does not follow *)

Inductive result (A : Type) :=
| Ok (a : A)
| Err (e : exn).
Arguments Ok {A} a.
Arguments Err {A} e.

Definition bind {A B} (m : result A) (k : A -> result B) : result B :=
  match m with
  | Ok a => k a
  | Err e => Err e
  end.

Declare Scope result_scope.
Delimit Scope result_scope with result.
Notation "x <- m ;; k" := (bind m (fun x => k))
  (at level 100, m at next level, right associativity) : result_scope.
Notation "' p <- m ;; k" := (bind m (fun x => let 'p := x in k))
  (at level 100, p pattern, m at next level, right associativity) : result_scope.
Open Scope result_scope.

Fixpoint mapM {A B} (f : A -> result B) (l : list A) : result (list B) :=
  match l with
  | [] => Ok []
  | x :: r => y <- f x ;; ys <- mapM f r ;; Ok (y :: ys)
  end.

(** ** Python and numpy primitives used by the class *)

Module Py.

(** [slice(start, stop, step)]; [None] is [None]. *)
Record pyslice := Slice { start : option Z; stop : option Z; step : option Z }.

Definition optZ_eqb (a b : option Z) : bool :=
  match a, b with
  | Some x, Some y => x =? y
  | None, None => true
  | _, _ => false
  end.

(** [slice.indices(n)]: the start, stop and step the slice denotes on a
    sequence of length [n]. *)
Definition slice_indices (s : pyslice) (n : Z) : result (Z * Z * Z) :=
  let st := match step s with None => 1 | Some k => k end in
  if st =? 0 then Err (ValueError "slice step cannot be zero") else
  let lower := if st <? 0 then -1 else 0 in
  let upper := if st <? 0 then n - 1 else n in
  let clip v := if v <? 0 then Z.max (v + n) lower else Z.min v upper in
  let a := match start s with
           | None => if st <? 0 then upper else lower
           | Some v => clip v
           end in
  let b := match stop s with
           | None => if st <? 0 then lower else upper
           | Some v => clip v
           end in
  Ok (a, b, st).

Definition range_len (a b st : Z) : nat :=
  if 0 <? st then (if a <? b then Z.to_nat ((b - a - 1) / st + 1) else 0%nat)
  else if st <? 0 then (if b <? a then Z.to_nat ((a - b - 1) / (- st) + 1) else 0%nat)
  else 0%nat.

Fixpoint iota (a st : Z) (k : nat) : list Z :=
  match k with
  | O => []
  | S k' => a :: iota (a + st) st k'
  end.

(** [range(a, b, st)] *)
Definition py_range (a b st : Z) : list Z := iota a st (range_len a b st).

(** [np.arange(0, n)] *)
Definition arange (n : Z) : list Z := py_range 0 n 1.

Definition slice_positions (s : pyslice) (n : Z) : result (list Z) :=
  '(a, b, st) <- slice_indices s n ;; Ok (py_range a b st).

(** An integer used as an index into a sequence of length [n]: negative
    values count from the end, anything outside [-n, n) raises. *)
Definition norm_index (n i : Z) : result Z :=
  if (i <? - n) || (n <=? i) then Err IndexError
  else Ok (if i <? 0 then i + n else i).

Definition zlen {A} (l : list A) : Z := Z.of_nat (List.length l).

(** Rows of [l] at positions that are already known to be in range. *)
Definition pick {A} (l : list A) (pos : list Z) : list A :=
  flat_map (fun i => match nth_error l (Z.to_nat i) with
                     | Some x => [x]
                     | None => []
                     end) pos.

(** [l[s]] for a slice [s] *)
Definition slice_rows {A} (l : list A) (s : pyslice) : result (list A) :=
  pos <- slice_positions s (zlen l) ;; Ok (pick l pos).

(** [l[idx]] for an integer array or list [idx] *)
Definition fancy_rows {A} (l : list A) (idx : list Z) : result (list A) :=
  pos <- mapM (norm_index (zlen l)) idx ;; Ok (pick l pos).

(** [l[mask]] for a boolean array [mask] *)
Fixpoint mask_select {A} (l : list A) (mask : list bool) : list A :=
  match l, mask with
  | x :: r, b :: m => if b then x :: mask_select r m else mask_select r m
  | _, _ => []
  end.

Definition mask_rows {A} (l : list A) (mask : list bool) : result (list A) :=
  if (List.length l =? List.length mask)%nat then Ok (mask_select l mask) else Err IndexError.

(** The rows of [l] whose position, counted from [i], is not in [del]. *)
Fixpoint remove_at {A} (del : list Z) (i : Z) (l : list A) : list A :=
  match l with
  | [] => []
  | x :: r => if existsb (Z.eqb i) del then remove_at del (i + 1) r
              else x :: remove_at del (i + 1) r
  end.

(** The things a class index or a member index can be subscripted with. *)
Inductive selection :=
| SInt (i : Z)             (* a Python int *)
| SSlice (s : pyslice)
| SArray (idx : list Z)    (* an integer ndarray *)
| SList (idx : list Z)     (* a Python list of ints *)
| SOther.                  (* anything else: tuple, str, numpy scalar, ... *)

(** [l[sel]] along the first axis, for the selections that keep an array
    (an integer gives a scalar, see [arr_getitem]). *)
Definition rows {A} (l : list A) (sel : selection) : result (list A) :=
  match sel with
  | SSlice s => slice_rows l s
  | SArray idx | SList idx => fancy_rows l idx
  | SInt _ => Err Unmodelled
  | SOther => Err IndexError
  end.

(** [np.delete(l, sel, axis=0)] *)
Definition np_delete {A} (l : list A) (sel : selection) : result (list A) :=
  match sel with
  | SSlice s => pos <- slice_positions s (zlen l) ;; Ok (remove_at pos 0 l)
  | SArray idx | SList idx =>
      pos <- mapM (norm_index (zlen l)) idx ;; Ok (remove_at pos 0 l)
  | SInt i => p <- norm_index (zlen l) i ;; Ok (remove_at [p] 0 l)
  | SOther => Err IndexError
  end.

(** [pd.unique]: the distinct values in order of first occurrence. *)
Fixpoint pd_unique_from {A} (eqb : A -> A -> bool) (seen : list A) (l : list A) : list A :=
  match l with
  | [] => []
  | x :: r => if existsb (eqb x) seen then pd_unique_from eqb seen r
              else x :: pd_unique_from eqb (seen ++ [x]) r
  end.

Definition pd_unique {A} (eqb : A -> A -> bool) (l : list A) : list A :=
  pd_unique_from eqb [] l.

(** Position of the first element of [l] equal to [x], counted from [i]. *)
Fixpoint index_of {A} (eqb : A -> A -> bool) (x : A) (i : Z) (l : list A) : Z :=
  match l with
  | [] => i
  | y :: r => if eqb x y then i else index_of eqb x (i + 1) r
  end.

(** [np.where(values == v)[0]]: the positions holding [v], counted from [i]. *)
Fixpoint np_where {A} (eqb : A -> A -> bool) (v : A) (i : Z) (l : list A) : list Z :=
  match l with
  | [] => []
  | y :: r => if eqb y v then i :: np_where eqb v (i + 1) r
              else np_where eqb v (i + 1) r
  end.

(** [np.diff] *)
Fixpoint np_diff (l : list Z) : list Z :=
  match l with
  | x :: ((y :: _) as r) => (y - x) :: np_diff r
  | _ => []
  end.

(** [np.isin(l, vs)] *)
Definition np_isin {A} (eqb : A -> A -> bool) (l vs : list A) : list bool :=
  map (fun x => existsb (eqb x) vs) l.

Definition list_eqb {A} (eqb : A -> A -> bool) : list A -> list A -> bool :=
  fix go l1 l2 :=
    match l1, l2 with
    | [], [] => true
    | x :: r1, y :: r2 => eqb x y && go r1 r2
    | _, _ => false
    end.

(** A one-dimensional [np.ndarray].  Floating-point columns are moved row by
    row by every operation of the class and never computed with, so a row of
    such a column is stood for by an integer. *)
Inductive ndarray :=
| AInt (xs : list Z)
| AStr (xs : list string)
| ASlice (xs : list pyslice).   (* the object array built from a list of slices *)

Definition arr_len (a : ndarray) : Z :=
  match a with
  | AInt xs => zlen xs
  | AStr xs => zlen xs
  | ASlice xs => zlen xs
  end.

(** An operation on the first axis acts on an array whatever its dtype. *)
Definition arr_lift (f : forall A, list A -> result (list A)) (a : ndarray) : result ndarray :=
  match a with
  | AInt xs => ys <- f _ xs ;; Ok (AInt ys)
  | AStr xs => ys <- f _ xs ;; Ok (AStr ys)
  | ASlice xs => ys <- f _ xs ;; Ok (ASlice ys)
  end.

Definition arr_rows (a : ndarray) (sel : selection) : result ndarray :=
  arr_lift (fun A l => rows l sel) a.

Definition arr_delete (a : ndarray) (sel : selection) : result ndarray :=
  arr_lift (fun A l => np_delete l sel) a.

(** [np.array_equal] *)
Definition array_equal (a b : ndarray) : bool :=
  match a, b with
  | AInt xs, AInt ys => list_eqb Z.eqb xs ys
  | AStr xs, AStr ys => list_eqb String.eqb xs ys
  | _, _ => (arr_len a =? 0) && (arr_len b =? 0)
  end.

End Py.
Import Py.

(** ** Field values and the instance dictionary *)

(** Values of [UNSLICEABLE_DATA_STRUCTURES].  [float], [dict], [set] and
    [OrderedDict] fields are carried along exactly like these three and are
    left out. *)
Inductive opaque :=
| OStr (s : string)
| OInt (z : Z)
| OBool (b : bool).

(** Python's [==] on these values ([True == 1]). *)
Definition opaque_eqb (x y : opaque) : bool :=
  match x, y with
  | OStr s, OStr t => String.eqb s t
  | OInt a, OInt b => a =? b
  | OBool a, OBool b => Bool.eqb a b
  | OInt a, OBool b | OBool b, OInt a => a =? (if b then 1 else 0)
  | _, _ => false
  end.

(** What an attribute of an instance can hold.  A [Time] is stood for by its
    [mjd] values, its scale and its format; the conversion between a [Time] and
    its [mjd] array is taken to be exact. *)
Inductive pyval :=
| VArray (a : ndarray)                             (* np.ndarray *)
| VMasked (a : ndarray) (mask : list bool)         (* np.ma.masked_array *)
| VTime (mjd : list Z) (scale format : string)     (* astropy Time *)
| VIndexable (d : list (string * pyval))           (* a nested Indexable *)
| VOpaque (o : opaque)
| VNone
| VNpInt (z : Z)                                   (* a numpy integer scalar *)
| VSliceObj (s : pyslice)                          (* a bare slice object *)
| VUnsupported.                                    (* list, tuple, ... *)

(** [self.__dict__], in insertion order. *)
Definition entity := list (string * pyval).

(** [d[k]] on a dictionary kept in insertion order. *)
Fixpoint lookup {V} (k : string) (d : list (string * V)) : option V :=
  match d with
  | [] => None
  | (k', v) :: r => if String.eqb k k' then Some v else lookup k r
  end.

(** [d[k] = v]: an existing key keeps its place, a new one goes last. *)
Fixpoint setattr {V} (k : string) (v : V) (d : list (string * V)) : list (string * V) :=
  match d with
  | [] => [(k, v)]
  | (k', v') :: r => if String.eqb k k' then (k', v) :: r else (k', v') :: setattr k v r
  end.

Definition getattr (k : string) (d : entity) : result pyval :=
  match lookup k d with
  | Some v => Ok v
  | None => Err AttributeError
  end.

(** [v[sel]] on an array: an integer gives a scalar, the rest an array. *)
Definition arr_getitem (a : ndarray) (sel : selection) : result pyval :=
  match sel with
  | SInt i =>
      p <- norm_index (arr_len a) i ;;
      match a with
      | AInt xs => match nth_error xs (Z.to_nat p) with
                   | Some z => Ok (VNpInt z) | None => Err IndexError end
      | AStr xs => match nth_error xs (Z.to_nat p) with
                   | Some s => Ok (VOpaque (OStr s)) | None => Err IndexError end
      | ASlice xs => match nth_error xs (Z.to_nat p) with
                     | Some s => Ok (VSliceObj s) | None => Err IndexError end
      end
  | _ => a' <- arr_rows a sel ;; Ok (VArray a')
  end.

(** ** The class *)

Module Indexable.

(** [len(v)] for the values of [SLICEABLE_DATA_STRUCTURES]. *)
Definition sliceable_len (v : pyval) : option Z :=
  match v with
  | VArray a => Some (arr_len a)
  | VMasked a _ => Some (arr_len a)
  | VTime mjd _ _ => Some (zlen mjd)
  | _ => None
  end.

(** The set comprehension of [_check_member_validity], as the list of its
    distinct elements. *)
Definition member_lengths (self : entity) : list Z :=
  pd_unique Z.eqb
    (flat_map (fun kv => match sliceable_len (snd kv) with
                         | Some n => [n]
                         | None => []
                         end) self).

Definition cardinality_error : exn :=
  ValueError "All sliceable members must have the same length.".

Definition _check_member_validity (self : entity) : result (Z * ndarray) :=
  match member_lengths self with
  | [member_length] => Ok (member_length, AInt (arange member_length))
  | _ => Err cardinality_error
  end.

(** The loop of [_convert_grouped_array_to_slices]. *)
Fixpoint grouped_slices (values unique_values : list Z) (slice_start : Z)
  : result (list pyslice) :=
  match unique_values with
  | [] => Ok []
  | i :: r =>
      let mask := np_where Z.eqb i 0 values in
      if (1 <? zlen mask) && forallb (fun d => negb (d =? 1)) (np_diff mask)
      then Err (ValueError "The values must be grouped.")
      else
        rest <- grouped_slices values r (slice_start + zlen mask) ;;
        Ok (Slice (Some slice_start) (Some (slice_start + zlen mask)) (Some 1) :: rest)
  end.

Definition _convert_grouped_array_to_slices (values : list Z) : result (list pyslice) :=
  grouped_slices values (pd_unique Z.eqb values) 0.

(** The argument of [set_index]. *)
Inductive index_spec :=
| SpecNone
| SpecName (name : string)
| SpecArray (values : ndarray)
| SpecOther.

(** The integer each value is mapped to: [drop_duplicates(keep="first")]
    numbers the distinct values in order of first occurrence and the left
    merge gives every row the number of its value.  The test
    [class_index_values.dtype.type != int] compares a numpy scalar class with
    the builtin [int], so every array takes this branch. *)
Definition remap {A} (eqb : A -> A -> bool) (values : list A) : list Z :=
  let df_unique := pd_unique eqb values in
  map (fun x => index_of eqb x 0 df_unique) values.

(** Part 3 of [set_index]. *)
Definition build_index (class_index_values : list Z) (self : entity) : entity * result unit :=
  let self := setattr "_class_index" (VArray (AInt (pd_unique Z.eqb class_index_values))) self in
  match _convert_grouped_array_to_slices class_index_values with
  | Ok slices =>
      let self := setattr "_class_index_to_members" (VArray (ASlice slices)) self in
      let self := setattr "_class_index_to_members_is_slice" (VOpaque (OBool true)) self in
      (self, Ok tt)
  | Err (ValueError _) =>
      let self := setattr "_class_index_to_members" (VArray (AInt class_index_values)) self in
      let self := setattr "_class_index_to_members_is_slice" (VOpaque (OBool false)) self in
      (self, Ok tt)
  | Err e => (self, Err e)
  end.

Definition set_index (index_values : index_spec) (self : entity) : entity * result unit :=
  match _check_member_validity self with
  | Err e => (self, Err e)
  | Ok (member_length, member_index) =>
      let self := setattr "_member_length" (VOpaque (OInt member_length)) self in
      let self := setattr "_member_index" (VArray member_index) self in
      let resolved :=
        match index_values with
        | SpecNone => Ok (VArray (AInt (arange member_length)), VNone)
        | SpecName name => v <- getattr name self ;; Ok (v, VOpaque (OStr name))
        | SpecArray values => Ok (VArray values, VNone)
        | SpecOther => Err (ValueError "values must be None, str, or numpy.ndarray")
        end in
      match resolved with
      | Err e => (self, Err e)
      | Ok (class_index_values, attribute) =>
          let self := setattr "_class_index_attribute" attribute self in
          match class_index_values with
          | VArray (AInt xs) => build_index (remap Z.eqb xs) self
          | VArray (AStr xs) => build_index (remap String.eqb xs) self
          | _ => (self, Err Unmodelled)   (* keys that are not a plain array of ints or strings *)
          end
      end
  end.

(** [Indexable.__init__] *)
Definition __init__ (index_values : index_spec) (fields : entity) : entity * result unit :=
  set_index index_values fields.

Definition __len__ (self : entity) : result Z :=
  v <- getattr "_class_index" self ;;
  match v with
  | VArray a => Ok (arr_len a)
  | _ => Err TypeError
  end.

(** The loop of [_query_index] over [slices[:-1]]. *)
Fixpoint is_consecutive (slices : list pyslice) : bool :=
  match slices with
  | s_i :: ((s_next :: _) as r) =>
      if negb (optZ_eqb (stop s_i) (start s_next)) then false
      else if (match step s_i with Some _ => true | None => false end)
              && negb (optZ_eqb (step s_i) (step s_next)) then false
      else is_consecutive r
  | _ => true
  end.

Definition int_array (v : pyval) : result (list Z) :=
  match v with
  | VArray (AInt xs) => Ok xs
  | VArray _ => Err Unmodelled
  | _ => Err IndexError     (* subscripting a scalar *)
  end.

(** [self._class_index[ind]] as an integer array *)
Definition class_index_rows (self : entity) (ind : selection) : result (list Z) :=
  v <- getattr "_class_index" self ;;
  xs <- int_array v ;;
  rows xs ind.

Definition _query_index (self : entity) (class_ind : selection) : result selection :=
  (* an integer becomes the slice [i : i + 1] *)
  ind <- match class_ind with
         | SInt i => Ok (SSlice (Slice (Some i) (Some (i + 1)) None))
         | SSlice _ | SArray _ | SList _ => Ok class_ind
         | SOther => Err TypeError
         end ;;
  (* check boundaries on the slice *)
  out_of_bounds <- match ind with
                   | SSlice (Slice (Some st) _ _) => n <- __len__ self ;; Ok (n <=? st)
                   | _ => Ok false
                   end ;;
  if out_of_bounds : bool then Err IndexError else
  (* [isinstance(ind, slice) and self._class_index_to_members_is_slice] *)
  slice_form <- match ind with
                | SSlice s =>
                    v <- getattr "_class_index_to_members_is_slice" self ;;
                    match v with
                    | VOpaque (OBool b) => Ok (if b then Some s else None)
                    | _ => Err Unmodelled
                    end
                | _ => Ok None
                end ;;
  match slice_form with
  | Some s =>
      v <- getattr "_class_index_to_members" self ;;
      match v with
      | VArray (ASlice xs) =>
          slices <- slice_rows xs s ;;
          if is_consecutive slices then
            (* [slice(slices[0].start, slices[-1].stop, slices[0].step)] *)
            match slices with
            | [] => Err IndexError
            | s0 :: _ => Ok (SSlice (Slice (start s0) (stop (last slices s0)) (step s0)))
            end
          else
            (* [np.concatenate([self._class_index[s] for s in slices])] *)
            parts <- mapM (fun s => class_index_rows self (SSlice s)) slices ;;
            Ok (SArray (List.concat parts))
      | _ => Err Unmodelled
      end
  | None =>
      ci <- getattr "_class_index" self ;;
      mi <- getattr "_member_index" self ;;
      if match ci, mi with
         | VArray a, VArray b => array_equal a b
         | _, _ => false
         end
      then
        (* [self._class_index[ind]] *)
        r <- class_index_rows self ind ;; Ok (SArray r)
      else
        (* [self._member_index[np.isin(self._class_index_to_members,
                                        self._class_index[ind])]] *)
        mi <- int_array mi ;;
        c2m <- getattr "_class_index_to_members" self ;;
        wanted <- class_index_rows self ind ;;
        mask <- match c2m with
                | VArray (AInt xs) => Ok (np_isin Z.eqb xs wanted)
                | VArray (AStr xs) => Ok (map (fun _ => false) xs)
                | VArray (ASlice xs) => Ok (map (fun _ => false) xs)
                | _ => Err Unmodelled
                end ;;
        r <- mask_rows mi mask ;;
        Ok (SArray r)
  end.

(** [v[np.s_[class_ind]]] for the [_class_index] entry. *)
Definition class_index_getitem (v : pyval) (class_ind : selection) : result pyval :=
  match v with
  | VArray a => arr_getitem a class_ind
  | _ => Err IndexError
  end.

(** [v[member_ind]] for a field that is not a nested instance, with the
    [isinstance] chain of [__getitem__]. *)
Definition getitem_leaf (v : pyval) (member_ind : selection) : result pyval :=
  match v with
  | VArray a => arr_getitem a member_ind
  | VMasked a m =>
      a' <- arr_rows a member_ind ;; m' <- rows m member_ind ;; Ok (VMasked a' m')
  | VTime mjd sc fm => mjd' <- rows mjd member_ind ;; Ok (VTime mjd' sc fm)
  | VOpaque _ | VNone => Ok v
  | _ => Err NotImplementedError
  end.

(** One turn of the loop of [__getitem__] over [copy_self.__dict__.items()];
    [item v member_ind] is [v[member_ind]] on a nested instance. *)
Definition getitem_field (item : pyval -> selection -> result pyval)
  (class_ind member_ind : selection) (kv : string * pyval) : result (string * pyval) :=
  let '(k, v) := kv in
  if String.eqb k "_class_index"
  then v' <- class_index_getitem v class_ind ;; Ok (k, v')
  else v' <- match v with
             | VIndexable _ => item v member_ind
             | _ => getitem_leaf v member_ind
             end ;;
       Ok (k, v').

(** [v[sel]] for any field; on a nested instance this is its own
    [__getitem__]. *)
Fixpoint getitem_val (v : pyval) (sel : selection) {struct v} : result pyval :=
  match v with
  | VIndexable d =>
      member_ind <- _query_index d sel ;;
      d' <- mapM (getitem_field getitem_val sel member_ind) d ;;
      Ok (VIndexable d')
  | _ => getitem_leaf v sel
  end.

(** [self[class_ind]].  Nothing is assigned on [self]: the method works on
    the shallow copy, so it is a function of [self] that returns the copy. *)
Definition __getitem__ (self : entity) (class_ind : selection) : result entity :=
  member_ind <- _query_index self class_ind ;;
  mapM (getitem_field getitem_val class_ind member_ind) self.

(** [np.delete(v, np.s_[class_ind], axis=0)] for the [_class_index] entry. *)
Definition class_index_delete (v : pyval) (class_ind : selection) : result pyval :=
  match v with
  | VArray a => a' <- arr_delete a class_ind ;; Ok (VArray a')
  | _ => Err IndexError
  end.

(** The [isinstance] chain of [__delitem__] for a field that is not a nested
    instance. *)
Definition delitem_leaf (v : pyval) (member_ind : selection) : result pyval :=
  match v with
  | VMasked a m =>
      a' <- arr_delete a member_ind ;; m' <- np_delete m member_ind ;; Ok (VMasked a' m')
  | VArray a => a' <- arr_delete a member_ind ;; Ok (VArray a')
  | VTime mjd sc _ => mjd' <- np_delete mjd member_ind ;; Ok (VTime mjd' sc "mjd")
  | VOpaque _ | VNone => Ok v
  | _ => Err NotImplementedError
  end.

(** The argument [__delitem__] and [concatenate] hand back to [set_index]. *)
Definition spec_of_attribute (v : pyval) : index_spec :=
  match v with
  | VNone => SpecNone
  | VOpaque (OStr name) => SpecName name
  | VArray a => SpecArray a
  | _ => SpecOther
  end.

Definition reindex (self : entity) : entity * result unit :=
  match getattr "_class_index_attribute" self with
  | Ok attribute => set_index (spec_of_attribute attribute) self
  | Err e => (self, Err e)
  end.

Definition keep_on_error (v : pyval) (r : result pyval) : pyval * result unit :=
  match r with
  | Ok v' => (v', Ok tt)
  | Err e => (v, Err e)
  end.

(** One turn of the loop of [__delitem__]: the new value of the entry and
    whether the turn raised; [del v member_ind] is [del v[member_ind]] on a
    nested instance, which changes the nested object in place. *)
Definition delitem_field (del : pyval -> selection -> pyval * result unit)
  (class_ind member_ind : selection) (k : string) (v : pyval) : pyval * result unit :=
  if String.eqb k "_class_index"
  then keep_on_error v (class_index_delete v class_ind)
  else match v with
       | VIndexable _ => del v member_ind
       | _ => keep_on_error v (delitem_leaf v member_ind)
       end.

(** The loop of [__delitem__] over [self.__dict__.items()]: entries are
    replaced one after the other and an exception leaves the later ones as
    they were. *)
Fixpoint delitem_loop (del : pyval -> selection -> pyval * result unit)
  (class_ind member_ind : selection) (items : entity) : entity * result unit :=
  match items with
  | [] => ([], Ok tt)
  | (k, v) :: rest =>
      let '(v1, r) := delitem_field del class_ind member_ind k v in
      match r with
      | Err e => ((k, v1) :: rest, Err e)
      | Ok _ =>
          let '(rest', r') := delitem_loop del class_ind member_ind rest in
          ((k, v1) :: rest', r')
      end
  end.

(** [del v[sel]] on a nested instance: its own [__delitem__]. *)
Fixpoint delitem_val (v : pyval) (sel : selection) {struct v} : pyval * result unit :=
  match v with
  | VIndexable d =>
      match _query_index d sel with
      | Err e => (v, Err e)
      | Ok member_ind =>
          let '(d1, r) := delitem_loop delitem_val sel member_ind d in
          match r with
          | Err e => (VIndexable d1, Err e)
          | Ok _ => let '(d2, r2) := reindex d1 in (VIndexable d2, r2)
          end
      end
  | _ => (v, Err Unmodelled)
  end.

(** [del self[class_ind]]: the instance dictionary afterwards and the outcome. *)
Definition __delitem__ (class_ind : selection) (self : entity) : entity * result unit :=
  match _query_index self class_ind with
  | Err e => (self, Err e)
  | Ok member_ind =>
      let '(self1, r) := delitem_loop delitem_val class_ind member_ind self in
      match r with
      | Err e => (self1, Err e)
      | Ok _ => reindex self1
      end
  end.

(** *** [concatenate] *)

(** What [data[k]] holds while [concatenate] runs. *)
Inductive data_entry :=
| DList (vs : list pyval)   (* a list: [deepcopy(v)] or [v.mjd], then what the others append *)
| DValue (o : opaque)
| DNone.

(** The first loop: [data], and [time_scales] (whose keys are
    [time_attributes]). *)
Definition data_of_first (first : entity) : list (string * data_entry) :=
  map (fun kv => (fst kv,
                  match snd kv with
                  | VArray _ | VMasked _ _ | VIndexable _ => DList [snd kv]
                  | VTime mjd _ _ => DList [VArray (AInt mjd)]
                  | VOpaque o => DValue o
                  | _ => DNone
                  end)) first.

Definition time_scales_of (first : entity) : list (string * string) :=
  flat_map (fun kv => match snd kv with
                      | VTime _ sc _ => [(fst kv, sc)]
                      | _ => []
                      end) first.

Definition data_append (k : string) (v : pyval) (data : list (string * data_entry))
  : result (list (string * data_entry)) :=
  match lookup k data with
  | None => Err KeyError
  | Some (DList vs) => Ok (setattr k (DList (vs ++ [v])) data)
  | Some _ => Err AttributeError
  end.

(** One turn of the inner loop over [indexable_i.__dict__.items()]. *)
Definition collect_field (time_scales : list (string * string))
  (data : list (string * data_entry)) (kv : string * pyval)
  : result (list (string * data_entry)) :=
  let '(k, v) := kv in
  match lookup k time_scales with
  | None =>
      match v with
      | VArray _ | VMasked _ _ | VIndexable _ => data_append k v data
      | VOpaque o =>
          match lookup k data with
          | None => Err KeyError
          | Some (DValue o') => if opaque_eqb o' o then Ok data else Err AssertionError
          | Some _ => Err AssertionError
          end
      | _ => Ok data
      end
  | Some scale =>
      match v with
      | VTime mjd sc _ =>
          if String.eqb scale sc then data_append k (VArray (AInt mjd)) data
          else Err AssertionError
      | _ => Err AttributeError
      end
  end.

Fixpoint foldM {A B} (f : A -> B -> result A) (a : A) (l : list B) : result A :=
  match l with
  | [] => Ok a
  | x :: r => a' <- f a x ;; foldM f a' r
  end.

(** [np.concatenate] of arrays of one dtype; a list that mixes dtypes or
    holds something else than arrays is outside the model. *)
Fixpoint np_concatenate (vs : list pyval) : result ndarray :=
  match vs with
  | [] => Err (ValueError "need at least one array to concatenate")
  | [VArray a] => Ok a
  | VArray a :: r =>
      b <- np_concatenate r ;;
      match a, b with
      | AInt xs, AInt ys => Ok (AInt (xs ++ ys))
      | AStr xs, AStr ys => Ok (AStr (xs ++ ys))
      | ASlice xs, ASlice ys => Ok (ASlice (xs ++ ys))
      | _, _ => Err Unmodelled
      end
  | _ => Err Unmodelled
  end.

(** [np.ma.concatenate]: data and masks are joined side by side. *)
Definition ma_concatenate (vs : list pyval) : result pyval :=
  a <- np_concatenate (map (fun v => match v with VMasked a _ => VArray a | _ => v end) vs) ;;
  ms <- mapM (fun v => match v with
                       | VMasked _ m => Ok m
                       | _ => Err Unmodelled
                       end) vs ;;
  Ok (VMasked a (List.concat ms)).

Definition of_unit_outcome (r : entity * result unit) : result entity :=
  match snd r with
  | Ok _ => Ok (fst r)
  | Err e => Err e
  end.

(** [concatenate] on the list [first :: others]; the nested call
    [concatenate(v)] of the last loop is the recursive one.  The last loop runs
    over [data.items()], whose keys are those of the first instance in their
    order, and tests [v[0]], which is the first instance's value (its [mjd] for
    a [Time]). *)
Fixpoint concatenate_val (first : pyval) (others : list pyval) {struct first}
  : result pyval :=
  match first with
  | VIndexable d0 =>
      ds <- mapM (fun v => match v with
                           | VIndexable d => Ok d
                           | _ => Err AttributeError
                           end) others ;;
      data <- foldM (foldM (collect_field (time_scales_of d0))) (data_of_first d0) ds ;;
      copy <- (fix loop (items : entity) : result entity :=
                 match items with
                 | [] => Ok []
                 | (k, v0) :: rest =>
                     v' <- match lookup k data with
                           | Some (DList vs) =>
                               match v0 with
                               | VMasked _ _ => ma_concatenate vs
                               | VArray _ => a <- np_concatenate vs ;; Ok (VArray a)
                               | VIndexable _ => concatenate_val v0 (tl vs)
                               | VTime _ sc _ =>
                                   a <- np_concatenate vs ;;
                                   match a with
                                   | AInt mjd => Ok (VTime mjd sc "mjd")
                                   | _ => Err Unmodelled
                                   end
                               | _ => Ok v0
                               end
                           | _ => Ok v0
                           end ;;
                     rest' <- loop rest ;;
                     Ok ((k, v') :: rest')
                 end) d0 ;;
      match lookup "_class_index" copy with
      | Some _ => copy' <- of_unit_outcome (reindex copy) ;; Ok (VIndexable copy')
      | None => Ok (VIndexable copy)
      end
  | _ => Err AttributeError
  end.

Definition concatenate (indexables : list entity) : result entity :=
  match indexables with
  | [] => Err IndexError
  | first :: others =>
      v <- concatenate_val (VIndexable first) (map VIndexable others) ;;
      match v with
      | VIndexable copy => Ok copy
      | _ => Err Unmodelled
      end
  end.

(** *** [sort_values] *)

(** The arguments [by] and [ascending]. *)
Inductive by_arg := ByName (name : string) | ByList (names : list string).
Inductive ascending_arg := AscBool (b : bool) | AscList (bs : list bool).

(** The first [if] chain: [by_] and [ascending_]. *)
Definition sort_arguments (by' : by_arg) (ascending : ascending_arg)
  : result (list string * list bool) :=
  match ascending, by' with
  | AscList a, ByList b =>
      if (List.length a =? List.length b)%nat then Ok (b, a) else Err AssertionError
  | AscBool a, ByList b => Ok (b, map (fun _ => a) b)
  | AscBool a, ByName s => Ok ([s], [a])
  | AscList a, ByName s => Ok ([s], a)
  end.

(** The search for one sort key: on the instance itself, else on every
    nested instance that has it (each hit is appended). *)
Definition find_attribute (self : entity) (by_i : string) : result (list pyval) :=
  match lookup by_i self with
  | Some v => Ok [v]
  | None =>
      match flat_map (fun kv => match snd kv with
                                | VIndexable d => match lookup by_i d with
                                                  | Some a => [a]
                                                  | None => []
                                                  end
                                | _ => []
                                end) self with
      | [] => Err AttributeError
      | found => Ok found
      end
  end.

(** [attribute_i.filled()] with numpy's default fill values. *)
Definition filled (a : ndarray) (mask : list bool) : ndarray :=
  match a with
  | AInt xs => AInt (map (fun xm => if snd xm : bool then 999999 else fst xm) (combine xs mask))
  | AStr xs => AStr (map (fun xm => if snd xm : bool then "N/A" else fst xm) (combine xs mask))
  | ASlice xs => ASlice xs
  end.

(** The value stored in [data[by_i]]. *)
Definition sort_column (attribute_i : pyval) : pyval :=
  match attribute_i with
  | VMasked a m => VArray (filled a m)
  | VTime mjd _ _ => VArray (AInt mjd)
  | _ => attribute_i
  end.

(** The columns of [pd.DataFrame(data)]: arrays of ints or of strings, all
    of one length; other values are outside the model. *)
Fixpoint DataFrame (data : entity) : result (list (string * ndarray)) :=
  match data with
  | [] => Ok []
  | (k, VArray (ASlice _)) :: _ => Err Unmodelled
  | (k, VArray a) :: r =>
      df <- DataFrame r ;;
      match df with
      | [] => Ok [(k, a)]
      | (_, b) :: _ =>
          if arr_len a =? arr_len b then Ok ((k, a) :: df)
          else Err (ValueError "All arrays must be of the same length")
      end
  | _ => Err Unmodelled
  end.

Definition frame_length (df : list (string * ndarray)) : nat :=
  match df with
  | [] => 0%nat
  | (_, a) :: _ => Z.to_nat (arr_len a)
  end.

(** Comparison of rows [i] and [j] of one column. *)
Definition cell_compare (col : ndarray) (i j : nat) : comparison :=
  match col with
  | AInt xs => Z.compare (nth i xs 0) (nth j xs 0)
  | AStr xs => String.compare (nth i xs "") (nth j xs "")
  | ASlice _ => Eq
  end.

(** Comparison of rows [i] and [j] on the composite key: the first column
    that tells them apart decides, read backwards when it is descending. *)
Fixpoint row_compare (keys : list (ndarray * bool)) (i j : nat) : comparison :=
  match keys with
  | [] => Eq
  | (col, asc) :: r =>
      match (if asc : bool then cell_compare col i j else cell_compare col j i) with
      | Eq => row_compare r i j
      | c => c
      end
  end.

Fixpoint insert_row (keys : list (ndarray * bool)) (x : nat) (l : list nat) : list nat :=
  match l with
  | [] => [x]
  | y :: r =>
      match row_compare keys y x with
      | Lt => y :: insert_row keys x r
      | _ => x :: l
      end
  end.

(** [df.sort_values(by, ascending, kind="stable").index.values] for a frame
    of [n] rows: the row numbers [0 .. n-1] in sorted order, rows that compare
    equal staying in their original order. *)
Definition stable_argsort (keys : list (ndarray * bool)) (n : nat) : list nat :=
  fold_right (insert_row keys) [] (seq 0 n).

(** The frame built from [by_] and the attributes found, and its sort keys. *)
Definition sort_frame (self : entity) (by_ : list string) (ascending_ : list bool)
  : result (nat * list (ndarray * bool)) :=
  found <- mapM (find_attribute self) by_ ;;
  let attributes := List.concat found in
  let data := fold_left (fun d ba => setattr (fst ba) (sort_column (snd ba)) d)
                        (combine by_ attributes) [] in
  df <- DataFrame data ;;
  if negb (List.length by_ =? List.length ascending_)%nat
  then Err (ValueError "Length of ascending != length of by")
  else
    cols <- mapM (fun b => match lookup b df with
                           | Some a => Ok a
                           | None => Err KeyError
                           end) by_ ;;
    Ok (frame_length df, combine cols ascending_).

(** [self.__dict__.update(copy.__dict__)] *)
Definition dict_update (self copy : entity) : entity :=
  fold_left (fun d kv => setattr (fst kv) (snd kv) d) copy self.

(** [self.sort_values(by, inplace, ascending)]: the instance dictionary
    afterwards and what is returned ([None] when sorting in place). *)
Definition sort_values (by' : by_arg) (inplace : bool) (ascending : ascending_arg)
  (self : entity) : entity * result (option entity) :=
  match (args <- sort_arguments by' ascending ;;
         frame <- sort_frame self (fst args) (snd args) ;;
         index_attribute <- getattr "_class_index_attribute" self ;;
         Ok (frame, index_attribute)) with
  | Err e => (self, Err e)
  | Ok (n, keys, index_attribute) =>
      let sorted_indices := map Z.of_nat (stable_argsort keys n) in
      match set_index SpecNone self with
      | (self, Err e) => (self, Err e)
      | (self, Ok _) =>
          match __getitem__ self (SArray sorted_indices) with
          | Err e => (self, Err e)
          | Ok copy =>
              let restored :=
                match index_attribute with
                | VNone =>
                    match set_index SpecNone copy with
                    | (copy, Ok _) => (self, Ok copy)
                    | (_, Err e) => (self, Err e)
                    end
                | _ =>
                    match set_index (spec_of_attribute index_attribute) copy with
                    | (_, Err e) => (self, Err e)
                    | (copy, Ok _) =>
                        match set_index (spec_of_attribute index_attribute) self with
                        | (self, Ok _) => (self, Ok copy)
                        | (self, Err e) => (self, Err e)
                        end
                    end
                end in
              match restored with
              | (self, Err e) => (self, Err e)
              | (self, Ok copy) =>
                  if inplace then (dict_update self copy, Ok None)
                  else (self, Ok (Some copy))
              end
          end
      end
  end.

(** *** The [index] property *)

Definition index (self : entity) : result pyval := getattr "_class_index" self.

(** [self.index = value] *)
Definition index_setter (value : index_spec) (self : entity) : entity * result unit :=
  set_index value self.

(** [del self.index] *)
Definition index_deleter (self : entity) : entity * result unit :=
  set_index SpecNone self.

(** *** Iteration *)

(** [__iter__]: the cursor is an attribute of the instance, which is its own
    iterator. *)
Definition __iter__ (self : entity) : entity :=
  setattr "idx" (VOpaque (OInt 0)) self.

(** How a call of [__next__] ends. *)
Inductive next_outcome :=
| Return (next : entity)
| StopIteration
| Raise (e : exn).

(** [__next__]: the instance dictionary afterwards and the outcome.  Only an
    IndexError of the probe [self._class_index[self.idx]] is caught; a class
    index that is a numpy scalar raises it for every cursor. *)
Definition __next__ (self : entity) : entity * next_outcome :=
  match (ci <- getattr "_class_index" self ;;
         idx <- getattr "idx" self ;;
         Ok (ci, idx)) with
  | Err e => (self, Raise e)
  | Ok (VArray a, VOpaque (OInt idx)) =>
      match arr_getitem a (SInt idx) with
      | Err IndexError => (setattr "idx" (VOpaque (OInt 0)) self, StopIteration)
      | Err e => (self, Raise e)
      | Ok _ =>
          match __getitem__ self (SInt idx) with
          | Err e => (self, Raise e)
          | Ok next => (setattr "idx" (VOpaque (OInt (idx + 1))) self, Return next)
          end
      end
  | Ok (VNpInt _, VOpaque (OInt _)) =>
      (setattr "idx" (VOpaque (OInt 0)) self, StopIteration)
  | Ok _ => (self, Raise Unmodelled)   (* another class index, or a cursor that is not an int *)
  end.

(** *** [yield_chunks] *)

(** The turns of the loop of [yield_chunks] over the starts [c]: the chunks
    yielded, and the exception that ended the generator, if one did. *)
Fixpoint chunks_from (self : entity) (chunk_size : Z) (starts : list Z)
  : list entity * option exn :=
  match starts with
  | [] => ([], None)
  | c :: rest =>
      match __getitem__ self (SSlice (Slice (Some c) (Some (c + chunk_size)) None)) with
      | Err e => ([], Some e)
      | Ok chunk =>
          let '(chunks, e) := chunks_from self chunk_size rest in
          (chunk :: chunks, e)
      end
  end.

(** The generator [self.yield_chunks(chunk_size)] run to its end, the
    instance not being changed in between. *)
Definition yield_chunks (self : entity) (chunk_size : Z) : list entity * option exn :=
  match __len__ self with
  | Err e => ([], Some e)
  | Ok n =>
      if chunk_size =? 0 then ([], Some (ValueError "range() arg 3 must not be zero"))
      else chunks_from self chunk_size (py_range 0 n chunk_size)
  end.

End Indexable.

Import Indexable.

(** * Vocabulary of the properties *)

(** The six attributes [set_index] assigns. *)
Definition index_attributes : list string :=
  ["_member_length"; "_member_index"; "_class_index_attribute"; "_class_index";
   "_class_index_to_members"; "_class_index_to_members_is_slice"].

Definition is_field (k : string) : Prop := ~ In k index_attributes.

(** The members of the set comprehension of [_check_member_validity], before
    duplicates are dropped. *)
Definition sliceable_lengths (self : entity) : list Z :=
  flat_map (fun kv => match sliceable_len (snd kv) with
                      | Some n => [n]
                      | None => []
                      end) self.

(** The selections the bounds check of [_query_index] looks at: a slice with a
    start, or an integer, at or beyond [n]. *)
Definition starts_at_or_beyond (n : Z) (sel : selection) : Prop :=
  match sel with
  | SInt i => n <= i
  | SSlice s => exists st, start s = Some st /\ n <= st
  | _ => False
  end.

(** An operation on rows, applied to the rows of a sliceable value. *)
Definition arr_map (f : forall A, list A -> list A) (a : ndarray) : ndarray :=
  match a with
  | AInt xs => AInt (f _ xs)
  | AStr xs => AStr (f _ xs)
  | ASlice xs => ASlice (f _ xs)
  end.

Definition val_map (f : forall A, list A -> list A) (v : pyval) : pyval :=
  match v with
  | VArray a => VArray (arr_map f a)
  | VMasked a m => VMasked (arr_map f a) (f _ m)
  | VTime mjd sc fm => VTime (f _ mjd) sc fm
  | _ => v
  end.

(** Arrays, masked arrays, Times, opaque values and None: the values the
    [isinstance] chains accept without recursion. *)
Definition is_leaf (v : pyval) : bool :=
  match v with
  | VArray _ | VMasked _ _ | VTime _ _ _ | VOpaque _ | VNone => true
  | _ => false
  end.

(** Rows [i .. j-1]. *)
Definition block (i j : nat) : forall A, list A -> list A :=
  fun A l => firstn (j - i) (skipn i l).

(** Rows at the positions [pos]. *)
Definition at_positions (pos : list Z) : forall A, list A -> list A :=
  fun A l => pick l pos.

(** [slice(a, b, 1)] *)
Definition sl (a b : Z) : pyslice := Slice (Some a) (Some b) (Some 1).

(** A masked array whose mask is as long as its data. *)
Definition well_formed (v : pyval) : Prop :=
  match v with
  | VMasked a m => zlen m = arr_len a
  | _ => True
  end.

(** The key of each of 100 rows when rows are grouped ten by ten. *)
Definition ten_groups_of_ten : list Z := map (fun i => i / 10) (arange 100).

(** The dictionary without the six index attributes. *)
Definition fields_of (self : entity) : entity :=
  filter (fun kv => negb (existsb (String.eqb (fst kv)) index_attributes)) self.

(** A field of a nested instance. *)
Definition nested_field (outer inner : string) (self : entity) : option pyval :=
  match lookup outer self with
  | Some (VIndexable d) => lookup inner d
  | _ => None
  end.

(** Three rows keyed a a b, with a field of every kind. *)
Definition three_rows : entity :=
  [("key", VArray (AStr ["a"; "a"; "b"]));
   ("x", VArray (AInt [10; 11; 12]));
   ("m", VMasked (AInt [1; 2; 3]) [false; true; false]);
   ("t", VTime [59000; 59001; 59002] "utc" "mjd");
   ("nested", VIndexable (fst (__init__ SpecNone [("y", VArray (AInt [7; 8; 9]))])));
   ("origin", VOpaque (OStr "SUN"))].


(** Comparisons that order rows: a total preorder given as a three-way test. *)
Record ordering (cmp : nat -> nat -> comparison) : Prop := {
  ord_antisym : forall i j, cmp i j = CompOpp (cmp j i);
  ord_eq : forall i j k, cmp i j = Eq -> cmp i k = cmp j k;
  ord_lt : forall i j k, cmp i j = Lt -> cmp j k = Lt -> cmp i k = Lt
}.


(** The number of distinct keys of an array of keys. *)
Definition distinct_keys (a : ndarray) : Z :=
  match a with
  | AInt xs => zlen (pd_unique Z.eqb xs)
  | AStr xs => zlen (pd_unique String.eqb xs)
  | ASlice _ => 0
  end.

(** The ranges of the given widths laid end to end from [from]. *)
Fixpoint ranges (from : Z) (widths : list Z) : list pyslice :=
  match widths with
  | [] => []
  | w :: r => sl from (from + w) :: ranges (from + w) r
  end.

Definition total (widths : list Z) : Z := fold_right Z.add 0 widths.

(** The number of rows that hold the key [x]. *)
Definition count_key {A} (eqb : A -> A -> bool) (l : list A) (x : A) : Z :=
  zlen (np_where eqb x 0 l).


(** [for x in self]: the items the loop sees, the instance afterwards and how
    the loop ended; [fuel] bounds the number of calls of [__next__]. *)
Inductive loop_end := Exhausted | Raised (e : exn) | OutOfFuel.

Fixpoint next_items (fuel : nat) (self : entity) : entity * list entity * loop_end :=
  match fuel with
  | O => (self, [], OutOfFuel)
  | S fuel' =>
      match __next__ self with
      | (self', Return x) =>
          let '(self'', xs, e) := next_items fuel' self' in (self'', x :: xs, e)
      | (self', StopIteration) => (self', [], Exhausted)
      | (self', Raise e) => (self', [], Raised e)
      end
  end.

Definition for_loop (fuel : nat) (self : entity) : entity * list entity * loop_end :=
  next_items fuel (__iter__ self).

(** The keys [set_index] numbers on an instance of [n] rows: the row numbers,
    the named attribute (looked up once the member index is assigned) or the
    array given. *)
Definition index_keys (spec : index_spec) (n : Z) (self : entity) : option ndarray :=
  match spec with
  | SpecNone => Some (AInt (arange n))
  | SpecName name =>
      match lookup name (setattr "_member_index" (VArray (AInt (arange n)))
                           (setattr "_member_length" (VOpaque (OInt n)) self)) with
      | Some (VArray a) => Some a
      | _ => None
      end
  | SpecArray a => Some a
  | SpecOther => None
  end.

(** The code of every row, for keys that are ints or strings. *)
Definition key_codes (a : ndarray) : option (list Z) :=
  match a with
  | AInt xs => Some (remap Z.eqb xs)
  | AStr xs => Some (remap String.eqb xs)
  | ASlice _ => None
  end.

(** What [set_index] stores in [_class_index_attribute]. *)
Definition attribute_of (spec : index_spec) : pyval :=
  match spec with
  | SpecName name => VOpaque (OStr name)
  | _ => VNone
  end.

(** The number of rows covered by the first [a] ranges of the given widths. *)
Definition rows_before (widths : list Z) (a : Z) : Z :=
  total (firstn (Z.to_nat a) widths).

(** The dictionary with the value of every entry replaced by [f key value]. *)
Definition map_values (f : string -> pyval -> pyval) (d : entity) : entity :=
  map (fun kv => (fst kv, f (fst kv) (snd kv))) d.


(** An instance of [n] rows under the default index: the class index is the
    row numbers, position [i] covers row [i] alone, and every attribute is an
    array, a masked array or a Time of [n] rows, an opaque value or None. *)
Definition default_indexed (n : Z) (self : entity) : Prop :=
  NoDup (map fst self)
  /\ lookup "_class_index" self = Some (VArray (AInt (arange n)))
  /\ lookup "_class_index_to_members_is_slice" self = Some (VOpaque (OBool true))
  /\ lookup "_class_index_to_members" self
     = Some (VArray (ASlice (ranges 0 (repeat 1 (Z.to_nat n)))))
  /\ lookup "_class_index_attribute" self = Some VNone
  /\ forall k v, lookup k self = Some v ->
       is_leaf v = true /\ well_formed v /\ forall m, sliceable_len v = Some m -> m = n.

(** The instance while the iteration cursor is at [k]. *)
Definition at_cursor (self : entity) (k : Z) : entity :=
  setattr "idx" (VOpaque (OInt k)) self.

(** Row [k] alone of every attribute of the instance, with the numpy scalar
    [k] in place of the class index. *)
Definition row_item (k : Z) (self : entity) : entity :=
  map_values (fun key v => if String.eqb key "_class_index" then VNpInt k
                           else val_map (block (Z.to_nat k) (S (Z.to_nat k))) v) self.


(** Runs of equal keys: [(k1, c1); (k2, c2); ...] stands for [c1] rows with
    key [k1], then [c2] rows with key [k2], and so on. *)
Definition expand {A} (runs : list (A * nat)) : list A :=
  flat_map (fun g => repeat (fst g) (snd g)) runs.

(** Keys are grouped when the rows of every key are adjacent: the keys are
    runs whose keys are distinct, none of them empty. *)
Definition grouped {A} (l : list A) (runs : list (A * nat)) : Prop :=
  l = expand runs /\ NoDup (map fst runs) /\ Forall (fun g => (1 <= snd g)%nat) runs.

Definition keys_grouped (a : ndarray) (counts : list nat) : Prop :=
  match a with
  | AInt xs => exists runs, grouped xs runs /\ map snd runs = counts
  | AStr xs => exists runs, grouped xs runs /\ map snd runs = counts
  | ASlice _ => False
  end.





(** * Properties *)

(** ** The error monad and dictionaries *)

Lemma bind_ok {A B} (m : result A) (k : A -> result B) (b : B) :
  bind m k = Ok b -> exists a, m = Ok a /\ k a = Ok b.
Proof. destruct m as [a|e]; simpl; intros H; [eauto | discriminate]. Qed.

Tactic Notation "inv_bind" hyp(H) "as" ident(x) ident(Hx) :=
  apply bind_ok in H; destruct H as (x & Hx & H).

Lemma lookup_setattr_eq {V} (k : string) (v : V) (d : list (string * V)) :
  lookup k (setattr k v d) = Some v.
Proof.
  induction d as [|[k' v'] d IH]; simpl.
  - now rewrite String.eqb_refl.
  - destruct (String.eqb k k') eqn:E; simpl; rewrite E; auto.
Qed.

Lemma lookup_setattr_neq {V} (k k' : string) (v : V) (d : list (string * V)) :
  k <> k' -> lookup k (setattr k' v d) = lookup k d.
Proof.
  intros Hne. induction d as [|[k2 v2] d IH]; simpl.
  - apply String.eqb_neq in Hne. now rewrite Hne.
  - destruct (String.eqb k' k2) eqn:E; simpl.
    + apply String.eqb_eq in E. subst k2.
      apply String.eqb_neq in Hne. now rewrite Hne.
    + destruct (String.eqb k k2); auto.
Qed.

Lemma lookup_In {V} (k : string) (v : V) (d : list (string * V)) :
  lookup k d = Some v -> In (k, v) d.
Proof.
  induction d as [|[k' v'] d IH]; simpl; [discriminate|].
  destruct (String.eqb k k') eqn:E.
  - apply String.eqb_eq in E. intros [= ->]. subst. now left.
  - intros H. right. auto.
Qed.

Ltac field_neq :=
  match goal with
  | H : is_field ?k |- ?k <> _ =>
      let E := fresh in intros E; apply H; rewrite E; simpl; tauto
  | |- _ <> _ => discriminate
  end.

(** ** [pd.unique] and the cardinality check *)

Lemma existsb_Zeqb_In (x : Z) (l : list Z) : existsb (Z.eqb x) l = true <-> In x l.
Proof.
  rewrite existsb_exists. split.
  - intros (y & Hy & E). apply Z.eqb_eq in E. now subst.
  - intros H. exists x. split; [assumption | apply Z.eqb_refl].
Qed.

Lemma pd_unique_from_In (x : Z) (l seen : list Z) :
  In x l -> ~ In x seen -> In x (pd_unique_from Z.eqb seen l).
Proof.
  revert seen. induction l as [|a l IH]; intros seen Hin Hseen; simpl in *; [tauto|].
  destruct (existsb (Z.eqb a) seen) eqn:E.
  - apply existsb_Zeqb_In in E.
    destruct Hin as [->|Hin]; [contradiction | auto].
  - destruct (Z.eq_dec a x) as [->|Hne]; [now left|].
    right. apply IH; [tauto|].
    rewrite in_app_iff. simpl. tauto.
Qed.

Lemma pd_unique_In (x : Z) (l : list Z) : In x l -> In x (pd_unique Z.eqb l).
Proof. intros H. apply pd_unique_from_In; auto. Qed.

Lemma sliceable_lengths_In (self : entity) (k : string) (v : pyval) (n : Z) :
  In (k, v) self -> sliceable_len v = Some n -> In n (sliceable_lengths self).
Proof.
  intros Hin Hn. unfold sliceable_lengths. apply in_flat_map.
  exists (k, v). split; [assumption|]. simpl. rewrite Hn. now left.
Qed.

Lemma sliceable_lengths_nil (self : entity) :
  (forall k v, In (k, v) self -> sliceable_len v = None) -> sliceable_lengths self = [].
Proof.
  induction self as [|[k v] d IH]; intros H; [reflexivity|].
  unfold sliceable_lengths in *. simpl.
  rewrite (H k v) by now left. simpl. apply IH. intros k' v' Hin. apply (H k' v'). now right.
Qed.

(** Two sliceable members of different lengths make [set_index] raise the
    cardinality error and leave the instance as it was. *)
Lemma mismatched_lengths_error (spec : index_spec) (self : entity)
  (k1 k2 : string) (v1 v2 : pyval) (n1 n2 : Z) :
  In (k1, v1) self -> In (k2, v2) self ->
  sliceable_len v1 = Some n1 -> sliceable_len v2 = Some n2 -> n1 <> n2 ->
  set_index spec self = (self, Err cardinality_error).
Proof.
  intros Hin1 Hin2 H1 H2 Hne.
  pose proof (pd_unique_In _ _ (sliceable_lengths_In _ _ _ _ Hin1 H1)) as U1.
  pose proof (pd_unique_In _ _ (sliceable_lengths_In _ _ _ _ Hin2 H2)) as U2.
  unfold set_index, _check_member_validity, member_lengths.
  fold (sliceable_lengths self).
  destruct (pd_unique Z.eqb (sliceable_lengths self)) as [|a [|b r]]; simpl in *; try reflexivity.
  exfalso. destruct U1 as [<-|[]], U2 as [<-|[]]. now apply Hne.
Qed.

(** C10: an instance with no sliceable member (no array, masked array or
    Time in its dictionary) cannot be constructed or indexed: the set of
    member lengths is empty, so [__init__] and [set_index] raise the
    cardinality error, whatever index is asked for, and that is the very error
    raised for members of different lengths. *)
Theorem C10_no_sliceable_member_is_cardinality_error
  (spec : index_spec) (fields : entity)
  (Hnone : forall k v, In (k, v) fields -> sliceable_len v = None) :
  member_lengths fields = []
  /\ __init__ spec fields = (fields, Err cardinality_error)
  /\ set_index spec fields = (fields, Err cardinality_error)
  /\ forall (other : entity) k1 v1 n1 k2 v2 n2,
       In (k1, v1) other -> sliceable_len v1 = Some n1 ->
       In (k2, v2) other -> sliceable_len v2 = Some n2 -> n1 <> n2 ->
       set_index spec other = (other, Err cardinality_error).
Proof.
  assert (E : member_lengths fields = []).
  { unfold member_lengths. fold (sliceable_lengths fields).
    now rewrite sliceable_lengths_nil. }
  assert (S : set_index spec fields = (fields, Err cardinality_error)).
  { unfold set_index, _check_member_validity. now rewrite E. }
  split; [exact E|]. split; [exact S|]. split; [exact S|].
  intros other k1 v1 n1 k2 v2 n2 Hin1 H1 Hin2 H2 Hne.
  now apply (mismatched_lengths_error spec other k1 k2 v1 v2 n1 n2).
Qed.

Lemma C10_witness :
  __init__ (SpecName "name")
    [("name", VOpaque (OStr "eros")); ("count", VOpaque (OInt 3));
     ("nested", VIndexable [("x", VArray (AInt [1; 2]))])]
  = ([("name", VOpaque (OStr "eros")); ("count", VOpaque (OInt 3));
      ("nested", VIndexable [("x", VArray (AInt [1; 2]))])],
     Err cardinality_error).
Proof.
  apply (C10_no_sliceable_member_is_cardinality_error (SpecName "name")).
  intros k v [[= <- <-]|[[= <- <-]|[[= <- <-]|[]]]]; reflexivity.
Defined.

(** ** Bounds check of the query *)

(** C6: a slice whose start is at or beyond [len(self)] makes the query
    raise IndexError; the read and the delete raise it before any field is
    touched (the delete leaves the instance dictionary as it was); an integer
    [i] is resolved as the slice [i : i + 1] and meets the same check. *)
Theorem C6_start_out_of_range (self : entity) (n : Z) (sel : selection)
  (Hlen : __len__ self = Ok n) (Hsel : starts_at_or_beyond n sel) :
  _query_index self sel = Err IndexError
  /\ __getitem__ self sel = Err IndexError
  /\ __delitem__ sel self = (self, Err IndexError)
  /\ forall i, _query_index self (SInt i)
               = _query_index self (SSlice (Slice (Some i) (Some (i + 1)) None)).
Proof.
  assert (Q : _query_index self sel = Err IndexError).
  { destruct sel as [i|[st sp stp]| | |]; simpl in Hsel; try contradiction.
    - unfold _query_index. simpl. rewrite Hlen. simpl.
      apply Z.leb_le in Hsel. now rewrite Hsel.
    - destruct Hsel as (s0 & E & Hle). simpl in E. subst st.
      unfold _query_index. simpl. rewrite Hlen. simpl.
      apply Z.leb_le in Hle. now rewrite Hle. }
  repeat split.
  - exact Q.
  - unfold __getitem__. now rewrite Q.
  - unfold __delitem__. now rewrite Q.
Qed.

Lemma C6_witness :
  let self := fst (__init__ SpecNone [("x", VArray (AInt [10; 11; 12]))]) in
  _query_index self (SInt 3) = Err IndexError
  /\ __getitem__ self (SSlice (Slice (Some 5) None None)) = Err IndexError
  /\ __delitem__ (SInt 3) self = (self, Err IndexError).
Proof.
  intros self.
  assert (L : __len__ self = Ok 3) by reflexivity.
  split; [|split].
  - apply (C6_start_out_of_range self 3 (SInt 3) L). simpl. lia.
  - apply (C6_start_out_of_range self 3 (SSlice (Slice (Some 5) None None)) L).
    simpl. exists 5. split; [reflexivity | lia].
  - apply (C6_start_out_of_range self 3 (SInt 3) L). simpl. lia.
Defined.

(** ** Rows selected by slices and by integer arrays *)

Lemma skipn_nth_error {A} (l : list A) (a : nat) (x : A) :
  nth_error l a = Some x -> skipn a l = x :: skipn (S a) l.
Proof.
  revert a. induction l as [|y l IH]; intros [|a]; simpl; try discriminate.
  - now intros [= ->].
  - intros H. now rewrite (IH a H).
Qed.

Lemma pick_cons {A} (l : list A) (i : Z) (pos : list Z) :
  pick l (i :: pos)
  = match nth_error l (Z.to_nat i) with Some x => [x] | None => [] end ++ pick l pos.
Proof. reflexivity. Qed.

(** Consecutive positions that exist select a contiguous block of rows. *)
Lemma pick_iota {A} (l : list A) (k a : nat) :
  (a + k <= List.length l)%nat ->
  pick l (iota (Z.of_nat a) 1 k) = firstn k (skipn a l).
Proof.
  revert a. induction k as [|k IH]; intros a Hle; [reflexivity|].
  cbn [iota]. rewrite pick_cons, Nat2Z.id.
  destruct (nth_error l a) as [x|] eqn:E.
  - rewrite (skipn_nth_error l a x E). cbn [firstn app]. f_equal.
    replace (Z.of_nat a + 1) with (Z.of_nat (S a)) by lia.
    rewrite IH by lia. reflexivity.
  - apply nth_error_None in E. lia.
Qed.

Lemma range_len_unit (a b : Z) : range_len a b 1 = Z.to_nat (b - a).
Proof.
  unfold range_len. simpl.
  destruct (a <? b) eqn:E.
  - apply Z.ltb_lt in E. rewrite Z.div_1_r. f_equal. lia.
  - apply Z.ltb_ge in E. lia.
Qed.

(** [l[i:j:1]] is the block of rows [i .. j-1], cut at the end of [l]. *)
Lemma slice_rows_block {A} (l : list A) (i j : nat) :
  (i <= j)%nat ->
  slice_rows l (Slice (Some (Z.of_nat i)) (Some (Z.of_nat j)) (Some 1))
  = Ok (firstn (j - i) (skipn i l)).
Proof.
  intros Hij. unfold slice_rows, slice_positions, slice_indices, zlen. simpl.
  destruct (Z.of_nat i <? 0) eqn:Ei; [apply Z.ltb_lt in Ei; lia|].
  destruct (Z.of_nat j <? 0) eqn:Ej; [apply Z.ltb_lt in Ej; lia|].
  simpl. f_equal. unfold py_range. rewrite range_len_unit.
  set (n := List.length l).
  destruct (Nat.le_gt_cases n i) as [Hn|Hn].
  - rewrite skipn_all2 by assumption. rewrite firstn_nil.
    replace (Z.to_nat (Z.min (Z.of_nat j) (Z.of_nat n) - Z.min (Z.of_nat i) (Z.of_nat n)))
      with 0%nat by lia.
    reflexivity.
  - replace (Z.min (Z.of_nat i) (Z.of_nat n)) with (Z.of_nat i) by lia.
    rewrite pick_iota by (fold n; lia).
    destruct (Nat.le_gt_cases j n) as [Hj|Hj].
    + f_equal. lia.
    + rewrite !firstn_all2; try reflexivity; rewrite length_skipn; fold n; lia.
Qed.

(** Positive indices are used as they are by integer-array indexing. *)
Lemma mapM_norm_index_nonneg (n : Z) (idx pos : list Z) :
  mapM (norm_index n) idx = Ok pos -> Forall (fun i => 0 <= i) idx ->
  pos = idx /\ Forall (fun i => i < n) idx.
Proof.
  revert pos. induction idx as [|i idx IH]; intros pos H Hnn; simpl in H.
  - injection H as <-. auto.
  - inversion Hnn as [|? ? Hi Hrest]; subst.
    inv_bind H as p Hp. inv_bind H as ps Hps. injection H as <-.
    unfold norm_index in Hp.
    destruct ((i <? - n) || (n <=? i)) eqn:E; [discriminate|].
    apply orb_false_elim in E. destruct E as [_ E]. apply Z.leb_gt in E.
    destruct (i <? 0) eqn:E0; [apply Z.ltb_lt in E0; lia|].
    injection Hp as <-.
    destruct (IH _ Hps Hrest) as [-> F]. split; [reflexivity | constructor; assumption].
Qed.

Lemma fancy_rows_nonneg {A} (l l' : list A) (idx : list Z) :
  fancy_rows l idx = Ok l' -> Forall (fun i => 0 <= i) idx -> l' = pick l idx.
Proof.
  unfold fancy_rows. intros H Hnn. inv_bind H as pos Hpos. injection H as <-.
  now destruct (mapM_norm_index_nonneg _ _ _ Hpos Hnn) as [-> _].
Qed.

(** ** What a read does to a field *)

Lemma getitem_val_leaf (v : pyval) (sel : selection) :
  is_leaf v = true -> getitem_val v sel = getitem_leaf v sel.
Proof. destruct v; simpl; intros H; try discriminate; reflexivity. Qed.

Lemma getitem_field_leaf (class_ind member_ind : selection) (k : string) (v : pyval) :
  k <> "_class_index" -> is_leaf v = true ->
  getitem_field getitem_val class_ind member_ind (k, v)
  = (v' <- getitem_leaf v member_ind ;; Ok (k, v')).
Proof.
  intros Hk Hv. unfold getitem_field. apply String.eqb_neq in Hk. rewrite Hk.
  destruct v; try discriminate; reflexivity.
Qed.

(** On a nested instance [v[sel]] is the nested [__getitem__]. *)
Lemma getitem_val_indexable (d : entity) (sel : selection) :
  getitem_val (VIndexable d) sel = (d' <- __getitem__ d sel ;; Ok (VIndexable d')).
Proof.
  unfold __getitem__. cbn [getitem_val].
  destruct (_query_index d sel); reflexivity.
Qed.

(** On a nested instance [del v[sel]] is the nested [__delitem__]. *)
Lemma delitem_val_indexable (d : entity) (sel : selection) :
  delitem_val (VIndexable d) sel
  = (let '(d', r) := __delitem__ sel d in (VIndexable d', r)).
Proof.
  unfold __delitem__. cbn [delitem_val].
  destruct (_query_index d sel) as [member_ind|e]; [|reflexivity].
  destruct (delitem_loop delitem_val sel member_ind d) as [d1 [[]|e]]; [|reflexivity].
  destruct (reindex d1). reflexivity.
Qed.

Lemma arr_rows_block (a : ndarray) (i j : nat) :
  (i <= j)%nat ->
  arr_rows a (SSlice (Slice (Some (Z.of_nat i)) (Some (Z.of_nat j)) (Some 1)))
  = Ok (arr_map (block i j) a).
Proof.
  intros Hij. destruct a; unfold arr_rows, arr_lift, rows;
    rewrite slice_rows_block by assumption; reflexivity.
Qed.

Lemma getitem_leaf_block (v : pyval) (i j : nat) :
  (i <= j)%nat -> is_leaf v = true ->
  getitem_leaf v (SSlice (Slice (Some (Z.of_nat i)) (Some (Z.of_nat j)) (Some 1)))
  = Ok (val_map (block i j) v).
Proof.
  intros Hij Hv. destruct v as [a|a m|mjd sc fm| | | | | |]; try discriminate;
    unfold getitem_leaf, arr_getitem, rows;
    rewrite ?arr_rows_block, ?slice_rows_block by assumption; reflexivity.
Qed.

Lemma arr_rows_at (a a' : ndarray) (idx : list Z) :
  Forall (fun i => 0 <= i) idx ->
  arr_rows a (SArray idx) = Ok a' -> a' = arr_map (at_positions idx) a.
Proof.
  intros Hnn H. destruct a; unfold arr_rows, arr_lift, rows in H;
    inv_bind H as ys Hys; injection H as <-; unfold arr_map, at_positions;
    now rewrite (fancy_rows_nonneg _ _ _ Hys Hnn).
Qed.

Lemma getitem_leaf_at (v v' : pyval) (idx : list Z) :
  is_leaf v = true -> Forall (fun i => 0 <= i) idx ->
  getitem_leaf v (SArray idx) = Ok v' -> v' = val_map (at_positions idx) v.
Proof.
  intros Hv Hnn H.
  destruct v as [a|a m|mjd sc fm| | | | | |]; try discriminate;
    unfold getitem_leaf, arr_getitem, rows in H.
  - inv_bind H as a1 Ha1. injection H as <-. now rewrite (arr_rows_at _ _ _ Hnn Ha1).
  - inv_bind H as a1 Ha1. inv_bind H as m1 Hm1. injection H as <-.
    rewrite (arr_rows_at _ _ _ Hnn Ha1).
    unfold val_map, at_positions. now rewrite (fancy_rows_nonneg _ _ _ Hm1 Hnn).
  - inv_bind H as m1 Hm1. injection H as <-.
    unfold val_map, at_positions. now rewrite (fancy_rows_nonneg _ _ _ Hm1 Hnn).
  - now injection H as <-.
  - now injection H as <-.
Qed.

(** A read keeps the keys of the dictionary and sends every entry through
    [getitem_field]. *)
Lemma getitem_fields_lookup (class_ind member_ind : selection) (self copy : entity)
  (k : string) (v : pyval) :
  mapM (getitem_field getitem_val class_ind member_ind) self = Ok copy ->
  lookup k self = Some v ->
  exists v', getitem_field getitem_val class_ind member_ind (k, v) = Ok (k, v')
             /\ lookup k copy = Some v'.
Proof.
  revert copy. induction self as [|[k0 v0] d IH]; intros copy H L; simpl in *; [discriminate|].
  inv_bind H as kv Hkv. inv_bind H as rest Hrest. injection H as <-.
  assert (K : fst kv = k0).
  { unfold getitem_field in Hkv. destruct (String.eqb k0 "_class_index");
      inv_bind Hkv as w Hw; now injection Hkv as <-. }
  destruct kv as [k1 v1]. simpl in K. subst k1. simpl.
  destruct (String.eqb k k0) eqn:E.
  - apply String.eqb_eq in E. subst k0. injection L as <-. eauto.
  - eauto.
Qed.

Lemma getitem_fields_none (class_ind member_ind : selection) (self copy : entity)
  (k : string) :
  mapM (getitem_field getitem_val class_ind member_ind) self = Ok copy ->
  lookup k self = None -> lookup k copy = None.
Proof.
  revert copy. induction self as [|[k0 v0] d IH]; intros copy H L; simpl in *.
  - now injection H as <-.
  - inv_bind H as kv Hkv. inv_bind H as rest Hrest. injection H as <-.
    assert (K : fst kv = k0).
    { unfold getitem_field in Hkv. destruct (String.eqb k0 "_class_index");
        inv_bind Hkv as w Hw; now injection Hkv as <-. }
    destruct kv as [k1 v1]. simpl in K. subst k1. simpl.
    destruct (String.eqb k k0); [discriminate | eauto].
Qed.

Lemma In_setattr {V} (k k' : string) (v v' : V) (d : list (string * V)) :
  In (k, v) (setattr k' v' d) -> (k = k' /\ v = v') \/ In (k, v) d.
Proof.
  induction d as [|[k2 v2] d IH]; simpl.
  - intros [[= <- <-]|[]]. now left.
  - destruct (String.eqb k' k2) eqn:E; simpl.
    + apply String.eqb_eq in E. subst k2.
      intros [[= <- <-]|H]; [now left | right; now right].
    + intros [H|H]; [right; now left|].
      destruct (IH H); [now left | right; now right].
Qed.

Lemma mapM_total {A B} (f : A -> result B) (l : list A) :
  (forall x, In x l -> exists y, f x = Ok y) -> exists ys, mapM f l = Ok ys.
Proof.
  induction l as [|x l IH]; intros H; simpl; [eauto|].
  destruct (H x (or_introl eq_refl)) as [y ->].
  destruct IH as [ys ->]; [intros; apply H; now right|]. simpl. eauto.
Qed.

Section Read.

Variables (self : entity) (class_ind : selection).

(** When the query resolves to the row block [i : j], the read takes that
    block from every array, masked array and Time, and keeps the rest. *)
Lemma getitem_block (i j : nat) (copy : entity) (k : string) (v : pyval) :
  _query_index self class_ind = Ok (SSlice (sl (Z.of_nat i) (Z.of_nat j))) ->
  (i <= j)%nat ->
  __getitem__ self class_ind = Ok copy ->
  k <> "_class_index" -> lookup k self = Some v -> is_leaf v = true ->
  lookup k copy = Some (val_map (block i j) v).
Proof.
  intros Q Hij H Hk L Hv. unfold __getitem__ in H. rewrite Q in H. cbn [bind] in H.
  destruct (getitem_fields_lookup _ _ _ _ k v H L) as (v' & F & L').
  rewrite getitem_field_leaf in F by assumption.
  unfold sl in F. rewrite getitem_leaf_block in F by assumption.
  cbn [bind] in F. now injection F as <-.
Qed.

(** The same when the query resolves to an array of row positions. *)
Lemma getitem_at (idx : list Z) (copy : entity) (k : string) (v : pyval) :
  _query_index self class_ind = Ok (SArray idx) ->
  Forall (fun i => 0 <= i) idx ->
  __getitem__ self class_ind = Ok copy ->
  k <> "_class_index" -> lookup k self = Some v -> is_leaf v = true ->
  lookup k copy = Some (val_map (at_positions idx) v).
Proof.
  intros Q Hnn H Hk L Hv. unfold __getitem__ in H. rewrite Q in H. cbn [bind] in H.
  destruct (getitem_fields_lookup _ _ _ _ k v H L) as (v' & F & L').
  rewrite getitem_field_leaf in F by assumption.
  inv_bind F as w Hw. injection F as <-.
  now rewrite <- (getitem_leaf_at _ _ _ Hv Hnn Hw).
Qed.

(** A read that resolves to a row block cannot fail on a dictionary whose
    class index can be subscripted and whose other entries are arrays,
    masked arrays, Times, opaque values or None. *)
Lemma getitem_block_total (i j : nat) :
  _query_index self class_ind = Ok (SSlice (sl (Z.of_nat i) (Z.of_nat j))) ->
  (i <= j)%nat ->
  (forall k v, In (k, v) self ->
     if String.eqb k "_class_index"
     then exists v', class_index_getitem v class_ind = Ok v'
     else is_leaf v = true) ->
  exists copy, __getitem__ self class_ind = Ok copy.
Proof.
  intros Q Hij Hall. unfold __getitem__. rewrite Q. cbn [bind].
  apply mapM_total. intros [k v] Hin. specialize (Hall k v Hin).
  destruct (String.eqb k "_class_index") eqn:E.
  - unfold getitem_field. rewrite E. destruct Hall as [v' ->]. simpl. eauto.
  - apply String.eqb_neq in E. rewrite getitem_field_leaf by assumption.
    unfold sl. rewrite getitem_leaf_block by assumption. simpl. eauto.
Qed.

End Read.

Ltac split_all := repeat match goal with |- _ /\ _ => split end.

Ltac evaluate := intros; split_all; vm_compute; reflexivity.

Ltac lookups :=
  repeat first [ rewrite lookup_setattr_eq
               | rewrite lookup_setattr_neq by discriminate ].

(** ** Grouping (keys a a b c c c) *)

(** C3: with the keys a a b c c c the class index has the three positions
    0, 1, 2 for the keys a, b, c, position 0 covers rows 0-1, position 1 row 2
    and position 2 rows 3-5, [len] is 3, and reading position 2 resolves to the
    row block 3:6 and returns rows 3 to 5 of every array, masked array and
    Time; the read succeeds on every instance whose fields are of these kinds,
    opaque or None. *)
Theorem C3_grouped_keys_round_trip (fields self : entity)
  (Hset : set_index (SpecArray (AStr ["a"; "a"; "b"; "c"; "c"; "c"])) fields = (self, Ok tt)) :
  pd_unique String.eqb ["a"; "a"; "b"; "c"; "c"; "c"] = ["a"; "b"; "c"]
  /\ remap String.eqb ["a"; "a"; "b"; "c"; "c"; "c"] = [0; 0; 1; 2; 2; 2]
  /\ lookup "_class_index" self = Some (VArray (AInt [0; 1; 2]))
  /\ lookup "_class_index_to_members" self
     = Some (VArray (ASlice [sl 0 2; sl 2 3; sl 3 6]))
  /\ _query_index self (SInt 0) = Ok (SSlice (sl 0 2))
  /\ _query_index self (SInt 1) = Ok (SSlice (sl 2 3))
  /\ _query_index self (SInt 2) = Ok (SSlice (sl 3 6))
  /\ __len__ self = Ok 3
  /\ (forall copy k v,
        __getitem__ self (SInt 2) = Ok copy ->
        k <> "_class_index" -> lookup k self = Some v -> is_leaf v = true ->
        lookup k copy = Some (val_map (block 3 6) v))
  /\ ((forall k v, In (k, v) fields -> k <> "_class_index" /\ is_leaf v = true) ->
      exists copy, __getitem__ self (SInt 2) = Ok copy).
Proof.
  unfold set_index in Hset.
  destruct (_check_member_validity fields) as [[n mi]|e] eqn:V; [|discriminate].
  cbn [bind] in Hset.
  change (remap String.eqb ["a"; "a"; "b"; "c"; "c"; "c"]) with [0; 0; 1; 2; 2; 2] in Hset.
  unfold build_index in Hset.
  change (_convert_grouped_array_to_slices [0; 0; 1; 2; 2; 2])
    with (Ok [sl 0 2; sl 2 3; sl 3 6]) in Hset.
  change (pd_unique Z.eqb [0; 0; 1; 2; 2; 2]) with [0; 1; 2] in Hset.
  cbv zeta in Hset. injection Hset as <-.
  match goal with |- _ /\ _ /\ lookup _ ?s = _ /\ _ => set (self := s) end.
  assert (Q : forall i, 0 <= i < 3 ->
            _query_index self (SInt i)
            = (slices <- slice_rows [sl 0 2; sl 2 3; sl 3 6] (Slice (Some i) (Some (i + 1)) None) ;;
               match slices with
               | [] => Err IndexError
               | s0 :: _ => Ok (SSlice (Slice (start s0) (stop (last slices s0)) (step s0)))
               end)).
  { intros i Hi. unfold _query_index, __len__, getattr, self. cbn [bind]. lookups.
    cbn [bind arr_len]. change (zlen [0; 1; 2]) with 3.
    destruct (3 <=? i) eqn:E; [apply Z.leb_le in E; lia|].
    lookups. cbn [bind].
    assert (i = 0 \/ i = 1 \/ i = 2) as [-> | [-> | ->]] by lia; reflexivity. }
  assert (Q2 : _query_index self (SInt 2) = Ok (SSlice (sl (Z.of_nat 3) (Z.of_nat 6)))).
  { rewrite Q by lia. reflexivity. }
  split; [reflexivity|]. split; [reflexivity|].
  split; [unfold self; lookups; reflexivity|].
  split; [unfold self; lookups; reflexivity|].
  split; [rewrite Q by lia; reflexivity|].
  split; [rewrite Q by lia; reflexivity|].
  split; [rewrite Q by lia; reflexivity|].
  split; [unfold __len__, getattr, self; lookups; reflexivity|].
  split.
  - intros copy k v H Hk L Hv.
    apply (getitem_block self (SInt 2) 3 6 copy k v Q2); auto; lia.
  - intros Hfields. apply (getitem_block_total self (SInt 2) 3 6 Q2); [lia|].
    intros k v Hin. unfold self in Hin.
    repeat (apply In_setattr in Hin; destruct Hin as [[Ek Ev]|Hin]; [subst k v|]);
      try reflexivity.
    + simpl. eauto.
    + destruct (Hfields k v Hin) as [Hk Hv].
      apply String.eqb_neq in Hk. now rewrite Hk.
Qed.

Lemma C3_witness :
  let fields :=
    [("x", VArray (AInt [10; 11; 12; 13; 14; 15]));
     ("m", VMasked (AStr ["p"; "q"; "r"; "s"; "t"; "u"])
                   [false; true; false; false; true; false]);
     ("t", VTime [59000; 59001; 59002; 59003; 59004; 59005] "utc" "mjd");
     ("origin", VOpaque (OStr "SUN"))] in
  let self := fst (set_index (SpecArray (AStr ["a"; "a"; "b"; "c"; "c"; "c"])) fields) in
  __len__ self = Ok 3
  /\ exists copy, __getitem__ self (SInt 2) = Ok copy
       /\ lookup "x" copy = Some (VArray (AInt [13; 14; 15]))
       /\ lookup "m" copy = Some (VMasked (AStr ["s"; "t"; "u"]) [false; true; false])
       /\ lookup "t" copy = Some (VTime [59003; 59004; 59005] "utc" "mjd")
       /\ lookup "origin" copy = Some (VOpaque (OStr "SUN")).
Proof.
  intros fields self.
  pose proof (C3_grouped_keys_round_trip fields self eq_refl)
    as (_ & _ & _ & _ & _ & _ & _ & L & R & T).
  split; [exact L|].
  destruct T as [copy H].
  { intros k v [[= <- <-]|[[= <- <-]|[[= <- <-]|[[= <- <-]|[]]]]];
      (split; [discriminate | reflexivity]). }
  exists copy. split; [exact H|].
  split; [|split; [|split]].
  - apply (R copy "x" (VArray (AInt [10; 11; 12; 13; 14; 15])) H);
      [discriminate | reflexivity | reflexivity].
  - apply (R copy "m" (VMasked (AStr ["p"; "q"; "r"; "s"; "t"; "u"])
                               [false; true; false; false; true; false]) H);
      [discriminate | reflexivity | reflexivity].
  - apply (R copy "t" (VTime [59000; 59001; 59002; 59003; 59004; 59005] "utc" "mjd") H);
      [discriminate | reflexivity | reflexivity].
  - apply (R copy "origin" (VOpaque (OStr "SUN")) H);
      [discriminate | reflexivity | reflexivity].
Defined.

(** ** Non-contiguous keys (a b a) *)

(** Every sliceable member has the length the validity check returns. *)
Lemma member_lengths_all (self : entity) (n m : Z) (k : string) (v : pyval) :
  member_lengths self = [n] -> In (k, v) self -> sliceable_len v = Some m -> m = n.
Proof.
  intros E Hin Hm.
  pose proof (pd_unique_In _ _ (sliceable_lengths_In _ _ _ _ Hin Hm)) as U.
  unfold member_lengths in E. fold (sliceable_lengths self) in E. rewrite E in U.
  destruct U as [<-|[]]. reflexivity.
Qed.

Lemma mapM_norm_index_total (n : Z) (idx : list Z) :
  Forall (fun i => 0 <= i < n) idx -> mapM (norm_index n) idx = Ok idx.
Proof.
  induction 1 as [|i idx Hi _ IH]; [reflexivity|].
  simpl. unfold norm_index at 1.
  destruct ((i <? - n) || (n <=? i)) eqn:E.
  - apply orb_true_elim in E. destruct E as [E|E]; [apply Z.ltb_lt in E | apply Z.leb_le in E]; lia.
  - destruct (i <? 0) eqn:E0; [apply Z.ltb_lt in E0; lia|].
    simpl. now rewrite IH.
Qed.

Lemma fancy_rows_total {A} (l : list A) (idx : list Z) :
  Forall (fun i => 0 <= i < zlen l) idx -> fancy_rows l idx = Ok (pick l idx).
Proof. intros H. unfold fancy_rows. now rewrite mapM_norm_index_total. Qed.

Lemma getitem_leaf_at_total (v : pyval) (n : Z) (idx : list Z) :
  is_leaf v = true -> well_formed v ->
  (forall m, sliceable_len v = Some m -> m = n) ->
  Forall (fun i => 0 <= i < n) idx ->
  getitem_leaf v (SArray idx) = Ok (val_map (at_positions idx) v).
Proof.
  intros Hv Hwf Hlen Hidx.
  destruct v as [a|a m|mjd sc fm| | | | | |]; try discriminate;
    unfold getitem_leaf, arr_getitem, rows; simpl in Hlen, Hwf; try reflexivity.
  - specialize (Hlen _ eq_refl).
    destruct a; unfold arr_rows, arr_lift, rows; simpl in Hlen;
      rewrite fancy_rows_total by (now rewrite Hlen); reflexivity.
  - specialize (Hlen _ eq_refl).
    rewrite (fancy_rows_total m) by (now rewrite Hwf, Hlen).
    destruct a; unfold arr_rows, arr_lift, rows; simpl in Hlen;
      rewrite fancy_rows_total by (now rewrite Hlen); reflexivity.
  - specialize (Hlen _ eq_refl).
    rewrite fancy_rows_total by (now rewrite Hlen). reflexivity.
Qed.

(** C4: with the keys a b a on an instance of three rows the mapping is kept
    in raw form (the per-row codes 0 1 0, slice flag False); reading position
    0 resolves to the row positions 0 and 2, in that order, and returns those
    rows of every array, masked array and Time; the read succeeds on every
    instance whose fields are of these kinds, opaque or None. *)
Theorem C4_non_contiguous_keys_raw_form (fields self : entity)
  (Hrows : member_lengths fields = [3])
  (Hset : set_index (SpecArray (AStr ["a"; "b"; "a"])) fields = (self, Ok tt)) :
  _convert_grouped_array_to_slices (remap String.eqb ["a"; "b"; "a"])
  = Err (ValueError "The values must be grouped.")
  /\ lookup "_class_index_to_members_is_slice" self = Some (VOpaque (OBool false))
  /\ lookup "_class_index_to_members" self = Some (VArray (AInt [0; 1; 0]))
  /\ lookup "_class_index" self = Some (VArray (AInt [0; 1]))
  /\ _query_index self (SInt 0) = Ok (SArray [0; 2])
  /\ (forall copy k v,
        __getitem__ self (SInt 0) = Ok copy ->
        k <> "_class_index" -> lookup k self = Some v -> is_leaf v = true ->
        lookup k copy = Some (val_map (at_positions [0; 2]) v))
  /\ ((forall k v, In (k, v) fields ->
         k <> "_class_index" /\ is_leaf v = true /\ well_formed v) ->
      exists copy, __getitem__ self (SInt 0) = Ok copy).
Proof.
  unfold set_index in Hset. unfold _check_member_validity in Hset.
  rewrite Hrows in Hset. cbn [bind] in Hset.
  change (arange 3) with [0; 1; 2] in Hset.
  change (remap String.eqb ["a"; "b"; "a"]) with [0; 1; 0] in Hset.
  unfold build_index in Hset.
  change (_convert_grouped_array_to_slices [0; 1; 0])
    with (@Err (list pyslice) (ValueError "The values must be grouped.")) in Hset.
  change (pd_unique Z.eqb [0; 1; 0]) with [0; 1] in Hset.
  cbv zeta in Hset. injection Hset as <-.
  match goal with |- _ /\ lookup _ ?s = _ /\ _ => set (self := s) end.
  assert (Q : _query_index self (SInt 0) = Ok (SArray [0; 2])).
  { unfold _query_index, __len__, class_index_rows, getattr, self. cbn [bind]. lookups.
    cbn [bind arr_len]. change (zlen [0; 1] <=? 0) with false. cbv iota.
    lookups. cbn [bind]. lookups. reflexivity. }
  split; [reflexivity|].
  split; [unfold self; lookups; reflexivity|].
  split; [unfold self; lookups; reflexivity|].
  split; [unfold self; lookups; reflexivity|].
  split; [exact Q|].
  split.
  - intros copy k v H Hk L Hv.
    apply (getitem_at self (SInt 0) [0; 2] copy k v Q); auto.
    repeat constructor; lia.
  - intros Hfields. unfold __getitem__. rewrite Q. cbn [bind].
    apply mapM_total. intros [k v] Hin.
    assert (I : Forall (fun i => 0 <= i < 3) [0; 2]) by (repeat constructor; lia).
    unfold self in Hin.
    repeat (apply In_setattr in Hin; destruct Hin as [[Ek Ev]|Hin]; [subst k v|]);
      try (simpl; eauto; fail).
    destruct (Hfields k v Hin) as (Hk & Hv & Hwf).
    rewrite getitem_field_leaf by assumption.
    rewrite (getitem_leaf_at_total v 3 [0; 2]); simpl; eauto.
    intros m Hm. eapply member_lengths_all; eauto.
Qed.

Lemma C4_witness :
  let fields :=
    [("x", VArray (AInt [10; 11; 12]));
     ("m", VMasked (AStr ["p"; "q"; "r"]) [false; true; false]);
     ("t", VTime [59000; 59001; 59002] "utc" "mjd");
     ("origin", VOpaque (OStr "SUN"))] in
  let self := fst (set_index (SpecArray (AStr ["a"; "b"; "a"])) fields) in
  lookup "_class_index_to_members_is_slice" self = Some (VOpaque (OBool false))
  /\ exists copy, __getitem__ self (SInt 0) = Ok copy
       /\ lookup "x" copy = Some (VArray (AInt [10; 12]))
       /\ lookup "m" copy = Some (VMasked (AStr ["p"; "r"]) [false; false])
       /\ lookup "t" copy = Some (VTime [59000; 59002] "utc" "mjd").
Proof.
  intros fields self.
  pose proof (C4_non_contiguous_keys_raw_form fields self eq_refl eq_refl)
    as (_ & F & _ & _ & _ & R & T).
  split; [exact F|].
  destruct T as [copy H].
  { intros k v [[= <- <-]|[[= <- <-]|[[= <- <-]|[[= <- <-]|[]]]]];
      (split; [discriminate | split; reflexivity]). }
  exists copy. split; [exact H|].
  split; [|split].
  - apply (R copy "x" (VArray (AInt [10; 11; 12])) H);
      [discriminate | reflexivity | reflexivity].
  - apply (R copy "m" (VMasked (AStr ["p"; "q"; "r"]) [false; true; false]) H);
      [discriminate | reflexivity | reflexivity].
  - apply (R copy "t" (VTime [59000; 59001; 59002] "utc" "mjd") H);
      [discriminate | reflexivity | reflexivity].
Defined.

(** ** Slice fusion (ten groups of ten rows) *)

Lemma firstn_plus {A} (a b : nat) (l : list A) :
  firstn (a + b) l = firstn a l ++ firstn b (skipn a l).
Proof.
  revert l. induction a as [|a IH]; intros [|x l]; simpl; try reflexivity.
  - now rewrite firstn_nil.
  - now rewrite IH.
Qed.

Lemma skipn_plus {A} (a b : nat) (l : list A) :
  skipn a (skipn b l) = skipn (b + a) l.
Proof.
  revert l. induction b as [|b IH]; intros [|x l]; simpl; try reflexivity.
  - now rewrite skipn_nil.
  - apply IH.
Qed.

Lemma block_app {A} (l : list A) (i j k : nat) :
  (i <= j)%nat -> (j <= k)%nat -> block i k A l = block i j A l ++ block j k A l.
Proof.
  intros Hij Hjk. unfold block.
  replace (k - i)%nat with ((j - i) + (k - j))%nat by lia.
  rewrite firstn_plus. f_equal. rewrite skipn_plus.
  replace (i + (j - i))%nat with j by lia. reflexivity.
Qed.

(** C5: on an index of ten groups of ten consecutive rows the selection
    [2:5] covers the row ranges 20:30, 30:40 and 40:50 and resolves to the
    single range 20:50; reading with it returns, for every array, masked array
    and Time, the rows 20 to 49, which are the rows of the three ranges one
    after the other. *)
Theorem C5_slice_fusion (fields self : entity)
  (Hset : set_index (SpecArray (AInt ten_groups_of_ten)) fields = (self, Ok tt)) :
  lookup "_class_index_to_members_is_slice" self = Some (VOpaque (OBool true))
  /\ lookup "_class_index_to_members" self
     = Some (VArray (ASlice (map (fun g => sl (10 * g) (10 * g + 10)) (arange 10))))
  /\ __len__ self = Ok 10
  /\ slice_rows (map (fun g => sl (10 * g) (10 * g + 10)) (arange 10))
                (Slice (Some 2) (Some 5) None)
     = Ok [sl 20 30; sl 30 40; sl 40 50]
  /\ _query_index self (SSlice (Slice (Some 2) (Some 5) None)) = Ok (SSlice (sl 20 50))
  /\ (forall A (l : list A),
        slice_rows l (sl 20 50) = Ok (block 20 50 A l)
        /\ slice_rows l (sl 20 30) = Ok (block 20 30 A l)
        /\ slice_rows l (sl 30 40) = Ok (block 30 40 A l)
        /\ slice_rows l (sl 40 50) = Ok (block 40 50 A l)
        /\ block 20 50 A l = block 20 30 A l ++ block 30 40 A l ++ block 40 50 A l)
  /\ (forall copy k v,
        __getitem__ self (SSlice (Slice (Some 2) (Some 5) None)) = Ok copy ->
        k <> "_class_index" -> lookup k self = Some v -> is_leaf v = true ->
        lookup k copy = Some (val_map (block 20 50) v)).
Proof.
  unfold set_index in Hset.
  destruct (_check_member_validity fields) as [[n mi]|e] eqn:V; [|discriminate].
  cbn [bind] in Hset.
  assert (R : remap Z.eqb ten_groups_of_ten = ten_groups_of_ten) by (vm_compute; reflexivity).
  assert (U : pd_unique Z.eqb ten_groups_of_ten = arange 10) by (vm_compute; reflexivity).
  assert (G : _convert_grouped_array_to_slices ten_groups_of_ten
              = Ok (map (fun g => sl (10 * g) (10 * g + 10)) (arange 10)))
    by (vm_compute; reflexivity).
  rewrite R in Hset. unfold build_index in Hset. rewrite G, U in Hset.
  cbv zeta in Hset. injection Hset as <-.
  match goal with |- lookup _ ?s = _ /\ _ => set (self := s) end.
  assert (Q : _query_index self (SSlice (Slice (Some 2) (Some 5) None))
              = Ok (SSlice (sl (Z.of_nat 20) (Z.of_nat 50)))).
  { unfold _query_index, __len__, getattr, self. cbn [bind]. lookups.
    cbn [bind arr_len]. change (zlen (arange 10) <=? 2) with false. cbv iota.
    lookups. cbn [bind]. reflexivity. }
  split; [unfold self; lookups; reflexivity|].
  split; [unfold self; lookups; reflexivity|].
  split; [unfold __len__, getattr, self; lookups; reflexivity|].
  split; [reflexivity|].
  split; [exact Q|].
  split.
  - intros A l.
    split; [apply (slice_rows_block l 20 50); lia|].
    split; [apply (slice_rows_block l 20 30); lia|].
    split; [apply (slice_rows_block l 30 40); lia|].
    split; [apply (slice_rows_block l 40 50); lia|].
    rewrite (block_app l 20 30 50) by lia.
    rewrite (block_app l 30 40 50) by lia. reflexivity.
  - intros copy k v H Hk L Hv.
    apply (getitem_block self _ 20 50 copy k v Q); auto; lia.
Qed.

Lemma C5_witness :
  let fields := [("row", VArray (AInt (arange 100))); ("orbit_id", VArray (AInt ten_groups_of_ten))] in
  let self := fst (set_index (SpecArray (AInt ten_groups_of_ten)) fields) in
  _query_index self (SSlice (Slice (Some 2) (Some 5) None)) = Ok (SSlice (sl 20 50))
  /\ exists copy, __getitem__ self (SSlice (Slice (Some 2) (Some 5) None)) = Ok copy
       /\ lookup "row" copy = Some (VArray (AInt (map (fun i => 20 + i) (arange 30)))).
Proof.
  intros fields self.
  pose proof (C5_slice_fusion fields self eq_refl) as (_ & _ & _ & _ & Q & _ & R).
  split; [exact Q|].
  destruct (__getitem__ self (SSlice (Slice (Some 2) (Some 5) None))) as [copy|e] eqn:H;
    [|vm_compute in H; discriminate].
  exists copy. split; [reflexivity|].
  rewrite (R copy "row" (VArray (AInt (arange 100))) eq_refl);
    [reflexivity | discriminate | reflexivity | reflexivity].
Defined.

(** ** The grouping test on keys that are not grouped (a a b a) *)

(** What the guard of the loop tests: the only error is the grouping error,
    and it is raised for a key with more than one row none of whose
    successive rows are adjacent. *)
Lemma grouped_slices_error (values unique_values : list Z) (slice_start : Z) (e : exn) :
  grouped_slices values unique_values slice_start = Err e ->
  e = ValueError "The values must be grouped."
  /\ exists i, In i unique_values
       /\ 1 < zlen (np_where Z.eqb i 0 values)
       /\ Forall (fun d => d <> 1) (np_diff (np_where Z.eqb i 0 values)).
Proof.
  revert slice_start. induction unique_values as [|i r IH]; intros slice_start H;
    simpl in H; [discriminate|].
  destruct ((1 <? zlen (np_where Z.eqb i 0 values))
            && forallb (fun d => negb (d =? 1)) (np_diff (np_where Z.eqb i 0 values)))
    eqn:E.
  - injection H as <-. split; [reflexivity|].
    apply andb_prop in E. destruct E as [E1 E2].
    exists i. split; [now left|]. split; [now apply Z.ltb_lt|].
    rewrite forallb_forall in E2. apply Forall_forall. intros d Hd.
    specialize (E2 d Hd). apply negb_true_iff, Z.eqb_neq in E2. exact E2.
  - destruct (grouped_slices values r (slice_start + zlen (np_where Z.eqb i 0 values)))
      as [rest|e'] eqn:G; [discriminate|].
    simpl in H. injection H as <-.
    destruct (IH _ G) as (He & j & Hj & Hrest). split; [exact He|].
    exists j. split; [now right | exact Hrest].
Qed.

(** C1 (the code at the keys a a b a): key a sits on rows 0, 1 and 3, which
    is not one contiguous run, yet [np.all(np.diff(mask) != 1)] is False
    because rows 0 and 1 are adjacent, so no ValueError is raised and the index
    is built in slice form with the ranges 0:3 and 3:4; reading key a then
    returns rows 0, 1 and 2 (row 2 belongs to key b, row 3 is lost). *)
Theorem C1_scattered_key_kept_in_slice_form :
  let keys := ["a"; "a"; "b"; "a"] in
  let fields := [("x", VArray (AInt [10; 11; 12; 13])); ("key", VArray (AStr keys))] in
  let self := fst (set_index (SpecArray (AStr keys)) fields) in
  np_where Z.eqb 0 0 (remap String.eqb keys) = [0; 1; 3]
  /\ forallb (fun d => negb (d =? 1)) (np_diff [0; 1; 3]) = false
  /\ _convert_grouped_array_to_slices (remap String.eqb keys) = Ok [sl 0 3; sl 3 4]
  /\ snd (set_index (SpecArray (AStr keys)) fields) = Ok tt
  /\ lookup "_class_index_to_members_is_slice" self = Some (VOpaque (OBool true))
  /\ lookup "_class_index_to_members" self = Some (VArray (ASlice [sl 0 3; sl 3 4]))
  /\ _query_index self (SInt 0) = Ok (SSlice (sl 0 3))
  /\ (copy <- __getitem__ self (SInt 0) ;; Ok (lookup "x" copy, lookup "key" copy))
     = Ok (Some (VArray (AInt [10; 11; 12])), Some (VArray (AStr ["a"; "a"; "b"]))).
Proof. evaluate. Qed.

(** ** Delete and concatenate on a grouped index *)

(** C7 (the code on a grouped index): with three rows keyed a a b and the
    index set on that field, [del self[0]] removes rows 0 and 1 from every
    array, masked array (data and mask), Time and nested instance and then
    raises the cardinality error from [set_index]: the class index (one entry
    left) and the class-index-to-members array (no entry left) are arrays of
    the instance dictionary, so [_check_member_validity] counts them among the
    sliceable members.  With the default index, where every array of the
    dictionary has one entry per row, the same delete goes through and [len]
    drops by one. *)
Theorem C7_delete_on_grouped_index_raises :
  let self := fst (__init__ (SpecName "key") three_rows) in
  let after := __delitem__ (SInt 0) self in
  let plain := fst (__init__ SpecNone three_rows) in
  let after_plain := __delitem__ (SInt 0) plain in
  (snd (__init__ (SpecName "key") three_rows) = Ok tt
   /\ __len__ self = Ok 2
   /\ _query_index self (SInt 0) = Ok (SSlice (sl 0 2))
   /\ snd after = Err cardinality_error
   /\ lookup "x" (fst after) = Some (VArray (AInt [12]))
   /\ lookup "m" (fst after) = Some (VMasked (AInt [3]) [false])
   /\ lookup "t" (fst after) = Some (VTime [59002] "utc" "mjd")
   /\ nested_field "nested" "y" (fst after) = Some (VArray (AInt [9]))
   /\ lookup "_member_index" (fst after) = Some (VArray (AInt [2]))
   /\ lookup "_class_index" (fst after) = Some (VArray (AInt [1]))
   /\ lookup "_class_index_to_members" (fst after) = Some (VArray (ASlice []))
   /\ member_lengths (fst after) = [1; 0])
  /\ (snd (__init__ SpecNone three_rows) = Ok tt
      /\ __len__ plain = Ok 3
      /\ snd after_plain = Ok tt
      /\ __len__ (fst after_plain) = Ok 2
      /\ lookup "key" (fst after_plain) = Some (VArray (AStr ["a"; "b"]))
      /\ lookup "x" (fst after_plain) = Some (VArray (AInt [11; 12]))
      /\ lookup "m" (fst after_plain) = Some (VMasked (AInt [2; 3]) [true; false])
      /\ lookup "t" (fst after_plain) = Some (VTime [59001; 59002] "utc" "mjd")
      /\ nested_field "nested" "y" (fst after_plain) = Some (VArray (AInt [8; 9]))).
Proof. evaluate. Qed.

(** C8 (the code on a grouped index): three rows keyed a a b, indexed on that
    field, are split by the reads [0:1] (rows 0-1) and [1:2] (row 2);
    concatenating the two parts raises the cardinality error from [set_index],
    for the reason given at C7: the joined class index has two entries and the
    fields three rows.  With the default index the two parts concatenate back
    to the original fields.  Two instances built one from row 0 and one from
    rows 1-2 do not concatenate either: their [_member_length] attributes, 1
    and 2, are integers of the instance dictionary and are asserted equal like
    any opaque field. *)
Theorem C8_concatenate_halves_of_grouped_index_raises :
  let self := fst (__init__ (SpecName "key") three_rows) in
  let plain := fst (__init__ SpecNone three_rows) in
  let first_row := fst (__init__ SpecNone [("x", VArray (AInt [10]))]) in
  let other_rows := fst (__init__ SpecNone [("x", VArray (AInt [11; 12]))]) in
  (snd (__init__ (SpecName "key") three_rows) = Ok tt
   /\ (h1 <- __getitem__ self (SSlice (Slice (Some 0) (Some 1) None)) ;;
       h2 <- __getitem__ self (SSlice (Slice (Some 1) (Some 2) None)) ;;
       Ok (lookup "x" h1, lookup "x" h2))
      = Ok (Some (VArray (AInt [10; 11])), Some (VArray (AInt [12])))
   /\ (h1 <- __getitem__ self (SSlice (Slice (Some 0) (Some 1) None)) ;;
       h2 <- __getitem__ self (SSlice (Slice (Some 1) (Some 2) None)) ;;
       concatenate [h1; h2])
      = Err cardinality_error)
  /\ (snd (__init__ SpecNone three_rows) = Ok tt
      /\ (h1 <- __getitem__ plain (SSlice (Slice (Some 0) (Some 1) None)) ;;
          h2 <- __getitem__ plain (SSlice (Slice (Some 1) (Some 3) None)) ;;
          whole <- concatenate [h1; h2] ;;
          Ok (fields_of whole))
         = Ok three_rows)
  /\ (snd (__init__ SpecNone [("x", VArray (AInt [10]))]) = Ok tt
      /\ snd (__init__ SpecNone [("x", VArray (AInt [11; 12]))]) = Ok tt
      /\ lookup "_member_length" first_row = Some (VOpaque (OInt 1))
      /\ lookup "_member_length" other_rows = Some (VOpaque (OInt 2))
      /\ concatenate [first_row; other_rows] = Err AssertionError).
Proof. evaluate. Qed.

(** ** What a read leaves in the copy *)




(** ** Stable sorting *)

Lemma ordering_eq_r cmp (O : ordering cmp) i j k :
  cmp j k = Eq -> cmp i j = cmp i k.
Proof.
  intros E. rewrite (ord_antisym cmp O i j), (ord_antisym cmp O i k).
  f_equal. now apply (ord_eq cmp O).
Qed.

Lemma ordering_flip cmp : ordering cmp -> ordering (fun i j => cmp j i).
Proof.
  intros O. constructor.
  - intros i j. apply (ord_antisym cmp O).
  - intros i j k E. apply (ordering_eq_r cmp O).
    rewrite (ord_antisym cmp O), E. reflexivity.
  - intros i j k H1 H2. apply (ord_lt cmp O k j i); assumption.
Qed.

Lemma ordering_lex c1 c2 :
  ordering c1 -> ordering c2 ->
  ordering (fun i j => match c1 i j with Eq => c2 i j | c => c end).
Proof.
  intros O1 O2. constructor.
  - intros i j. rewrite (ord_antisym c1 O1 i j).
    destruct (c1 j i); simpl; auto. apply (ord_antisym c2 O2).
  - intros i j k E.
    destruct (c1 i j) eqn:E1; try discriminate.
    rewrite (ord_eq c1 O1 i j k E1). rewrite (ord_eq c2 O2 i j k E). reflexivity.
  - intros i j k H1 H2.
    destruct (c1 i j) eqn:E1; try discriminate.
    + rewrite (ord_eq c1 O1 i j k E1).
      destruct (c1 j k) eqn:E2; try discriminate; auto.
      apply (ord_lt c2 O2 i j k); assumption.
    + destruct (c1 j k) eqn:E2; try discriminate.
      * rewrite <- (ordering_eq_r c1 O1 i j k E2), E1. reflexivity.
      * rewrite (ord_lt c1 O1 i j k E1 E2). reflexivity.
Qed.

Lemma ordering_by_value {V} (f : V -> V -> comparison) (val : nat -> V) :
  (forall a b, f a b = CompOpp (f b a)) ->
  (forall a b, f a b = Eq -> a = b) ->
  (forall a b c, f a b = Lt -> f b c = Lt -> f a c = Lt) ->
  ordering (fun i j => f (val i) (val j)).
Proof.
  intros Ha He Ht. constructor.
  - intros i j. apply Ha.
  - intros i j k E. now rewrite (He _ _ E).
  - intros i j k. apply Ht.
Qed.

Lemma ascii_compare_lt_trans (a b c : ascii) :
  Ascii.compare a b = Lt -> Ascii.compare b c = Lt -> Ascii.compare a c = Lt.
Proof.
  unfold Ascii.compare. rewrite !N.compare_lt_iff. apply N.lt_trans.
Qed.

Lemma string_compare_lt_trans (a b c : string) :
  String.compare a b = Lt -> String.compare b c = Lt -> String.compare a c = Lt.
Proof.
  revert b c. induction a as [|x a IH]; intros [|y b] [|z c]; simpl; try discriminate; auto.
  destruct (Ascii.compare x y) eqn:Exy; try discriminate.
  - apply Ascii.compare_eq_iff in Exy. subst y.
    destruct (Ascii.compare x z) eqn:Exz; try discriminate; auto. apply IH.
  - intros _. destruct (Ascii.compare y z) eqn:Eyz; try discriminate.
    + apply Ascii.compare_eq_iff in Eyz. subst z. now rewrite Exy.
    + now rewrite (ascii_compare_lt_trans x y z Exy Eyz).
Qed.

Lemma cell_compare_ordering (col : ndarray) : ordering (cell_compare col).
Proof.
  destruct col as [xs|xs|xs]; unfold cell_compare.
  - apply (ordering_by_value Z.compare (fun i => nth i xs 0)).
    + intros a b. apply Z.compare_antisym.
    + intros a b. apply Z.compare_eq.
    + intros a b c. rewrite !Z.compare_lt_iff. apply Z.lt_trans.
  - apply (ordering_by_value String.compare (fun i => nth i xs "")).
    + intros a b. apply String.compare_antisym.
    + intros a b. apply String.compare_eq_iff.
    + apply string_compare_lt_trans.
  - constructor; auto; discriminate.
Qed.

Lemma row_compare_ordering (keys : list (ndarray * bool)) : ordering (row_compare keys).
Proof.
  induction keys as [|[col asc] keys IH].
  - constructor; auto; discriminate.
  - destruct asc.
    + apply (ordering_lex (cell_compare col) (row_compare keys));
        [apply cell_compare_ordering | exact IH].
    + apply (ordering_lex (fun i j => cell_compare col j i) (row_compare keys));
        [apply ordering_flip, cell_compare_ordering | exact IH].
Qed.

Section StableSort.

Variable keys : list (ndarray * bool).







End StableSort.

(** ** [set_index] keeps the fields and numbers the rows *)

Lemma build_index_fields (codes : list Z) (self self' : entity) (r : result unit) (k : string) :
  build_index codes self = (self', r) -> is_field k -> lookup k self' = lookup k self.
Proof.
  unfold build_index. intros H Hk.
  destruct (_convert_grouped_array_to_slices codes) as [slices|[msg| | | | | | |]];
    injection H as <- _; rewrite ?lookup_setattr_neq by field_neq; reflexivity.
Qed.

(** Whatever it returns, [set_index] assigns the six index attributes only. *)
Lemma set_index_fields (spec : index_spec) (self self' : entity) (r : result unit)
  (k : string) :
  set_index spec self = (self', r) -> is_field k -> lookup k self' = lookup k self.
Proof.
  unfold set_index. intros H Hk.
  destruct (_check_member_validity self) as [[n mi]|e]; [|now injection H as <- _].
  match type of H with
  | (match ?res with _ => _ end) = _ => destruct res as [[civ attribute]|e]
  end; [|injection H as <- _; rewrite ?lookup_setattr_neq by field_neq; reflexivity].
  destruct civ as [[xs|xs|xs]|a m|mjd sc fm|d|o| |z|s|];
    try (injection H as <- _; rewrite ?lookup_setattr_neq by field_neq; reflexivity);
    rewrite (build_index_fields _ _ _ _ k H Hk);
    rewrite ?lookup_setattr_neq by field_neq; reflexivity.
Qed.

Lemma in_iota (x a : Z) (k : nat) : In x (iota a 1 k) <-> a <= x < a + Z.of_nat k.
Proof.
  revert a. induction k as [|k IH]; intros a; simpl; [lia|].
  rewrite IH. lia.
Qed.

Lemma pd_unique_from_iota (seen : list Z) (a : Z) (k : nat) :
  Forall (fun s => s < a) seen -> pd_unique_from Z.eqb seen (iota a 1 k) = iota a 1 k.
Proof.
  revert seen a. induction k as [|k IH]; intros seen a F; simpl; [reflexivity|].
  destruct (existsb (Z.eqb a) seen) eqn:E.
  - apply existsb_Zeqb_In in E. rewrite Forall_forall in F. specialize (F a E). lia.
  - f_equal. apply IH. apply Forall_app. split.
    + eapply Forall_impl; [|exact F]. simpl. intros; lia.
    + repeat constructor. lia.
Qed.

Lemma index_of_iota (x a i : Z) (k : nat) :
  a <= x < a + Z.of_nat k -> index_of Z.eqb x i (iota a 1 k) = i + (x - a).
Proof.
  revert a i. induction k as [|k IH]; intros a i Hx; simpl; [lia|].
  destruct (x =? a) eqn:E.
  - apply Z.eqb_eq in E. lia.
  - apply Z.eqb_neq in E. rewrite IH by lia. lia.
Qed.

Lemma pd_unique_arange (n : Z) : pd_unique Z.eqb (arange n) = arange n.
Proof. apply pd_unique_from_iota. constructor. Qed.

Lemma remap_arange (n : Z) : remap Z.eqb (arange n) = arange n.
Proof.
  unfold remap. rewrite pd_unique_arange. unfold arange, py_range.
  transitivity (map (fun x : Z => x) (iota 0 1 (range_len 0 n 1))); [|apply map_id].
  apply map_ext_in. intros x Hx. apply in_iota in Hx.
  rewrite index_of_iota by assumption. lia.
Qed.

(** After [set_index()] the class index and the member index are both the
    row numbers. *)
Lemma set_index_none (self self' : entity) :
  set_index SpecNone self = (self', Ok tt) ->
  exists n, lookup "_class_index" self' = Some (VArray (AInt (arange n)))
            /\ lookup "_member_index" self' = Some (VArray (AInt (arange n))).
Proof.
  unfold set_index, _check_member_validity. intros H.
  destruct (member_lengths self) as [|n [|? ?]]; try discriminate.
  cbn [bind] in H. rewrite remap_arange in H. unfold build_index in H.
  rewrite pd_unique_arange in H. exists n.
  destruct (_convert_grouped_array_to_slices (arange n)) as [slices|[msg| | | | | | |]];
    try discriminate; injection H as <-; lookups; auto.
Qed.

(** ** [sort_values] *)

Lemma nth_error_iota (a : Z) (k j : nat) :
  (j < k)%nat -> nth_error (iota a 1 k) j = Some (a + Z.of_nat j).
Proof.
  revert a j. induction k as [|k IH]; intros a [|j] Hj; simpl; try lia.
  - f_equal. lia.
  - rewrite IH by lia. f_equal. lia.
Qed.

Lemma length_iota (a st : Z) (k : nat) : List.length (iota a st k) = k.
Proof. revert a. induction k as [|k IH]; intros a; simpl; auto. Qed.

Lemma pick_arange (n : Z) (idx : list Z) :
  Forall (fun i => 0 <= i < zlen (arange n)) idx -> pick (arange n) idx = idx.
Proof.
  unfold arange, py_range, zlen. rewrite length_iota.
  induction 1 as [|i idx Hi _ IH]; [reflexivity|].
  rewrite pick_cons, IH. rewrite nth_error_iota by lia.
  simpl. f_equal. lia.
Qed.

Lemma list_eqb_Z_refl (l : list Z) : list_eqb Z.eqb l l = true.
Proof. induction l as [|x l IH]; simpl; [reflexivity|]. now rewrite Z.eqb_refl. Qed.

(** On the default index an array of row numbers resolves to itself. *)
Lemma query_default_index (self : entity) (n : Z) (idx : list Z) (member_ind : selection) :
  lookup "_class_index" self = Some (VArray (AInt (arange n))) ->
  lookup "_member_index" self = Some (VArray (AInt (arange n))) ->
  Forall (fun i => 0 <= i) idx ->
  _query_index self (SArray idx) = Ok member_ind -> member_ind = SArray idx.
Proof.
  intros C M Hnn H. unfold _query_index, class_index_rows, getattr in H. cbn [bind] in H.
  rewrite C, M in H. cbn [bind array_equal int_array] in H.
  rewrite list_eqb_Z_refl in H.
  inv_bind H as r Hr. injection H as <-. unfold rows, fancy_rows in Hr.
  inv_bind Hr as pos Hpos. injection Hr as <-.
  destruct (mapM_norm_index_nonneg _ _ _ Hpos Hnn) as [-> F].
  rewrite pick_arange; [reflexivity|].
  rewrite Forall_forall in *. intros i Hi. split; auto.
Qed.

(** Sorting by one attribute that is a plain array of the instance: the frame
    has that column alone. *)
Lemma sort_frame_single (self : entity) (b : string) (asc : bool) (a : ndarray)
  (n : nat) (keys : list (ndarray * bool)) :
  lookup b self = Some (VArray a) ->
  sort_frame self [b] [asc] = Ok (n, keys) ->
  n = Z.to_nat (arr_len a) /\ keys = [(a, asc)].
Proof.
  intros L. unfold sort_frame, find_attribute. cbn [mapM bind]. rewrite L.
  cbn [mapM bind List.concat app combine fold_left fst snd sort_column setattr].
  destruct a as [xs|xs|xs]; cbn [DataFrame bind]; try discriminate;
    cbn [List.length Nat.eqb negb mapM lookup bind]; rewrite String.eqb_refl;
    cbn [bind combine frame_length]; intros [= <- <-]; auto.
Qed.

(** The keys of an instance dictionary stay distinct. *)
Lemma in_keys_setattr {V} (x k : string) (v : V) (d : list (string * V)) :
  In x (map fst (setattr k v d)) -> x = k \/ In x (map fst d).
Proof.
  induction d as [|[k' v'] d IH]; simpl.
  - intros [<-|[]]. now left.
  - destruct (String.eqb k k'); simpl; intros [<-|H]; auto.
    destruct (IH H); auto.
Qed.

Lemma setattr_NoDup {V} (k : string) (v : V) (d : list (string * V)) :
  NoDup (map fst d) -> NoDup (map fst (setattr k v d)).
Proof.
  induction d as [|[k' v'] d IH]; simpl; intros N.
  - repeat constructor. intros [].
  - inversion N as [|? ? Hnot Hrest]; subst.
    destruct (String.eqb k k') eqn:E; simpl; [now constructor|].
    constructor; [|now apply IH].
    intros Hin. apply in_keys_setattr in Hin. destruct Hin as [->|Hin]; [|contradiction].
    now rewrite String.eqb_refl in E.
Qed.

Lemma set_index_NoDup (spec : index_spec) (self self' : entity) (r : result unit) :
  set_index spec self = (self', r) -> NoDup (map fst self) -> NoDup (map fst self').
Proof.
  unfold set_index. intros H N.
  destruct (_check_member_validity self) as [[n mi]|e]; [|now injection H as <- _].
  match type of H with
  | (match ?res with _ => _ end) = _ => destruct res as [[civ attribute]|e]
  end; [|injection H as <- _; repeat apply setattr_NoDup; assumption].
  assert (B : forall codes d d' r', build_index codes d = (d', r') ->
                NoDup (map fst d) -> NoDup (map fst d')).
  { unfold build_index. intros codes d d' r' Hb Nd.
    destruct (_convert_grouped_array_to_slices codes) as [slices|[msg| | | | | | |]];
      injection Hb as <- _; repeat apply setattr_NoDup; assumption. }
  destruct civ as [[xs|xs|xs]|a m|mjd sc fm|d|o| |z|s|];
    try (injection H as <- _; repeat apply setattr_NoDup; assumption);
    apply (B _ _ _ _ H); repeat apply setattr_NoDup; assumption.
Qed.

Lemma getitem_keys (class_ind member_ind : selection) (self copy : entity) :
  mapM (getitem_field getitem_val class_ind member_ind) self = Ok copy ->
  map fst copy = map fst self.
Proof.
  revert copy. induction self as [|[k0 v0] d IH]; intros copy H; simpl in H.
  - now injection H as <-.
  - inv_bind H as kv Hkv. inv_bind H as rest Hrest. injection H as <-.
    simpl. rewrite (IH _ Hrest). f_equal.
    unfold getitem_field in Hkv. destruct (String.eqb k0 "_class_index");
      inv_bind Hkv as w Hw; now injection Hkv as <-.
Qed.

Lemma dict_update_other (self copy : entity) (k : string) :
  ~ In k (map fst copy) -> lookup k (dict_update self copy) = lookup k self.
Proof.
  unfold dict_update. revert self. induction copy as [|[k0 v0] rest IH]; intros self Hk;
    simpl in *; [reflexivity|].
  rewrite IH by tauto. apply lookup_setattr_neq. intros ->. tauto.
Qed.

(** [self.__dict__.update(copy.__dict__)] gives [self] every entry of [copy]. *)
Lemma dict_update_lookup (self copy : entity) (k : string) (v : pyval) :
  NoDup (map fst copy) -> lookup k copy = Some v ->
  lookup k (dict_update self copy) = Some v.
Proof.
  unfold dict_update. revert self. induction copy as [|[k0 v0] rest IH]; intros self N L;
    simpl in *; [discriminate|].
  inversion N as [|? ? Hnot Hrest]; subst.
  destruct (String.eqb k k0) eqn:E.
  - apply String.eqb_eq in E. subst k0. injection L as <-.
    fold (dict_update (setattr k v0 self) rest).
    rewrite dict_update_other by assumption. apply lookup_setattr_eq.
  - now apply IH.
Qed.

(** What [sort_values] does when it does not raise, in either mode: the rows
    of the sorted copy are the original rows in the order of the stable sort;
    the copy is returned, or written over the instance when sorting in place. *)
Lemma sort_values_rows (self self' : entity) (by' : by_arg) (inplace : bool)
  (ascending : ascending_arg) (ret : option entity) :
  sort_values by' inplace ascending self = (self', Ok ret) ->
  exists by_ ascending_ n keys copy,
    sort_arguments by' ascending = Ok (by_, ascending_)
    /\ sort_frame self by_ ascending_ = Ok (n, keys)
    /\ (forall k v,
          is_field k -> lookup k self = Some v -> is_leaf v = true ->
          lookup k copy
          = Some (val_map (at_positions (map Z.of_nat (stable_argsort keys n))) v))
    /\ (NoDup (map fst self) -> NoDup (map fst copy))
    /\ (if inplace then ret = None /\ exists self2, self' = dict_update self2 copy
        else ret = Some copy).
Proof.
  intros H. unfold sort_values in H.
  destruct (sort_arguments by' ascending) as [[by_ ascending_]|e] eqn:A; [|discriminate].
  cbn [bind fst snd] in H.
  destruct (sort_frame self by_ ascending_) as [[n keys]|e] eqn:F; [|discriminate].
  cbn [bind] in H.
  destruct (getattr "_class_index_attribute" self) as [index_attribute|e] eqn:G;
    [|discriminate].
  cbn [bind] in H.
  destruct (set_index SpecNone self) as [self1 [[]|e]] eqn:S1; [|discriminate].
  set (order := stable_argsort keys n) in *.
  destruct (__getitem__ self1 (SArray (map Z.of_nat order))) as [copy0|e] eqn:R;
    [|discriminate].
  assert (Hcopy : exists copy spec r self2,
            set_index spec copy0 = (copy, r)
            /\ (if inplace then ret = None /\ self' = dict_update self2 copy
                else ret = Some copy)).
  { destruct index_attribute;
      repeat match type of H with
             | context [set_index ?s ?d] =>
                 let E := fresh "E" in destruct (set_index s d) as [? [[]|?]] eqn:E
             end;
      try discriminate; destruct inplace; injection H as <- <-; eauto 8. }
  destruct Hcopy as (copy & spec & r & self2 & S2 & Hret).
  exists by_, ascending_, n, keys, copy.
  split; [reflexivity|]. split; [exact F|].
  assert (Hnn : Forall (fun i => 0 <= i) (map Z.of_nat order)).
  { rewrite Forall_forall. intros i Hi. apply in_map_iff in Hi.
    destruct Hi as (x & <- & _). lia. }
  destruct (set_index_none _ _ S1) as (m & C & M).
  assert (Q : _query_index self1 (SArray (map Z.of_nat order))
              = Ok (SArray (map Z.of_nat order))).
  { unfold __getitem__ in R.
    destruct (_query_index self1 (SArray (map Z.of_nat order))) as [mi|e] eqn:Q;
      [|discriminate].
    now rewrite (query_default_index self1 m _ mi C M Hnn Q). }
  split; [|split].
  - intros k v Hk L Hv.
    rewrite (set_index_fields _ _ _ _ k S2 Hk).
    apply (getitem_at self1 _ _ copy0 k v Q Hnn R); [field_neq| |assumption].
    now rewrite (set_index_fields _ _ _ _ k S1 Hk).
  - intros N. apply (set_index_NoDup _ _ _ _ S2).
    unfold __getitem__ in R. rewrite Q in R. cbn [bind] in R.
    rewrite (getitem_keys _ _ _ _ R). now apply (set_index_NoDup _ _ _ _ S1).
  - destruct inplace; [|exact Hret]. destruct Hret as [-> ->]. eauto.
Qed.



(** * Further properties of the class *)

(** ** First-occurrence numbering of keys *)

Section Keys.

Context {A : Type} (eqb : A -> A -> bool).
Hypothesis eqb_spec : forall x y, eqb x y = true <-> x = y.

Lemma existsb_eqb_In (x : A) (l : list A) : existsb (eqb x) l = true <-> In x l.
Proof.
  rewrite existsb_exists. split.
  - intros (y & Hy & E). apply eqb_spec in E. now subst.
  - intros H. exists x. split; [assumption | now apply eqb_spec].
Qed.

Lemma pd_unique_from_iff (x : A) (seen l : list A) :
  In x (pd_unique_from eqb seen l) <-> In x l /\ ~ In x seen.
Proof.
  revert seen. induction l as [|a l IH]; intros seen; simpl; [tauto|].
  destruct (existsb (eqb a) seen) eqn:E.
  - apply existsb_eqb_In in E. rewrite IH. split; [tauto|].
    intros [[->|H] Hn]; tauto.
  - assert (Hn : ~ In a seen).
    { intros H. apply existsb_eqb_In in H. congruence. }
    simpl. rewrite IH, in_app_iff. simpl. split.
    + intros [->|[H1 H2]]; tauto.
    + intros [[->|H] Hs]; [now left|].
      destruct (eqb a x) eqn:Eax.
      * apply eqb_spec in Eax. now left.
      * right. split; [assumption|]. intros [H'|[->|[]]]; [tauto|].
        assert (eqb x x = true) by now apply eqb_spec. congruence.
Qed.

Lemma pd_unique_iff (x : A) (l : list A) : In x (pd_unique eqb l) <-> In x l.
Proof. unfold pd_unique. rewrite pd_unique_from_iff. simpl. tauto. Qed.

Lemma pd_unique_from_NoDup (seen l : list A) : NoDup (pd_unique_from eqb seen l).
Proof.
  revert seen. induction l as [|a l IH]; intros seen; simpl; [constructor|].
  destruct (existsb (eqb a) seen) eqn:E; [apply IH|].
  constructor; [|apply IH].
  rewrite pd_unique_from_iff, in_app_iff. simpl. tauto.
Qed.

Lemma pd_unique_NoDup (l : list A) : NoDup (pd_unique eqb l).
Proof. apply pd_unique_from_NoDup. Qed.

(** In a list without repetition every element is at the position
    [index_of] gives. *)
Lemma index_of_NoDup (u : list A) (i : Z) :
  NoDup u -> map (fun x => index_of eqb x i u) u = iota i 1 (List.length u).
Proof.
  revert i. induction u as [|y r IH]; intros i N; [reflexivity|].
  inversion N as [|? ? Hy Nr]; subst. cbn [map List.length iota]. f_equal.
  - simpl. now rewrite (proj2 (eqb_spec y y) eq_refl).
  - rewrite <- (IH (i + 1) Nr). apply map_ext_in. intros x Hx. simpl.
    destruct (eqb x y) eqn:E; [|reflexivity].
    apply eqb_spec in E. subst. contradiction.
Qed.

Lemma index_of_range (x : A) (u : list A) (i : Z) :
  i <= index_of eqb x i u <= i + zlen u
  /\ (In x u <-> index_of eqb x i u < i + zlen u).
Proof.
  revert i. induction u as [|y r IH]; intros i; unfold zlen in *; simpl.
  - split; [lia|]. split; [tauto | lia].
  - destruct (eqb x y) eqn:E.
    + apply eqb_spec in E. split; [lia|]. split; [lia | auto].
    + destruct (IH (i + 1)) as [B I]. split; [lia|]. rewrite I. split.
      * intros [->|H]; [|lia].
        assert (eqb x x = true) by now apply eqb_spec. congruence.
      * intros H. right. lia.
Qed.

Lemma index_of_inj (x y : A) (u : list A) (i : Z) :
  In x u -> index_of eqb x i u = index_of eqb y i u -> x = y.
Proof.
  revert i. induction u as [|z r IH]; intros i Hx; simpl in *; [contradiction|].
  destruct (eqb x z) eqn:Ex, (eqb y z) eqn:Ey; intros H.
  - apply eqb_spec in Ex, Ey. congruence.
  - pose proof (index_of_range y r (i + 1)). lia.
  - pose proof (index_of_range x r (i + 1)). lia.
  - destruct Hx as [->|Hx]; [|now apply (IH (i + 1))].
    assert (eqb x x = true) by now apply eqb_spec. congruence.
Qed.

(** Rows get the same number exactly when they hold the same key. *)
Lemma remap_same_code (l : list A) (x y : A) :
  In x l ->
  (index_of eqb x 0 (pd_unique eqb l) = index_of eqb y 0 (pd_unique eqb l) <-> x = y).
Proof.
  intros Hx. split; [|now intros ->].
  apply index_of_inj. now apply pd_unique_iff.
Qed.

Lemma pd_unique_from_map (f : A -> Z) (seen l : list A) :
  (forall x y, In x (seen ++ l) -> In y (seen ++ l) -> f x = f y -> x = y) ->
  pd_unique_from Z.eqb (map f seen) (map f l) = map f (pd_unique_from eqb seen l).
Proof.
  revert seen. induction l as [|a l IH]; intros seen Hinj; simpl; [reflexivity|].
  assert (E : existsb (Z.eqb (f a)) (map f seen) = existsb (eqb a) seen).
  { destruct (existsb (eqb a) seen) eqn:E.
    - apply existsb_eqb_In in E. apply existsb_exists. exists (f a).
      split; [now apply in_map | apply Z.eqb_refl].
    - apply Bool.not_true_is_false. intros H. apply existsb_exists in H.
      destruct H as (z & Hz & Ez). apply Z.eqb_eq in Ez. subst z.
      apply in_map_iff in Hz. destruct Hz as (b & Hb & Hin).
      assert (b = a).
      { apply Hinj; [apply in_or_app; now left | apply in_or_app; right; now left | assumption]. }
      subst b. apply existsb_eqb_In in Hin. congruence. }
  rewrite E. destruct (existsb (eqb a) seen).
  - apply IH. intros x y Hx Hy. apply Hinj; rewrite in_app_iff in *; simpl; tauto.
  - simpl. f_equal. rewrite <- IH.
    + now rewrite map_app.
    + intros x y Hx Hy. apply Hinj; rewrite !in_app_iff in *; simpl in *; tauto.
Qed.

(** The distinct codes of the rows are [0 .. m-1] in that order, [m] being
    the number of distinct keys. *)
Lemma pd_unique_remap (l : list A) :
  pd_unique Z.eqb (remap eqb l) = arange (zlen (pd_unique eqb l)).
Proof.
  pose proof (pd_unique_from_map (fun x => index_of eqb x 0 (pd_unique eqb l)) [] l) as H.
  cbn [map app] in H. unfold remap. cbv zeta. unfold pd_unique at 1. rewrite H.
  - fold (pd_unique eqb l). rewrite index_of_NoDup by apply pd_unique_NoDup.
    unfold arange, py_range, zlen. rewrite range_len_unit. f_equal. lia.
  - intros x y Hx _. now apply remap_same_code.
Qed.

End Keys.

(** ** What [set_index] leaves behind *)

Lemma string_eqb_iff (x y : string) : String.eqb x y = true <-> x = y.
Proof. apply String.eqb_eq. Qed.

Lemma Z_eqb_iff (x y : Z) : Z.eqb x y = true <-> x = y.
Proof. apply Z.eqb_eq. Qed.

Lemma zlen_nonneg {A} (l : list A) : 0 <= zlen l.
Proof. unfold zlen. lia. Qed.

Lemma zlen_arange (n : Z) : zlen (arange n) = Z.max 0 n.
Proof. unfold zlen, arange, py_range. rewrite length_iota, range_len_unit. lia. Qed.

Lemma sliceable_len_nonneg (v : pyval) (n : Z) : sliceable_len v = Some n -> 0 <= n.
Proof.
  destruct v as [a|a m|mjd sc fm| | | | | |]; simpl; intros [= <-];
    try destruct a; apply zlen_nonneg.
Qed.

Lemma member_lengths_nonneg (self : entity) (n : Z) : member_lengths self = [n] -> 0 <= n.
Proof.
  intros E. assert (I : In n (member_lengths self)) by (rewrite E; now left).
  unfold member_lengths in I. apply (proj1 (pd_unique_iff Z.eqb Z_eqb_iff _ _)) in I.
  apply in_flat_map in I. destruct I as ([k v] & _ & I). simpl in I.
  destruct (sliceable_len v) as [m|] eqn:S; [|contradiction].
  destruct I as [<-|[]]. now apply (sliceable_len_nonneg v).
Qed.

(** The codes of the keys are as many as the keys, and their distinct values
    are [0 .. m-1], [m] being the number of distinct keys. *)
Lemma key_codes_distinct (a : ndarray) (codes : list Z) :
  key_codes a = Some codes ->
  pd_unique Z.eqb codes = arange (distinct_keys a) /\ zlen codes = arr_len a.
Proof.
  destruct a as [xs|xs|xs]; simpl; try discriminate; intros [= <-]; split.
  - apply (pd_unique_remap Z.eqb Z_eqb_iff).
  - unfold remap, zlen. now rewrite length_map.
  - apply (pd_unique_remap String.eqb string_eqb_iff).
  - unfold remap, zlen. now rewrite length_map.
Qed.

Lemma build_index_ok (codes : list Z) (d d' : entity) (r : result unit) :
  build_index codes d = (d', r) ->
  r = Ok tt
  /\ lookup "_class_index" d' = Some (VArray (AInt (pd_unique Z.eqb codes)))
  /\ ((exists slices, _convert_grouped_array_to_slices codes = Ok slices
                      /\ d' = setattr "_class_index_to_members_is_slice" (VOpaque (OBool true))
                                (setattr "_class_index_to_members" (VArray (ASlice slices))
                                   (setattr "_class_index"
                                      (VArray (AInt (pd_unique Z.eqb codes))) d)))
      \/ (_convert_grouped_array_to_slices codes
          = Err (ValueError "The values must be grouped.")
          /\ d' = setattr "_class_index_to_members_is_slice" (VOpaque (OBool false))
                    (setattr "_class_index_to_members" (VArray (AInt codes))
                       (setattr "_class_index"
                          (VArray (AInt (pd_unique Z.eqb codes))) d)))).
Proof.
  unfold build_index, _convert_grouped_array_to_slices. intros H.
  destruct (grouped_slices codes (pd_unique Z.eqb codes) 0) as [slices|e] eqn:G.
  - injection H as <- <-. split; [reflexivity|]. split; [lookups; reflexivity|].
    left. exists slices. split; reflexivity.
  - destruct (grouped_slices_error _ _ _ _ G) as [-> _].
    injection H as <- <-. split; [reflexivity|]. split; [lookups; reflexivity|].
    right. split; reflexivity.
Qed.

(** A [set_index] that returns has found one member length, keys that are an
    array of ints or strings, and has assigned the six index attributes on
    top of the dictionary it was given. *)
Lemma set_index_ok (spec : index_spec) (self self' : entity) :
  set_index spec self = (self', Ok tt) ->
  exists n a codes,
    member_lengths self = [n]
    /\ index_keys spec n self = Some a
    /\ key_codes a = Some codes
    /\ build_index codes
         (setattr "_class_index_attribute" (attribute_of spec)
            (setattr "_member_index" (VArray (AInt (arange n)))
               (setattr "_member_length" (VOpaque (OInt n)) self)))
       = (self', Ok tt).
Proof.
  unfold set_index, _check_member_validity. intros H.
  destruct (member_lengths self) as [|n [|? ?]] eqn:M; try discriminate.
  exists n. unfold index_keys.
  destruct spec as [|name|values|]; cbn [bind attribute_of] in H |- *.
  - exists (AInt (arange n)), (remap Z.eqb (arange n)). auto.
  - unfold getattr in H.
    destruct (lookup name _) as [v|] eqn:L; [|discriminate]. cbn [bind] in H.
    destruct v as [[xs|xs|xs]|a m|mjd sc fm| | | | | |]; try discriminate.
    + exists (AInt xs), (remap Z.eqb xs). auto.
    + exists (AStr xs), (remap String.eqb xs). auto.
  - destruct values as [xs|xs|xs]; try discriminate.
    + exists (AInt xs), (remap Z.eqb xs). auto.
    + exists (AStr xs), (remap String.eqb xs). auto.
  - discriminate.
Qed.

(** Conversely these conditions are all [set_index] needs. *)
Lemma set_index_total (spec : index_spec) (self : entity) (n : Z) (a : ndarray)
  (codes : list Z) :
  member_lengths self = [n] -> index_keys spec n self = Some a ->
  key_codes a = Some codes ->
  set_index spec self
  = build_index codes
      (setattr "_class_index_attribute" (attribute_of spec)
         (setattr "_member_index" (VArray (AInt (arange n)))
            (setattr "_member_length" (VOpaque (OInt n)) self))).
Proof.
  unfold set_index, _check_member_validity, index_keys. intros -> K C.
  destruct spec as [|name|values|]; cbn [bind attribute_of]; try discriminate.
  - injection K as <-. simpl in C. injection C as <-. reflexivity.
  - unfold getattr. destruct (lookup name _) as [[a'| | | | | | | |]|]; try discriminate.
    injection K as ->. cbn [bind].
    destruct a as [xs|xs|xs]; simpl in C; try discriminate; injection C as <-; reflexivity.
  - injection K as ->.
    destruct a as [xs|xs|xs]; simpl in C; try discriminate; injection C as <-; reflexivity.
Qed.

(** X1: whatever it returns, and whatever index is asked for, [set_index]
    writes the six index attributes only: every other attribute of the
    instance is as it was, none is added or dropped, and the attribute names
    stay distinct. *)
Theorem set_index_writes_index_attributes_only
  (spec : index_spec) (self self' : entity) (r : result unit)
  (Hset : set_index spec self = (self', r)) :
  (forall k, is_field k -> lookup k self' = lookup k self)
  /\ (forall k, In k (map fst self') -> In k (map fst self) \/ In k index_attributes)
  /\ (forall k, In k (map fst self) -> In k (map fst self'))
  /\ (NoDup (map fst self) -> NoDup (map fst self')).
Proof.
  split; [intros k Hk; now apply (set_index_fields spec self self' r)|].
  split; [|split; [|now apply (set_index_NoDup spec self self' r)]].
  - assert (S : forall k' (v : pyval) d k, In k' index_attributes ->
              In k (map fst (setattr k' v d)) ->
              In k (map fst d) \/ In k index_attributes).
    { intros k' v d k Hk' Hin. apply in_keys_setattr in Hin.
      destruct Hin as [->|Hin]; auto. }
    assert (B : forall codes d d' r' k, build_index codes d = (d', r') ->
              In k (map fst d') -> In k (map fst d) \/ In k index_attributes).
    { unfold build_index. intros codes d d' r' k Hb Hin.
      destruct (_convert_grouped_array_to_slices codes) as [slices|[msg| | | | | | |]];
        injection Hb as <- _;
        repeat (apply S in Hin; [destruct Hin as [Hin|Hin]; [|now right]
                                | simpl; tauto]);
        now left. }
    intros k Hin. unfold set_index in Hset.
    destruct (_check_member_validity self) as [[n mi]|e];
      [|injection Hset as <- _; now left].
    match type of Hset with
    | (match ?res with _ => _ end) = _ => destruct res as [[civ attribute]|e]
    end.
    + assert (Hin' : In k (map fst (setattr "_class_index_attribute" attribute
                        (setattr "_member_index" (VArray mi)
                           (setattr "_member_length" (VOpaque (OInt n)) self))))
                     \/ In k index_attributes).
      { destruct civ as [[xs|xs|xs]|a m|mjd sc fm|d|o| |z|s|];
          try (injection Hset as <- _; now left);
          apply (B _ _ _ _ k Hset Hin). }
      destruct Hin' as [Hin'|Hin']; [|now right].
      repeat (apply S in Hin'; [destruct Hin' as [Hin'|Hin']; [|now right]
                               | simpl; tauto]).
      now left.
    + injection Hset as <- _.
      repeat (apply S in Hin; [destruct Hin as [Hin|Hin]; [|now right]
                              | simpl; tauto]).
      now left.
  - assert (S : forall k' (v : pyval) d k, In k (map fst d) ->
              In k (map fst (setattr k' v d))).
    { intros k' v d k. induction d as [|[k2 v2] d IH]; simpl; [tauto|].
      destruct (String.eqb k' k2); simpl; intros [<-|Hin]; auto. }
    assert (B : forall codes d d' r' k, build_index codes d = (d', r') ->
              In k (map fst d) -> In k (map fst d')).
    { unfold build_index. intros codes d d' r' k Hb Hin.
      destruct (_convert_grouped_array_to_slices codes) as [slices|[msg| | | | | | |]];
        injection Hb as <- _; repeat apply S; assumption. }
    intros k Hin. unfold set_index in Hset.
    destruct (_check_member_validity self) as [[n mi]|e];
      [|now injection Hset as <- _].
    match type of Hset with
    | (match ?res with _ => _ end) = _ => destruct res as [[civ attribute]|e]
    end; [|injection Hset as <- _; repeat apply S; assumption].
    destruct civ as [[xs|xs|xs]|a m|mjd sc fm|d|o| |z|s|];
      try (injection Hset as <- _; repeat apply S; assumption);
      apply (B _ _ _ _ k Hset); repeat apply S; assumption.
Qed.

Lemma set_index_writes_index_attributes_only_witness :
  let fields := [("x", VArray (AInt [10; 11; 12])); ("key", VArray (AStr ["a"; "b"; "a"]));
                 ("origin", VOpaque (OStr "SUN"))] in
  let self' := fst (set_index (SpecName "key") fields) in
  lookup "x" self' = Some (VArray (AInt [10; 11; 12]))
  /\ lookup "origin" self' = Some (VOpaque (OStr "SUN")).
Proof.
  intros fields self'.
  destruct (set_index_writes_index_attributes_only (SpecName "key") fields self'
              (snd (set_index (SpecName "key") fields))) as (F & _).
  { unfold self'. now destruct (set_index (SpecName "key") fields). }
  split.
  - rewrite (F "x"); [reflexivity | intros I; simpl in I; intuition discriminate].
  - rewrite (F "origin"); [reflexivity | intros I; simpl in I; intuition discriminate].
Defined.

(** The slices of a grouping that went through: ranges laid end to end from
    [slice_start], one per distinct value in order of first occurrence, each
    as wide as the number of rows holding that value. *)
Lemma grouped_slices_ok (values unique_values : list Z) (slice_start : Z)
  (slices : list pyslice) :
  grouped_slices values unique_values slice_start = Ok slices ->
  slices = ranges slice_start (map (count_key Z.eqb values) unique_values).
Proof.
  revert slice_start slices.
  induction unique_values as [|i r IH]; intros slice_start slices H; simpl in H.
  - now injection H as <-.
  - destruct ((1 <? zlen (np_where Z.eqb i 0 values))
              && forallb (fun d => negb (d =? 1)) (np_diff (np_where Z.eqb i 0 values)));
      [discriminate|].
    inv_bind H as rest Hrest. injection H as <-.
    simpl. unfold count_key at 1 2. unfold sl. f_equal. now apply IH.
Qed.

Lemma length_ranges (from : Z) (widths : list Z) :
  List.length (ranges from widths) = List.length widths.
Proof. revert from. induction widths as [|w r IH]; intros from; simpl; auto. Qed.

Lemma pd_unique_from_length {A} (eqb : A -> A -> bool) (seen l : list A) :
  (List.length (pd_unique_from eqb seen l) <= List.length l)%nat.
Proof.
  revert seen. induction l as [|x l IH]; intros seen; simpl; [lia|].
  destruct (existsb (eqb x) seen); simpl.
  - specialize (IH seen). lia.
  - specialize (IH (seen ++ [x])). lia.
Qed.

Lemma distinct_keys_bounds (a : ndarray) : 0 <= distinct_keys a <= arr_len a.
Proof.
  destruct a as [xs|xs|xs]; simpl; unfold zlen.
  - pose proof (pd_unique_from_length Z.eqb [] xs). unfold pd_unique. lia.
  - pose proof (pd_unique_from_length String.eqb [] xs). unfold pd_unique. lia.
  - lia.
Qed.

(** X2: a [set_index] that returns leaves a dense class index: the class
    index is [0 .. m-1], [m] being the number of distinct keys, so [len] is
    the number of distinct keys; the member index is [0 .. n-1] and the member
    length is [n], the one length of the sliceable members; the index
    attribute is the name given, None otherwise; and the mapping to members
    is either in slice form with one range per distinct key, or in raw form
    with the code of every row. *)
Theorem set_index_builds_dense_class_index
  (spec : index_spec) (self self' : entity)
  (Hset : set_index spec self = (self', Ok tt)) :
  exists n a codes,
    member_lengths self = [n] /\ 0 <= n
    /\ index_keys spec n self = Some a
    /\ key_codes a = Some codes
    /\ (spec = SpecNone -> distinct_keys a = n)
    /\ lookup "_member_length" self' = Some (VOpaque (OInt n))
    /\ lookup "_member_index" self' = Some (VArray (AInt (arange n)))
    /\ lookup "_class_index_attribute" self' = Some (attribute_of spec)
    /\ lookup "_class_index" self' = Some (VArray (AInt (arange (distinct_keys a))))
    /\ __len__ self' = Ok (distinct_keys a)
    /\ 0 <= distinct_keys a <= arr_len a
    /\ ((exists slices,
           _convert_grouped_array_to_slices codes = Ok slices
           /\ zlen slices = distinct_keys a
           /\ lookup "_class_index_to_members" self' = Some (VArray (ASlice slices))
           /\ lookup "_class_index_to_members_is_slice" self' = Some (VOpaque (OBool true)))
        \/ (_convert_grouped_array_to_slices codes
            = Err (ValueError "The values must be grouped.")
            /\ lookup "_class_index_to_members" self' = Some (VArray (AInt codes))
            /\ lookup "_class_index_to_members_is_slice" self'
               = Some (VOpaque (OBool false)))).
Proof.
  destruct (set_index_ok _ _ _ Hset) as (n & a & codes & M & K & C & B).
  pose proof (member_lengths_nonneg _ _ M) as Hn.
  destruct (key_codes_distinct _ _ C) as [U L].
  pose proof (distinct_keys_bounds a) as Hm.
  exists n, a, codes.
  destruct (build_index_ok _ _ _ _ B) as (_ & CI & Form).
  rewrite U in CI.
  assert (F : forall k, k <> "_class_index" -> k <> "_class_index_to_members" ->
                k <> "_class_index_to_members_is_slice" ->
                lookup k self'
                = lookup k (setattr "_class_index_attribute" (attribute_of spec)
                              (setattr "_member_index" (VArray (AInt (arange n)))
                                 (setattr "_member_length" (VOpaque (OInt n)) self)))).
  { intros k H1 H2 H3.
    destruct Form as [(slices & _ & ->)|(_ & ->)];
      now rewrite !lookup_setattr_neq by assumption. }
  split; [exact M|]. split; [exact Hn|]. split; [exact K|]. split; [exact C|].
  split.
  { intros ->. simpl in K. injection K as <-. simpl.
    rewrite pd_unique_arange, zlen_arange. lia. }
  split; [rewrite F by discriminate; lookups; reflexivity|].
  split; [rewrite F by discriminate; lookups; reflexivity|].
  split; [rewrite F by discriminate; lookups; reflexivity|].
  split; [exact CI|].
  split.
  { unfold __len__, getattr. rewrite CI. cbn [bind arr_len]. rewrite zlen_arange.
    f_equal. lia. }
  split; [exact Hm|].
  destruct Form as [(slices & G & ->)|(G & ->)]; [left; exists slices | right].
  - split; [exact G|]. split; [|split; lookups; reflexivity].
    unfold _convert_grouped_array_to_slices in G.
    apply grouped_slices_ok in G. rewrite G, U.
    unfold zlen. rewrite length_ranges, length_map. fold (zlen (arange (distinct_keys a))).
    rewrite zlen_arange. lia.
  - split; [exact G|]. split; lookups; reflexivity.
Qed.

Lemma set_index_builds_dense_class_index_witness :
  let fields := [("x", VArray (AInt [10; 11; 12; 13]));
                 ("key", VArray (AStr ["b"; "b"; "a"; "b"]))] in
  let self' := fst (set_index (SpecName "key") fields) in
  __len__ self' = Ok 2
  /\ lookup "_class_index" self' = Some (VArray (AInt [0; 1]))
  /\ lookup "_member_index" self' = Some (VArray (AInt [0; 1; 2; 3])).
Proof.
  intros fields self'.
  destruct (set_index_builds_dense_class_index (SpecName "key") fields self' eq_refl)
    as (n & a & codes & M & _ & K & _ & _ & _ & MI & _ & CI & L & _).
  vm_compute in M. injection M as <-.
  vm_compute in K. injection K as <-.
  split; [exact L|]. split; [exact CI | exact MI].
Defined.

(** ** The numbering of the keys *)

Lemma index_of_nth {A} (eqb : A -> A -> bool)
  (eqb_spec : forall x y, eqb x y = true <-> x = y) (x : A) (u : list A) (i : Z) :
  In x u -> nth_error u (Z.to_nat (index_of eqb x i u - i)) = Some x.
Proof.
  revert i. induction u as [|y u IH]; intros i Hin; simpl in *; [contradiction|].
  destruct (eqb x y) eqn:E.
  - apply eqb_spec in E. subst y. now rewrite Z.sub_diag.
  - assert (Hx : In x u).
    { destruct Hin as [->|Hin]; [|assumption].
      assert (T : eqb x x = true) by now apply eqb_spec. congruence. }
    pose proof (index_of_range eqb eqb_spec x u (i + 1)) as [R _].
    replace (Z.to_nat (index_of eqb x (i + 1) u - i))
      with (S (Z.to_nat (index_of eqb x (i + 1) u - (i + 1)))) by lia.
    simpl. now apply IH.
Qed.

(** X3: the numbering of the keys in [set_index] (the merge of the keys with
    their distinct values).  Every row gets a code; two rows get the same code
    exactly when they hold the same key; the codes are the positions of the
    keys among the distinct keys in order of first occurrence, so a code
    leads back to its key; and the distinct codes, in order of first
    occurrence, are [0 .. m-1]. *)
Theorem remap_numbers_keys_by_first_occurrence {A} (eqb : A -> A -> bool)
  (values : list A) (eqb_spec : forall x y, eqb x y = true <-> x = y) :
  let codes := remap eqb values in
  let df_unique := pd_unique eqb values in
  List.length codes = List.length values
  /\ NoDup df_unique
  /\ (forall x, In x df_unique <-> In x values)
  /\ (forall i x, nth_error values i = Some x ->
        exists c, nth_error codes i = Some c
                  /\ 0 <= c < zlen df_unique
                  /\ nth_error df_unique (Z.to_nat c) = Some x)
  /\ (forall i j x y c d,
        nth_error values i = Some x -> nth_error values j = Some y ->
        nth_error codes i = Some c -> nth_error codes j = Some d ->
        (c = d <-> x = y))
  /\ pd_unique Z.eqb codes = arange (zlen df_unique).
Proof.
  intros codes df_unique.
  assert (N : forall i x, nth_error values i = Some x ->
            nth_error codes i = Some (index_of eqb x 0 df_unique)).
  { intros i x H. unfold codes, remap. fold df_unique.
    rewrite nth_error_map, H. reflexivity. }
  assert (I : forall i x, nth_error values i = Some x -> In x df_unique).
  { intros i x H. apply (pd_unique_iff eqb eqb_spec). eapply nth_error_In; eauto. }
  split; [unfold codes, remap; apply length_map|].
  split; [apply (pd_unique_NoDup eqb eqb_spec)|].
  split; [intros x; apply (pd_unique_iff eqb eqb_spec)|].
  split; [|split].
  - intros i x H. exists (index_of eqb x 0 df_unique).
    split; [now apply N|].
    pose proof (index_of_range eqb eqb_spec x df_unique 0) as [R1 R2].
    pose proof (index_of_nth eqb eqb_spec x df_unique 0 (I _ _ H)) as D.
    rewrite Z.sub_0_r in D.
    split; [|exact D]. pose proof (proj1 R2 (I _ _ H)). lia.
  - intros i j x y c d Hx Hy Hc Hd.
    rewrite (N _ _ Hx) in Hc. rewrite (N _ _ Hy) in Hd.
    injection Hc as <-. injection Hd as <-.
    apply (remap_same_code eqb eqb_spec values x y).
    eapply nth_error_In; eauto.
  - apply (pd_unique_remap eqb eqb_spec).
Qed.

Lemma remap_numbers_keys_by_first_occurrence_witness :
  remap String.eqb ["b"; "a"; "b"; "c"; "a"] = [0; 1; 0; 2; 1]
  /\ pd_unique Z.eqb (remap String.eqb ["b"; "a"; "b"; "c"; "a"]) = arange 3.
Proof.
  split; [reflexivity|].
  exact (proj2 (proj2 (proj2 (proj2 (proj2
    (remap_numbers_keys_by_first_occurrence String.eqb ["b"; "a"; "b"; "c"; "a"]
       string_eqb_iff)))))).
Defined.

(** ** An index with fewer keys than rows *)

Lemma build_index_frame (codes : list Z) (d d' : entity) (r : result unit) (k : string) :
  build_index codes d = (d', r) ->
  k <> "_class_index" -> k <> "_class_index_to_members" ->
  k <> "_class_index_to_members_is_slice" -> lookup k d' = lookup k d.
Proof.
  intros B H1 H2 H3.
  destruct (build_index_ok _ _ _ _ B) as (_ & _ & [(slices & _ & ->)|(_ & ->)]);
    now rewrite !lookup_setattr_neq by assumption.
Qed.

(** X4: an index with fewer keys than rows cannot be rebuilt.  Once
    [set_index] has returned with a class index whose length differs from the
    member length (two rows share a key), the class index and the member
    index are arrays of different lengths in the instance dictionary, so
    every later [set_index], whatever its argument, raises the cardinality
    error and changes nothing; this includes assigning to or deleting the
    [index] property; and [sort_values] raises whatever its arguments are,
    leaving the instance as it was. *)
Theorem index_with_repeated_keys_cannot_be_rebuilt
  (spec : index_spec) (self self' : entity) (n m : Z)
  (Hset : set_index spec self = (self', Ok tt))
  (Hn : lookup "_member_length" self' = Some (VOpaque (OInt n)))
  (Hm : __len__ self' = Ok m)
  (Hne : m <> n) :
  (forall spec', set_index spec' self' = (self', Err cardinality_error))
  /\ (forall value, index_setter value self' = (self', Err cardinality_error))
  /\ index_deleter self' = (self', Err cardinality_error)
  /\ (forall by' inplace ascending,
        exists e, sort_values by' inplace ascending self' = (self', Err e)).
Proof.
  destruct (set_index_ok _ _ _ Hset) as (n' & a & codes & M & K & C & B).
  pose proof (member_lengths_nonneg _ _ M) as Hn'.
  destruct (build_index_ok _ _ _ _ B) as (_ & CI & _).
  assert (MI : lookup "_member_index" self' = Some (VArray (AInt (arange n')))).
  { rewrite (build_index_frame _ _ _ _ "_member_index" B) by discriminate.
    lookups. reflexivity. }
  assert (ML : lookup "_member_length" self' = Some (VOpaque (OInt n'))).
  { rewrite (build_index_frame _ _ _ _ "_member_length" B) by discriminate.
    lookups. reflexivity. }
  rewrite ML in Hn. injection Hn as ->.
  unfold __len__, getattr in Hm. rewrite CI in Hm. cbn [bind arr_len] in Hm.
  injection Hm as Hm.
  assert (S : forall spec', set_index spec' self' = (self', Err cardinality_error)).
  { intros spec'.
    apply (mismatched_lengths_error spec' self' "_class_index" "_member_index"
             (VArray (AInt (pd_unique Z.eqb codes))) (VArray (AInt (arange n)))
             m n).
    - now apply lookup_In.
    - now apply lookup_In.
    - simpl. now rewrite Hm.
    - simpl. rewrite zlen_arange. f_equal. lia.
    - exact Hne. }
  split; [exact S|]. split; [exact S|]. split; [apply S|].
  intros by' inplace ascending. unfold sort_values.
  destruct (args <- sort_arguments by' ascending ;;
            frame <- sort_frame self' (fst args) (snd args) ;;
            index_attribute <- getattr "_class_index_attribute" self' ;;
            Ok (frame, index_attribute)) as [[[n0 keys] index_attribute]|e];
    [|eauto].
  rewrite (S SpecNone). eauto.
Qed.

Lemma index_with_repeated_keys_cannot_be_rebuilt_witness :
  let fields := [("x", VArray (AInt [10; 11; 12])); ("key", VArray (AStr ["a"; "a"; "b"]))] in
  let self' := fst (set_index (SpecName "key") fields) in
  set_index SpecNone self' = (self', Err cardinality_error)
  /\ exists e, sort_values (ByName "x") false (AscBool true) self' = (self', Err e).
Proof.
  intros fields self'.
  destruct (index_with_repeated_keys_cannot_be_rebuilt (SpecName "key") fields self' 3 2
              eq_refl eq_refl eq_refl) as (S & _ & _ & V); [lia|].
  split; [apply S | apply V].
Defined.

(** ** The ranges of a grouped array *)

Section Counts.

Context {A : Type} (eqb : A -> A -> bool).
Hypothesis eqb_spec : forall x y, eqb x y = true <-> x = y.

Lemma eqb_refl_of_spec (x : A) : eqb x x = true.
Proof. now apply eqb_spec. Qed.

Lemma np_where_length (v : A) (i : Z) (l : list A) :
  List.length (np_where eqb v i l) = List.length (filter (fun y => eqb y v) l).
Proof.
  revert i. induction l as [|y l IH]; intros i; simpl; [reflexivity|].
  destruct (eqb y v); simpl; now rewrite IH.
Qed.

Lemma count_key_cons (x y : A) (l : list A) :
  count_key eqb (y :: l) x = (if eqb y x then 1 else 0) + count_key eqb l x.
Proof.
  unfold count_key, zlen. rewrite !np_where_length. cbn [filter].
  destruct (eqb y x); cbn [List.length]; lia.
Qed.

Lemma count_key_nonneg (x : A) (l : list A) : 0 <= count_key eqb l x.
Proof. apply zlen_nonneg. Qed.

(** A key that occurs is counted at least once. *)
Lemma count_key_pos (x : A) (l : list A) : In x l -> 1 <= count_key eqb l x.
Proof.
  induction l as [|y l IH]; simpl; [contradiction|].
  intros Hin. rewrite count_key_cons. pose proof (count_key_nonneg x l).
  destruct (eqb y x) eqn:E; [lia|].
  destruct Hin as [->|Hin]; [rewrite eqb_refl_of_spec in E; discriminate|].
  specialize (IH Hin). lia.
Qed.

Lemma unseen_split (a : A) (seen l : list A) :
  ~ In a seen ->
  zlen (filter (fun y => negb (existsb (eqb y) seen)) l)
  = count_key eqb l a + zlen (filter (fun y => negb (existsb (eqb y) (seen ++ [a]))) l).
Proof.
  intros Ha. induction l as [|y l IH]; [reflexivity|].
  rewrite count_key_cons. cbn [filter]. rewrite existsb_app. cbn [existsb].
  rewrite orb_false_r.
  destruct (existsb (eqb y) seen) eqn:E; cbn [negb orb].
  - destruct (eqb y a) eqn:E2.
    + apply eqb_spec in E2. subst y. apply (existsb_eqb_In eqb eqb_spec) in E. contradiction.
    + lia.
  - destruct (eqb y a); cbn [negb]; unfold zlen in *; cbn [List.length]; lia.
Qed.

Lemma count_total_from (seen l : list A) :
  total (map (count_key eqb l) (pd_unique_from eqb seen l))
  = zlen (filter (fun y => negb (existsb (eqb y) seen)) l).
Proof.
  revert seen. induction l as [|a l IH]; intros seen; [reflexivity|].
  assert (Other : forall s u, In u (pd_unique_from eqb s l) -> In a s ->
                    count_key eqb (a :: l) u = count_key eqb l u).
  { intros s u Hu Hs. rewrite count_key_cons.
    destruct (eqb a u) eqn:E; [|lia].
    apply eqb_spec in E. subst u.
    apply (pd_unique_from_iff eqb eqb_spec) in Hu. tauto. }
  cbn [pd_unique_from filter]. destruct (existsb (eqb a) seen) eqn:E; cbn [negb map total fold_right].
  - apply (existsb_eqb_In eqb eqb_spec) in E.
    rewrite (map_ext_in _ (count_key eqb l)); [apply IH|].
    intros u Hu. now apply (Other seen).
  - assert (Ha : ~ In a seen).
    { intros Hin. apply (existsb_eqb_In eqb eqb_spec) in Hin. congruence. }
    rewrite (map_ext_in _ (count_key eqb l) (pd_unique_from eqb (seen ++ [a]) l)).
    + rewrite IH, count_key_cons, eqb_refl_of_spec.
      pose proof (unseen_split a seen l Ha) as U.
      unfold zlen in *. cbn [List.length]. lia.
    + intros u Hu. apply (Other (seen ++ [a])); [assumption|].
      rewrite in_app_iff. simpl. tauto.
Qed.

(** The numbers of rows of the distinct keys add up to the number of rows. *)
Lemma count_total (l : list A) :
  total (map (count_key eqb l) (pd_unique eqb l)) = zlen l.
Proof.
  unfold pd_unique. rewrite count_total_from. f_equal.
  clear. induction l as [|x l IH]; [reflexivity|].
  simpl in *. now rewrite IH.
Qed.

End Counts.

Lemma firstn_ranges (k : nat) (from : Z) (widths : list Z) :
  firstn k (ranges from widths) = ranges from (firstn k widths).
Proof.
  revert from widths. induction k as [|k IH]; intros from [|w r]; simpl; try reflexivity.
  now rewrite IH.
Qed.

Lemma skipn_ranges (k : nat) (from : Z) (widths : list Z) :
  skipn k (ranges from widths) = ranges (from + total (firstn k widths)) (skipn k widths).
Proof.
  revert from widths. induction k as [|k IH]; intros from [|w r]; simpl;
    rewrite ?Z.add_0_r; try reflexivity.
  rewrite IH. f_equal. lia.
Qed.

Lemma is_consecutive_ranges (from : Z) (widths : list Z) :
  is_consecutive (ranges from widths) = true.
Proof.
  revert from. induction widths as [|w [|w' r] IH]; intros from; try reflexivity.
  specialize (IH (from + w)). cbn [ranges] in IH |- *. cbn [is_consecutive].
  cbn [sl stop start step optZ_eqb]. rewrite !Z.eqb_refl. cbn [negb andb]. exact IH.
Qed.

Lemma last_ranges (from : Z) (widths : list Z) (d : pyslice) :
  widths <> [] -> stop (last (ranges from widths) d) = Some (from + total widths).
Proof.
  revert from. induction widths as [|w [|w' r] IH]; intros from Hne; [congruence| |].
  - simpl. f_equal. lia.
  - specialize (IH (from + w)). cbn [ranges] in IH |- *.
    change (last (sl from (from + w) :: sl (from + w) (from + w + w') :: ranges (from + w + w') r) d)
      with (last (sl (from + w) (from + w + w') :: ranges (from + w + w') r) d).
    rewrite IH by discriminate. f_equal. simpl. lia.
Qed.

Lemma total_nonneg (widths : list Z) : Forall (fun w => 0 <= w) widths -> 0 <= total widths.
Proof. induction 1; simpl; lia. Qed.

Lemma total_app (u v : list Z) : total (u ++ v) = total u + total v.
Proof. induction u as [|x u IH]; simpl; lia. Qed.

(** The ranges of a grouping that went through, their widths and what they
    cover. *)
Lemma tiling_of_grouped_slices (values : list Z) (slices : list pyslice) :
  _convert_grouped_array_to_slices values = Ok slices ->
  let widths := map (count_key Z.eqb values) (pd_unique Z.eqb values) in
  slices = ranges 0 widths
  /\ Forall (fun w => 1 <= w) widths
  /\ total widths = zlen values.
Proof.
  intros Hok widths. unfold _convert_grouped_array_to_slices in Hok.
  apply grouped_slices_ok in Hok. fold widths in Hok.
  split; [exact Hok|]. split.
  - unfold widths. rewrite Forall_forall. intros w Hw. apply in_map_iff in Hw.
    destruct Hw as (u & <- & Hu). apply (count_key_pos Z.eqb Z_eqb_iff).
    now apply (pd_unique_iff Z.eqb Z_eqb_iff).
  - apply (count_total Z.eqb Z_eqb_iff).
Qed.

(** X5: the result of [_convert_grouped_array_to_slices], when it does not
    raise: one range per distinct value, in order of first occurrence, each
    as wide as the number of rows that hold the value and none empty; the
    ranges are laid end to end from row 0 to [len(values)] with step 1, so
    they pass the consecutiveness test of [_query_index]. *)
Theorem grouped_slices_tile_the_rows (values : list Z) (slices : list pyslice)
  (Hok : _convert_grouped_array_to_slices values = Ok slices) :
  let widths := map (count_key Z.eqb values) (pd_unique Z.eqb values) in
  slices = ranges 0 widths
  /\ List.length slices = List.length (pd_unique Z.eqb values)
  /\ Forall (fun w => 1 <= w) widths
  /\ total widths = zlen values
  /\ is_consecutive slices = true
  /\ (forall j s, nth_error slices j = Some s ->
        exists w, nth_error widths j = Some w
                  /\ s = sl (total (firstn j widths)) (total (firstn j widths) + w))
  /\ (slices <> [] -> forall d, start (hd d slices) = Some 0
                                /\ stop (last slices d) = Some (zlen values)).
Proof.
  intros widths.
  destruct (tiling_of_grouped_slices values slices Hok) as (E & F & T).
  fold widths in E, F, T. subst slices.
  split; [reflexivity|].
  split; [unfold widths; now rewrite length_ranges, length_map|].
  split; [exact F|].
  split; [exact T|].
  split; [apply is_consecutive_ranges|].
  split.
  - intros j s Hj.
    pose proof (skipn_ranges j 0 widths) as Sk.
    assert (Hs : skipn j (ranges 0 widths) = s :: skipn (S j) (ranges 0 widths))
      by now apply skipn_nth_error.
    rewrite Hs in Sk.
    destruct (skipn j widths) as [|w r] eqn:E; [discriminate|].
    exists w. split.
    + rewrite <- (firstn_skipn j widths) at 1.
      assert (L : List.length (firstn j widths) = j).
      { apply firstn_length_le.
        assert (j < List.length widths)%nat; [|lia].
        rewrite <- (length_ranges 0). apply nth_error_Some. congruence. }
      rewrite nth_error_app2 by lia. rewrite L, Nat.sub_diag, E. reflexivity.
    + simpl in Sk. now injection Sk as ->.
  - intros Hne d. destruct widths as [|w r] eqn:E; [now contradiction Hne|].
    split; [reflexivity|].
    rewrite last_ranges by discriminate. f_equal. lia.
Qed.

Lemma grouped_slices_tile_the_rows_witness :
  _convert_grouped_array_to_slices [0; 0; 1; 2; 2; 2] = Ok [sl 0 2; sl 2 3; sl 3 6].
Proof.
  destruct (_convert_grouped_array_to_slices [0; 0; 1; 2; 2; 2]) as [slices|e] eqn:H;
    [|vm_compute in H; discriminate].
  destruct (grouped_slices_tile_the_rows [0; 0; 1; 2; 2; 2] slices H) as (-> & _).
  reflexivity.
Defined.

(** ** Selections on an index in slice form *)

Lemma query_int_is_unit_slice (self : entity) (i : Z) :
  _query_index self (SInt i) = _query_index self (SSlice (Slice (Some i) (Some (i + 1)) None)).
Proof. reflexivity. Qed.

Lemma slice_rows_default_step {A} (l : list A) (a b : option Z) :
  slice_rows l (Slice a b None) = slice_rows l (Slice a b (Some 1)).
Proof. reflexivity. Qed.

Lemma rows_before_bounds (widths : list Z) (a b : Z) :
  Forall (fun w => 1 <= w) widths -> 0 <= a < zlen widths -> a < b ->
  0 <= rows_before widths a < rows_before widths b
  /\ rows_before widths b <= total widths.
Proof.
  intros F Ha Hab. unfold rows_before.
  assert (Nn : forall l, Forall (fun w => 1 <= w) l -> 0 <= total l).
  { intros l Fl. apply total_nonneg. eapply Forall_impl; [|exact Fl]. simpl. intros; lia. }
  replace (Z.to_nat b) with (Z.to_nat a + (Z.to_nat b - Z.to_nat a))%nat by lia.
  rewrite firstn_plus, total_app.
  rewrite <- (firstn_skipn (Z.to_nat a) widths) in F. apply Forall_app in F.
  destruct F as [F1 F2].
  destruct (skipn (Z.to_nat a) widths) as [|w r] eqn:E.
  { exfalso. assert (L : List.length (skipn (Z.to_nat a) widths) = 0%nat) by now rewrite E.
    rewrite length_skipn in L. unfold zlen in Ha. lia. }
  destruct (Z.to_nat b - Z.to_nat a)%nat as [|k] eqn:K; [lia|].
  inversion F2 as [|? ? Hw Hr]; subst.
  assert (Hk : 0 <= total (firstn k r)).
  { apply Nn. rewrite <- (firstn_skipn k r) in Hr. now apply Forall_app in Hr. }
  assert (Hk2 : total (firstn k r) <= total r).
  { rewrite <- (firstn_skipn k r) at 2. rewrite total_app.
    assert (0 <= total (skipn k r)); [|lia].
    apply Nn. rewrite <- (firstn_skipn k r) in Hr. now apply Forall_app in Hr. }
  pose proof (Nn _ F1).
  assert (T : total widths = total (firstn (Z.to_nat a) widths) + (w + total r)).
  { rewrite <- (firstn_skipn (Z.to_nat a) widths) at 1. rewrite total_app, E. reflexivity. }
  cbn [firstn total fold_right]. fold (total (firstn k r)). lia.
Qed.

(** On an index in slice form whose ranges lie end to end, a selection
    [a:b] that starts inside the index resolves to the one range from the
    first row of position [a] to the last row of position [b-1]. *)
Lemma query_ranges (self : entity) (ci : ndarray) (widths : list Z) (a b : Z) :
  lookup "_class_index" self = Some (VArray ci) -> arr_len ci = zlen widths ->
  lookup "_class_index_to_members_is_slice" self = Some (VOpaque (OBool true)) ->
  lookup "_class_index_to_members" self = Some (VArray (ASlice (ranges 0 widths))) ->
  0 <= a < zlen widths -> a < b ->
  _query_index self (SSlice (Slice (Some a) (Some b) None))
  = Ok (SSlice (sl (rows_before widths a) (rows_before widths b))).
Proof.
  intros CI Len Form C2M Ha Hab.
  unfold _query_index, __len__, getattr. cbn [bind]. rewrite CI. cbn [bind]. rewrite Len.
  destruct (zlen widths <=? a) eqn:E; [apply Z.leb_le in E; lia|].
  rewrite Form. cbn [bind]. rewrite C2M. cbn [bind].
  rewrite slice_rows_default_step.
  rewrite <- (Z2Nat.id a), <- (Z2Nat.id b) by lia.
  rewrite slice_rows_block by lia. cbn [bind].
  rewrite skipn_ranges, firstn_ranges, is_consecutive_ranges.
  set (from := 0 + total (firstn (Z.to_nat a) widths)).
  set (ws := firstn (Z.to_nat b - Z.to_nat a) (skipn (Z.to_nat a) widths)).
  assert (T : rows_before widths (Z.of_nat (Z.to_nat b)) = from + total ws).
  { unfold rows_before, from, ws. rewrite Nat2Z.id.
    replace (Z.to_nat b) with (Z.to_nat a + (Z.to_nat b - Z.to_nat a))%nat at 1 by lia.
    rewrite firstn_plus, total_app. lia. }
  assert (Hws : ws <> []).
  { intros Hnil. assert (L : List.length ws = 0%nat) by now rewrite Hnil.
    unfold ws in L. rewrite length_firstn, length_skipn in L. unfold zlen in Ha. lia. }
  destruct ws as [|w r] eqn:Ews; [congruence|].
  change (ranges from (w :: r)) with (sl from (from + w) :: ranges (from + w) r).
  cbv iota.
  change (sl from (from + w) :: ranges (from + w) r) with (ranges from (w :: r)).
  rewrite last_ranges by discriminate.
  unfold sl. cbn [start step]. rewrite T.
  unfold rows_before. rewrite Nat2Z.id. unfold from. rewrite Z.add_0_l. reflexivity.
Qed.

(** A selection that covers no position leaves no range to fuse. *)
Lemma slice_rows_empty {A} (l : list A) (a b : Z) :
  b = 0 \/ 0 <= b <= a -> slice_rows l (Slice (Some a) (Some b) None) = Ok [].
Proof.
  intros H. unfold slice_rows, slice_positions, slice_indices. cbn [step start stop].
  cbn [Z.eqb Z.ltb Z.compare]. cbn [bind]. unfold py_range. rewrite range_len_unit.
  pose proof (zlen_nonneg l) as Hl.
  replace (Z.to_nat _) with 0%nat; [reflexivity|].
  destruct (a <? 0) eqn:Ea; destruct (b <? 0) eqn:Eb;
    try apply Z.ltb_lt in Ea; try apply Z.ltb_lt in Eb;
    try apply Z.ltb_ge in Ea; try apply Z.ltb_ge in Eb; lia.
Qed.

Lemma query_empty_selection (self : entity) (ci : ndarray) (slices : list pyslice) (a b : Z) :
  lookup "_class_index" self = Some (VArray ci) ->
  lookup "_class_index_to_members_is_slice" self = Some (VOpaque (OBool true)) ->
  lookup "_class_index_to_members" self = Some (VArray (ASlice slices)) ->
  b = 0 \/ 0 <= b <= a ->
  _query_index self (SSlice (Slice (Some a) (Some b) None)) = Err IndexError.
Proof.
  intros CI Form C2M H.
  unfold _query_index, __len__, getattr. cbn [bind]. rewrite CI. cbn [bind].
  destruct (arr_len ci <=? a); [reflexivity|].
  rewrite Form. cbn [bind]. rewrite C2M. cbn [bind].
  rewrite slice_rows_empty by assumption. reflexivity.
Qed.

(** The state of an index in slice form, as [set_index] leaves it. *)
Lemma set_index_slice_form (spec : index_spec) (self self' : entity) :
  set_index spec self = (self', Ok tt) ->
  lookup "_class_index_to_members_is_slice" self' = Some (VOpaque (OBool true)) ->
  exists n a codes,
    member_lengths self = [n]
    /\ index_keys spec n self = Some a
    /\ key_codes a = Some codes
    /\ let widths := map (count_key Z.eqb codes) (arange (distinct_keys a)) in
       lookup "_class_index" self' = Some (VArray (AInt (arange (distinct_keys a))))
       /\ zlen widths = distinct_keys a
       /\ lookup "_class_index_to_members" self' = Some (VArray (ASlice (ranges 0 widths)))
       /\ Forall (fun w => 1 <= w) widths
       /\ total widths = arr_len a.
Proof.
  intros Hset Hform.
  destruct (set_index_ok _ _ _ Hset) as (n & a & codes & M & K & C & B).
  destruct (key_codes_distinct _ _ C) as [U L].
  pose proof (distinct_keys_bounds a) as Hm.
  exists n, a, codes. split; [exact M|]. split; [exact K|]. split; [exact C|].
  destruct (build_index_ok _ _ _ _ B) as (_ & CI & [(slices & G & E)|(_ & E)]);
    [|rewrite E in Hform; rewrite lookup_setattr_eq in Hform; discriminate].
  destruct (tiling_of_grouped_slices codes slices G) as (S & F & T).
  rewrite U in S, F, T, CI. intros widths.
  split; [exact CI|].
  split; [unfold widths, zlen; rewrite length_map; fold (zlen (arange (distinct_keys a)));
          rewrite zlen_arange; lia|].
  split; [rewrite E; lookups; now rewrite S|].
  split; [exact F|]. unfold widths. now rewrite T.
Qed.

(** X6: on an index in slice form, as [set_index] leaves it, a selection
    [p:q] without step that starts inside the index never takes the branch
    that concatenates class-index values: it always resolves to one range of
    rows with step 1, from the first row of position [p] to the last row of
    position [q-1] (or of the last position), the width of a position being
    the number of rows that hold its key; the range is not empty and lies
    within the rows the keys cover.  An integer [i] resolves like [i:i+1].
    The read then returns exactly the rows of that range for every array,
    masked array and Time. *)
Theorem slice_form_selection_is_one_range (spec : index_spec) (self self' : entity)
  (Hset : set_index spec self = (self', Ok tt))
  (Hform : lookup "_class_index_to_members_is_slice" self' = Some (VOpaque (OBool true))) :
  exists n a codes widths,
    index_keys spec n self = Some a
    /\ key_codes a = Some codes
    /\ widths = map (count_key Z.eqb codes) (pd_unique Z.eqb codes)
    /\ __len__ self' = Ok (zlen widths)
    /\ Forall (fun w => 1 <= w) widths
    /\ total widths = zlen codes
    /\ (forall p q, 0 <= p < zlen widths -> p < q ->
          let lo := rows_before widths p in
          let hi := rows_before widths q in
          0 <= lo < hi /\ hi <= zlen codes
          /\ _query_index self' (SSlice (Slice (Some p) (Some q) None)) = Ok (SSlice (sl lo hi))
          /\ (forall copy k v,
                __getitem__ self' (SSlice (Slice (Some p) (Some q) None)) = Ok copy ->
                k <> "_class_index" -> lookup k self' = Some v -> is_leaf v = true ->
                lookup k copy = Some (val_map (block (Z.to_nat lo) (Z.to_nat hi)) v)))
    /\ (forall i, 0 <= i < zlen widths ->
          _query_index self' (SInt i)
          = Ok (SSlice (sl (rows_before widths i) (rows_before widths (i + 1))))).
Proof.
  destruct (set_index_slice_form _ _ _ Hset Hform)
    as (n & a & codes & M & K & C & CI & Len & C2M & F & T).
  destruct (key_codes_distinct _ _ C) as [U L].
  set (widths := map (count_key Z.eqb codes) (arange (distinct_keys a))) in *.
  pose proof (distinct_keys_bounds a) as Hm.
  assert (AL : arr_len (AInt (arange (distinct_keys a))) = zlen widths).
  { simpl. rewrite zlen_arange. lia. }
  exists n, a, codes, widths.
  split; [exact K|]. split; [exact C|].
  split; [unfold widths; now rewrite U|].
  split; [unfold __len__, getattr; rewrite CI; cbn [bind]; now rewrite AL|].
  split; [exact F|]. split; [lia|]. split.
  - intros a0 b0 Ha Hab lo hi.
    destruct (rows_before_bounds widths a0 b0 F Ha Hab) as [B1 B2]. fold lo hi in B1, B2.
    pose proof (query_ranges self' _ widths a0 b0 CI AL Hform C2M Ha Hab) as Q.
    fold lo hi in Q.
    split; [exact B1|]. split; [lia|]. split; [exact Q|].
    intros copy k v R Hk Lk Hv.
    apply (getitem_block self' (SSlice (Slice (Some a0) (Some b0) None))
             (Z.to_nat lo) (Z.to_nat hi) copy k v); auto; [|lia].
    rewrite !Z2Nat.id by lia. exact Q.
  - intros i Hi. rewrite query_int_is_unit_slice.
    apply (query_ranges self' _ widths i (i + 1) CI AL Hform C2M Hi). lia.
Qed.

Lemma slice_form_selection_is_one_range_witness :
  let fields := [("x", VArray (AInt [10; 11; 12; 13; 14; 15]))] in
  let self' := fst (set_index (SpecArray (AStr ["a"; "a"; "b"; "c"; "c"; "c"])) fields) in
  _query_index self' (SSlice (Slice (Some 1) (Some 3) None)) = Ok (SSlice (sl 2 6)).
Proof.
  intros fields self'.
  destruct (slice_form_selection_is_one_range
              (SpecArray (AStr ["a"; "a"; "b"; "c"; "c"; "c"])) fields self' eq_refl eq_refl)
    as (n & a & codes & widths & K & C & W & _ & _ & _ & Q & _).
  simpl in K. injection K as <-.
  vm_compute in C. injection C as <-.
  vm_compute in W. subst widths.
  destruct (Q 1 3) as (_ & _ & Q' & _); [vm_compute; split; congruence | lia|].
  exact Q'.
Defined.

(** X7: on an index in slice form a selection that covers no position
    raises IndexError: the list of ranges it selects is empty, the
    consecutiveness test passes and [slices[0]] is out of range.  This is so
    for [a:b] with [0 <= b <= a] or [b = 0], and for the integer -1, which is
    resolved as [-1:0].  The read raises, and so does the delete, which
    leaves the instance as it was. *)
Theorem slice_form_empty_selection_raises (spec : index_spec) (self self' : entity)
  (Hset : set_index spec self = (self', Ok tt))
  (Hform : lookup "_class_index_to_members_is_slice" self' = Some (VOpaque (OBool true))) :
  (forall a b, b = 0 \/ 0 <= b <= a ->
     __getitem__ self' (SSlice (Slice (Some a) (Some b) None)) = Err IndexError
     /\ __delitem__ (SSlice (Slice (Some a) (Some b) None)) self' = (self', Err IndexError))
  /\ __getitem__ self' (SInt (-1)) = Err IndexError
  /\ __delitem__ (SInt (-1)) self' = (self', Err IndexError).
Proof.
  destruct (set_index_slice_form _ _ _ Hset Hform)
    as (n & a & codes & _ & _ & _ & CI & _ & C2M & _).
  assert (Q : forall a0 b0, b0 = 0 \/ 0 <= b0 <= a0 ->
            _query_index self' (SSlice (Slice (Some a0) (Some b0) None)) = Err IndexError).
  { intros a0 b0 H. now apply (query_empty_selection self' _ _ a0 b0 CI Hform C2M). }
  assert (Q1 : _query_index self' (SInt (-1)) = Err IndexError).
  { rewrite query_int_is_unit_slice. apply Q. now left. }
  split; [|split].
  - intros a0 b0 H. unfold __getitem__, __delitem__. rewrite (Q a0 b0 H). split; reflexivity.
  - unfold __getitem__. now rewrite Q1.
  - unfold __delitem__. now rewrite Q1.
Qed.

Lemma slice_form_empty_selection_raises_witness :
  let fields := [("x", VArray (AInt [10; 11; 12]))] in
  let self' := fst (set_index SpecNone fields) in
  __getitem__ self' (SInt (-1)) = Err IndexError
  /\ __getitem__ self' (SSlice (Slice (Some 2) (Some 2) None)) = Err IndexError.
Proof.
  intros fields self'.
  destruct (slice_form_empty_selection_raises SpecNone fields self' eq_refl eq_refl)
    as (R & R1 & _).
  split; [exact R1|]. apply (R 2 2). lia.
Defined.

(** ** The default index *)

Lemma NoDup_lookup {V} (k : string) (v : V) (d : list (string * V)) :
  NoDup (map fst d) -> In (k, v) d -> lookup k d = Some v.
Proof.
  induction d as [|[k' v'] d IH]; simpl; intros N Hin; [contradiction|].
  inversion N as [|? ? Hnot Hrest]; subst.
  destruct Hin as [[= -> ->]|Hin]; [now rewrite String.eqb_refl|].
  destruct (String.eqb k k') eqn:E; [|auto].
  apply String.eqb_eq in E. subst k'. exfalso. apply Hnot.
  apply in_map_iff. now exists (k, v).
Qed.

Lemma lookup_map_values (f : string -> pyval -> pyval) (d : entity) (k : string) :
  lookup k (map_values f d) = option_map (f k) (lookup k d).
Proof.
  induction d as [|[k' v'] d IH]; simpl; [reflexivity|].
  destruct (String.eqb k k') eqn:E; [|exact IH].
  apply String.eqb_eq in E. now subst k'.
Qed.

Lemma keys_map_values (f : string -> pyval -> pyval) (d : entity) :
  map fst (map_values f d) = map fst d.
Proof. unfold map_values. rewrite map_map. reflexivity. Qed.

Lemma mapM_map {A B} (f : A -> result B) (g : A -> B) (l : list A) :
  (forall x, In x l -> f x = Ok (g x)) -> mapM f l = Ok (map g l).
Proof.
  induction l as [|x l IH]; intros H; simpl; [reflexivity|].
  rewrite (H x) by now left. simpl. rewrite IH; [reflexivity|].
  intros y Hy. apply H. now right.
Qed.

Section Uniform.

Context {A : Type} (eqb : A -> A -> bool).
Hypothesis eqb_spec : forall x y, eqb x y = true <-> x = y.

(** A key that does not occur is not counted; one that occurs once in a list
    without repetition is counted once. *)
Lemma count_key_absent (x : A) (l : list A) : ~ In x l -> count_key eqb l x = 0.
Proof.
  induction l as [|y l IH]; intros H; [reflexivity|].
  rewrite count_key_cons. simpl in H.
  destruct (eqb y x) eqn:E; [apply eqb_spec in E; tauto|].
  rewrite IH by tauto. reflexivity.
Qed.

Lemma count_key_NoDup (x : A) (l : list A) : NoDup l -> In x l -> count_key eqb l x = 1.
Proof.
  induction 1 as [|y l Hnot N IH]; intros Hin; [contradiction|].
  rewrite count_key_cons.
  destruct (eqb y x) eqn:E.
  - apply eqb_spec in E. subst y. now rewrite count_key_absent.
  - destruct Hin as [->|Hin]; [rewrite (eqb_refl_of_spec eqb eqb_spec) in E; discriminate|].
    now rewrite IH.
Qed.

(** The distinct values of a non-empty list whose elements are all [m]. *)
Lemma pd_unique_uniform (m : A) (l : list A) :
  l <> [] -> (forall x, In x l -> x = m) -> pd_unique eqb l = [m].
Proof.
  intros Hne Hall.
  pose proof (pd_unique_NoDup eqb eqb_spec l) as N.
  pose proof (fun x => pd_unique_iff eqb eqb_spec x l) as I.
  destruct l as [|x0 l0] eqn:El; [congruence|]. rewrite <- El in *.
  assert (Hm : In m (pd_unique eqb l)).
  { apply I. rewrite El. left. apply Hall. rewrite El. now left. }
  destruct (pd_unique eqb l) as [|u [|u' r]]; [contradiction| |].
  - destruct Hm as [->|[]]. reflexivity.
  - exfalso. inversion N as [|? ? Hnot _]; subst. apply Hnot.
    assert (u = m) by (apply Hall, I; now left).
    assert (u' = m) by (apply Hall, I; right; now left).
    subst. now left.
Qed.

End Uniform.

Lemma map_const_repeat {A B} (f : A -> B) (c : B) (l : list A) :
  (forall x, In x l -> f x = c) -> map f l = repeat c (List.length l).
Proof.
  induction l as [|x l IH]; intros H; simpl; [reflexivity|].
  rewrite (H x) by now left. f_equal. apply IH. intros y Hy. apply H. now right.
Qed.

Lemma length_arange (n : Z) : List.length (arange n) = Z.to_nat n.
Proof. unfold arange, py_range. rewrite length_iota, range_len_unit. f_equal. lia. Qed.

Lemma NoDup_arange (n : Z) : NoDup (arange n).
Proof. rewrite <- pd_unique_arange. apply (pd_unique_NoDup Z.eqb Z_eqb_iff). Qed.

(** The row numbers are grouped: each is a group of one row. *)
Lemma default_index_slices (n : Z) :
  _convert_grouped_array_to_slices (arange n) = Ok (ranges 0 (repeat 1 (Z.to_nat n))).
Proof.
  assert (W : map (count_key Z.eqb (arange n)) (arange n) = repeat 1 (Z.to_nat n)).
  { rewrite <- length_arange. apply map_const_repeat. intros x Hx.
    apply (count_key_NoDup Z.eqb Z_eqb_iff); [apply NoDup_arange | exact Hx]. }
  destruct (_convert_grouped_array_to_slices (arange n)) as [slices|e] eqn:G.
  - destruct (tiling_of_grouped_slices _ _ G) as (-> & _).
    now rewrite pd_unique_arange, W.
  - exfalso. unfold _convert_grouped_array_to_slices in G.
    destruct (grouped_slices_error _ _ _ _ G) as (_ & i & Hi & Hc & _).
    rewrite pd_unique_arange in Hi.
    pose proof (count_key_NoDup Z.eqb Z_eqb_iff i (arange n) (NoDup_arange n) Hi) as C.
    unfold count_key in C. lia.
Qed.

Lemma rows_before_units (k : nat) (a : Z) :
  0 <= a -> rows_before (repeat 1 k) a = Z.min a (Z.of_nat k).
Proof.
  intros Ha. unfold rows_before.
  rewrite <- (Z2Nat.id a) at 2 by lia. generalize (Z.to_nat a) as j. clear.
  induction k as [|k IH]; intros [|j]; cbn [repeat firstn total fold_right]; try lia.
  fold (total (firstn j (repeat 1 k))). rewrite IH. lia.
Qed.

(** One sliceable member makes the set of member lengths a singleton when
    all sliceable members have its length. *)
Lemma member_lengths_uniform (self : entity) (n : Z) (k0 : string) (v0 : pyval) :
  In (k0, v0) self -> sliceable_len v0 = Some n ->
  (forall k v m, In (k, v) self -> sliceable_len v = Some m -> m = n) ->
  member_lengths self = [n].
Proof.
  intros Hin H0 Hall. unfold member_lengths. fold (sliceable_lengths self).
  apply (pd_unique_uniform Z.eqb Z_eqb_iff).
  - intros E. pose proof (sliceable_lengths_In _ _ _ _ Hin H0) as I. now rewrite E in I.
  - intros x Hx. unfold sliceable_lengths in Hx. apply in_flat_map in Hx.
    destruct Hx as ([k v] & Hkv & Hx). simpl in Hx.
    destruct (sliceable_len v) as [m|] eqn:S; [|contradiction].
    destruct Hx as [<-|[]]. now apply (Hall k v).
Qed.

(** [set_index()] on attributes that are arrays, masked arrays, Times,
    opaque values or None leaves the default index. *)
Lemma default_index_state (fields self : entity) :
  set_index SpecNone fields = (self, Ok tt) ->
  NoDup (map fst fields) ->
  (forall k v, In (k, v) fields -> is_leaf v = true /\ well_formed v) ->
  exists n, member_lengths fields = [n] /\ 0 <= n /\ default_indexed n self
            /\ __len__ self = Ok n
            /\ lookup "_member_length" self = Some (VOpaque (OInt n))
            /\ lookup "_member_index" self = Some (VArray (AInt (arange n))).
Proof.
  intros Hset N Hfields.
  destruct (set_index_ok _ _ _ Hset) as (n & a & codes & M & K & C & B).
  pose proof (member_lengths_nonneg _ _ M) as Hn.
  simpl in K. injection K as <-. simpl in C. rewrite remap_arange in C. injection C as <-.
  destruct (build_index_ok _ _ _ _ B) as (_ & CI & Form).
  rewrite pd_unique_arange in CI.
  rewrite default_index_slices in Form.
  destruct Form as [(slices & [= <-] & E)|(G & _)]; [|discriminate].
  rewrite pd_unique_arange in E.
  assert (L : forall k, In k index_attributes ->
            exists v, lookup k self = Some v /\ is_leaf v = true /\ well_formed v
                      /\ forall m, sliceable_len v = Some m -> m = n).
  { intros k Hk. simpl in Hk.
    assert (Z1 : zlen (arange n) = n) by (rewrite zlen_arange; lia).
    assert (Z2 : zlen (ranges 0 (repeat 1 (Z.to_nat n))) = n).
    { unfold zlen. rewrite length_ranges, repeat_length. lia. }
    destruct Hk as [<-|[<-|[<-|[<-|[<-|[<-|[]]]]]]]; rewrite E; lookups;
      eexists; (split; [reflexivity|]); (split; [reflexivity|]); (split; [exact I|]);
      simpl; intros m; try discriminate; intros [= <-]; assumption. }
  exists n. split; [exact M|]. split; [exact Hn|]. split.
  - split; [now apply (set_index_NoDup _ _ _ _ Hset)|].
    split; [exact CI|].
    split; [rewrite E; lookups; reflexivity|].
    split; [rewrite E; lookups; reflexivity|].
    split; [rewrite E; lookups; reflexivity|].
    intros k v Lk.
    destruct (in_dec string_dec k index_attributes) as [Hk|Hk].
    + destruct (L k Hk) as (v' & Lv & P). rewrite Lk in Lv. injection Lv as <-. exact P.
    + rewrite (set_index_fields _ _ _ _ k Hset Hk) in Lk. apply lookup_In in Lk.
      destruct (Hfields k v Lk) as [Hv Hw]. split; [exact Hv|]. split; [exact Hw|].
      intros m Hm. now apply (member_lengths_all fields n m k v).
  - split; [|split; rewrite E; lookups; reflexivity].
    unfold __len__, getattr. rewrite CI. cbn [bind arr_len]. rewrite zlen_arange.
    f_equal. lia.
Qed.

(** A read that resolves to a row block, written out entry by entry. *)
Lemma read_block_explicit (self : entity) (class_ind : selection) (i j : nat)
  (g : pyval -> pyval) :
  _query_index self class_ind = Ok (SSlice (sl (Z.of_nat i) (Z.of_nat j))) ->
  (i <= j)%nat ->
  (forall k v, In (k, v) self ->
     if String.eqb k "_class_index" then class_index_getitem v class_ind = Ok (g v)
     else is_leaf v = true) ->
  __getitem__ self class_ind
  = Ok (map_values (fun k v => if String.eqb k "_class_index" then g v
                               else val_map (block i j) v) self).
Proof.
  intros Q Hij Hall. unfold __getitem__. rewrite Q. cbn [bind].
  apply mapM_map. intros [k v] Hin. specialize (Hall k v Hin). cbn [fst snd].
  destruct (String.eqb k "_class_index") eqn:E.
  - unfold getitem_field. rewrite E, Hall. reflexivity.
  - apply String.eqb_neq in E. rewrite getitem_field_leaf by assumption.
    unfold sl. rewrite getitem_leaf_block by assumption. reflexivity.
Qed.

Lemma map_values_ext (f g : string -> pyval -> pyval) (d : entity) :
  (forall k v, In (k, v) d -> f k v = g k v) -> map_values f d = map_values g d.
Proof.
  intros H. unfold map_values. apply map_ext_in. intros [k v] Hin. simpl.
  now rewrite (H k v Hin).
Qed.

(** A block that ends beyond the last row is the block that ends there. *)
Lemma block_clip {A} (l : list A) (a b n : nat) :
  (List.length l <= n)%nat -> block a (Nat.min b n) A l = block a b A l.
Proof.
  intros Hl. unfold block.
  destruct (Nat.le_gt_cases b n) as [H|H]; [now rewrite Nat.min_l by lia|].
  rewrite Nat.min_r by lia.
  rewrite !firstn_all2; try reflexivity; rewrite length_skipn; lia.
Qed.

Lemma val_map_block_clip (v : pyval) (n : Z) (a b : nat) :
  0 <= n -> well_formed v -> (forall m, sliceable_len v = Some m -> m = n) ->
  val_map (block a (Nat.min b (Z.to_nat n))) v = val_map (block a b) v.
Proof.
  intros Hn Hw Hlen.
  destruct v as [x|x m|mjd sc fm| | | | | |]; simpl in *; try reflexivity.
  - specialize (Hlen _ eq_refl). f_equal.
    destruct x; simpl in *; unfold zlen in Hlen; f_equal; apply block_clip; lia.
  - specialize (Hlen _ eq_refl). f_equal.
    + destruct x; simpl in *; unfold zlen in Hlen; f_equal; apply block_clip; lia.
    + unfold zlen in Hw, Hlen. apply block_clip.
      destruct x; simpl in *; unfold zlen in *; lia.
  - specialize (Hlen _ eq_refl). unfold zlen in Hlen. f_equal. apply block_clip. lia.
Qed.

Section DefaultIndex.

Variables (n : Z) (self : entity).
Hypothesis Hdefault : default_indexed n self.

Lemma default_indexed_nonneg_len : arr_len (AInt (arange n)) = Z.max 0 n.
Proof. simpl. apply zlen_arange. Qed.

Lemma default_indexed_query (a b : Z) :
  0 <= a < n -> a < b ->
  _query_index self (SSlice (Slice (Some a) (Some b) None)) = Ok (SSlice (sl a (Z.min b n))).
Proof.
  intros Ha Hab. destruct Hdefault as (N & CI & Form & C2M & _).
  assert (Len : arr_len (AInt (arange n)) = zlen (repeat 1 (Z.to_nat n))).
  { simpl. rewrite zlen_arange. unfold zlen. rewrite repeat_length. lia. }
  assert (Ha' : 0 <= a < zlen (repeat 1 (Z.to_nat n))).
  { unfold zlen. rewrite repeat_length. lia. }
  rewrite (query_ranges self _ _ a b CI Len Form C2M Ha' Hab).
  rewrite !rows_before_units by lia. do 3 f_equal; unfold sl; f_equal; f_equal; lia.
Qed.

Lemma default_indexed_entry (k : string) (v : pyval) :
  In (k, v) self ->
  lookup k self = Some v /\ is_leaf v = true /\ well_formed v
  /\ (forall m, sliceable_len v = Some m -> m = n).
Proof.
  intros Hin. destruct Hdefault as (N & _ & _ & _ & _ & P).
  pose proof (NoDup_lookup k v self N Hin) as L. split; [exact L|]. exact (P k v L).
Qed.

Lemma default_indexed_class_index (v : pyval) :
  In ("_class_index", v) self -> v = VArray (AInt (arange n)).
Proof.
  intros Hin. destruct (default_indexed_entry _ _ Hin) as (L & _).
  destruct Hdefault as (_ & CI & _). rewrite CI in L. now injection L.
Qed.

(** Position [i] of the default index is row [i]: the read returns row [i]
    of every attribute and leaves a scalar in place of the class index. *)
Lemma default_read_int (i : Z) :
  0 <= i < n ->
  __getitem__ self (SInt i)
  = Ok (map_values (fun k v => if String.eqb k "_class_index" then VNpInt i
                               else val_map (block (Z.to_nat i) (S (Z.to_nat i))) v) self).
Proof.
  intros Hi.
  apply (read_block_explicit self (SInt i) (Z.to_nat i) (S (Z.to_nat i)) (fun _ => VNpInt i));
    [|lia|].
  - rewrite query_int_is_unit_slice, default_indexed_query by lia.
    replace (Z.of_nat (Z.to_nat i)) with i by lia.
    replace (Z.of_nat (S (Z.to_nat i))) with (Z.min (i + 1) n) by lia. reflexivity.
  - intros k v Hin. destruct (String.eqb k "_class_index") eqn:E.
    + apply String.eqb_eq in E. subst k.
      rewrite (default_indexed_class_index v Hin).
      unfold class_index_getitem, arr_getitem. rewrite default_indexed_nonneg_len.
      unfold norm_index.
      destruct ((i <? - Z.max 0 n) || (Z.max 0 n <=? i)) eqn:B.
      { apply orb_true_elim in B.
        destruct B as [B|B]; [apply Z.ltb_lt in B | apply Z.leb_le in B]; lia. }
      destruct (i <? 0) eqn:B0; [apply Z.ltb_lt in B0; lia|]. cbn [bind].
      unfold arange, py_range. rewrite nth_error_iota.
      * do 2 f_equal. lia.
      * rewrite range_len_unit. lia.
    + now destruct (default_indexed_entry _ _ Hin) as (_ & L & _).
Qed.

(** A range of positions of the default index is that range of rows of
    every attribute, the index arrays included. *)
Lemma default_read_range (a b : Z) :
  0 <= a < n -> a < b ->
  __getitem__ self (SSlice (Slice (Some a) (Some b) None))
  = Ok (map_values (fun _ v => val_map (block (Z.to_nat a) (Z.to_nat b)) v) self).
Proof.
  intros Ha Hab.
  rewrite (read_block_explicit self _ (Z.to_nat a) (Z.to_nat (Z.min b n))
             (val_map (block (Z.to_nat a) (Z.to_nat b)))); [|  |lia|].
  - f_equal. apply map_values_ext. intros k v Hin.
    destruct (String.eqb k "_class_index"); [reflexivity|].
    destruct (default_indexed_entry _ _ Hin) as (_ & _ & W & L).
    rewrite Z2Nat.inj_min. apply val_map_block_clip; [lia | exact W | exact L].
  - rewrite default_indexed_query by lia.
    replace (Z.of_nat (Z.to_nat a)) with a by lia.
    replace (Z.of_nat (Z.to_nat (Z.min b n))) with (Z.min b n) by lia. reflexivity.
  - intros k v Hin. destruct (String.eqb k "_class_index") eqn:E.
    + apply String.eqb_eq in E. subst k.
      rewrite (default_indexed_class_index v Hin).
      unfold class_index_getitem, arr_getitem.
      change (arr_rows (AInt (arange n)) (SSlice (Slice (Some a) (Some b) None)))
        with (arr_rows (AInt (arange n)) (SSlice (Slice (Some a) (Some b) (Some 1)))).
      pose proof (arr_rows_block (AInt (arange n)) (Z.to_nat a) (Z.to_nat b)) as R.
      rewrite !Z2Nat.id in R by lia. rewrite R by lia. reflexivity.
    + now destruct (default_indexed_entry _ _ Hin) as (_ & L & _).
Qed.

End DefaultIndex.

(** X8: reads on the default index.  On an instance built with no index
    (attributes that are arrays, masked arrays, Times, opaque values or None)
    [len] is the number of rows [n]; for [0 <= i < n] the read [self[i]]
    succeeds, keeps the attribute names in their order and returns row [i]
    alone of every array, masked array and Time, while the copy's class index
    becomes the numpy scalar [i], so that [len] of the copy raises TypeError;
    for [0 <= a < n] and [a < b] the read [self[a:b]] succeeds and returns
    rows [a .. b-1] (up to the last row) of every attribute, with length
    [min b n - a]. *)
Theorem default_index_reads_rows (fields self : entity)
  (Hinit : __init__ SpecNone fields = (self, Ok tt))
  (Hkeys : NoDup (map fst fields))
  (Hfields : forall k v, In (k, v) fields -> is_leaf v = true /\ well_formed v) :
  exists n,
    member_lengths fields = [n]
    /\ __len__ self = Ok n
    /\ (forall i, 0 <= i < n ->
          exists copy,
            __getitem__ self (SInt i) = Ok copy
            /\ map fst copy = map fst self
            /\ lookup "_class_index" copy = Some (VNpInt i)
            /\ __len__ copy = Err TypeError
            /\ forall k v, k <> "_class_index" -> lookup k self = Some v ->
                 lookup k copy = Some (val_map (block (Z.to_nat i) (S (Z.to_nat i))) v))
    /\ (forall a b, 0 <= a < n -> a < b ->
          exists copy,
            __getitem__ self (SSlice (Slice (Some a) (Some b) None)) = Ok copy
            /\ map fst copy = map fst self
            /\ __len__ copy = Ok (Z.min b n - a)
            /\ forall k v, lookup k self = Some v ->
                 lookup k copy = Some (val_map (block (Z.to_nat a) (Z.to_nat b)) v)).
Proof.
  unfold __init__ in Hinit.
  destruct (default_index_state fields self Hinit Hkeys Hfields)
    as (n & M & Hn & D & L & _).
  pose proof D as (_ & CI & _).
  exists n. split; [exact M|]. split; [exact L|]. split.
  - intros i Hi. eexists. split; [apply (default_read_int n self D i Hi)|].
    split; [apply keys_map_values|].
    assert (C : lookup "_class_index"
                  (map_values (fun k v => if String.eqb k "_class_index" then VNpInt i
                                 else val_map (block (Z.to_nat i) (S (Z.to_nat i))) v) self)
                = Some (VNpInt i)).
    { rewrite lookup_map_values, CI. reflexivity. }
    split; [exact C|].
    split; [unfold __len__, getattr; rewrite C; reflexivity|].
    intros k v Hk Lk. rewrite lookup_map_values, Lk. simpl.
    apply String.eqb_neq in Hk. now rewrite Hk.
  - intros a b Ha Hab. eexists. split; [apply (default_read_range n self D a b Ha Hab)|].
    split; [apply keys_map_values|].
    split.
    + unfold __len__, getattr. rewrite lookup_map_values, CI. cbn [option_map bind].
      cbn [val_map arr_map arr_len]. unfold block, zlen.
      rewrite length_firstn, length_skipn, length_arange. f_equal. lia.
    + intros k v Lk. now rewrite lookup_map_values, Lk.
Qed.

Lemma default_index_reads_rows_witness :
  let fields := [("x", VArray (AInt [10; 11; 12]));
                 ("m", VMasked (AStr ["p"; "q"; "r"]) [false; true; false]);
                 ("t", VTime [59000; 59001; 59002] "utc" "mjd");
                 ("origin", VOpaque (OStr "SUN"))] in
  let self := fst (__init__ SpecNone fields) in
  exists copy, __getitem__ self (SInt 1) = Ok copy
               /\ lookup "x" copy = Some (VArray (AInt [11]))
               /\ lookup "m" copy = Some (VMasked (AStr ["q"]) [true])
               /\ __len__ copy = Err TypeError.
Proof.
  intros fields self.
  destruct (default_index_reads_rows fields self eq_refl) as (n & M & _ & R & _).
  { vm_compute. repeat constructor; simpl; intuition discriminate. }
  { intros k v [[= <- <-]|[[= <- <-]|[[= <- <-]|[[= <- <-]|[]]]]]; split; reflexivity. }
  vm_compute in M. injection M as <-.
  destruct (R 1) as (copy & H & _ & _ & T & F); [lia|].
  exists copy. split; [exact H|].
  split; [|split; [|exact T]].
  - rewrite (F "x" (VArray (AInt [10; 11; 12]))); [reflexivity | discriminate | reflexivity].
  - rewrite (F "m" (VMasked (AStr ["p"; "q"; "r"]) [false; true; false]));
      [reflexivity | discriminate | reflexivity].
Defined.

(** ** Deleting a position of the default index *)













(** ** Iteration *)

Lemma setattr_setattr {V} (k : string) (v1 v2 : V) (d : list (string * V)) :
  setattr k v2 (setattr k v1 d) = setattr k v2 d.
Proof.
  induction d as [|[k' v'] d IH]; simpl.
  - now rewrite String.eqb_refl.
  - destruct (String.eqb k k') eqn:E; simpl; rewrite E; [reflexivity | now rewrite IH].
Qed.

Lemma lookup_setattr {V} (k k' : string) (v v' : V) (d : list (string * V)) :
  lookup k (setattr k' v' d) = Some v -> (k = k' /\ v = v') \/ lookup k d = Some v.
Proof.
  destruct (string_dec k k') as [->|Hne].
  - rewrite lookup_setattr_eq. intros [= <-]. now left.
  - rewrite lookup_setattr_neq by assumption. now right.
Qed.

(** The cursor is one more opaque attribute: the default index stays. *)
Lemma default_indexed_idx (n : Z) (self : entity) (o : opaque) :
  default_indexed n self -> default_indexed n (setattr "idx" (VOpaque o) self).
Proof.
  intros (N & CI & Form & C2M & Attr & P).
  split; [now apply setattr_NoDup|].
  split; [now rewrite lookup_setattr_neq by discriminate|].
  split; [now rewrite lookup_setattr_neq by discriminate|].
  split; [now rewrite lookup_setattr_neq by discriminate|].
  split; [now rewrite lookup_setattr_neq by discriminate|].
  intros k v L. apply lookup_setattr in L. destruct L as [[-> ->]|L]; [|exact (P k v L)].
  split; [reflexivity|]. split; [exact I|]. discriminate.
Qed.

(** The probe [self._class_index[self.idx]] of [__next__]. *)
Lemma class_index_probe (n k : Z) :
  0 <= k ->
  arr_getitem (AInt (arange n)) (SInt k)
  = (if k <? n then Ok (VNpInt k) else Err IndexError).
Proof.
  intros Hk. unfold arr_getitem. cbn [arr_len].
  rewrite zlen_arange. unfold norm_index.
  destruct (k <? n) eqn:E; [apply Z.ltb_lt in E | apply Z.ltb_ge in E].
  - destruct ((k <? - Z.max 0 n) || (Z.max 0 n <=? k)) eqn:B.
    { apply orb_true_elim in B.
      destruct B as [B|B]; [apply Z.ltb_lt in B | apply Z.leb_le in B]; lia. }
    destruct (k <? 0) eqn:B0; [apply Z.ltb_lt in B0; lia|]. cbn [bind].
    unfold arange, py_range. rewrite nth_error_iota.
    + do 2 f_equal. lia.
    + rewrite range_len_unit. lia.
  - assert (B : (Z.max 0 n <=? k) = true) by (apply Z.leb_le; lia).
    rewrite B, orb_true_r. reflexivity.
Qed.

Section Iteration.

Variables (n : Z) (self : entity).
Hypothesis Hdefault : default_indexed n self.

Lemma next_inside (k : Z) :
  0 <= k < n ->
  __next__ (at_cursor self k)
  = (at_cursor self (k + 1), Return (row_item k (at_cursor self k))).
Proof.
  intros Hk.
  assert (D : default_indexed n (at_cursor self k)) by now apply default_indexed_idx.
  pose proof D as (_ & CI & _).
  assert (Idx : lookup "idx" (at_cursor self k) = Some (VOpaque (OInt k)))
    by apply lookup_setattr_eq.
  unfold __next__, getattr. rewrite CI, Idx. cbn [bind].
  rewrite class_index_probe by lia.
  destruct (k <? n) eqn:E; [|apply Z.ltb_ge in E; lia].
  rewrite (default_read_int n (at_cursor self k) D k Hk).
  unfold at_cursor. now rewrite setattr_setattr.
Qed.

Lemma next_at_end :
  0 <= n -> __next__ (at_cursor self n) = (at_cursor self 0, StopIteration).
Proof.
  intros Hn.
  assert (D : default_indexed n (at_cursor self n)) by now apply default_indexed_idx.
  pose proof D as (_ & CI & _).
  assert (Idx : lookup "idx" (at_cursor self n) = Some (VOpaque (OInt n)))
    by apply lookup_setattr_eq.
  unfold __next__, getattr. rewrite CI, Idx. cbn [bind].
  rewrite class_index_probe by lia. rewrite Z.ltb_irrefl.
  unfold at_cursor. now rewrite setattr_setattr.
Qed.

Lemma next_items_from (d : nat) (k : Z) (fuel : nat) :
  0 <= k -> n - k = Z.of_nat d -> (d < fuel)%nat ->
  next_items fuel (at_cursor self k)
  = (at_cursor self 0, map (fun k => row_item k (at_cursor self k)) (iota k 1 d), Exhausted).
Proof.
  revert k fuel. induction d as [|d IH]; intros k fuel Hk Hd Hfuel;
    (destruct fuel as [|fuel]; [lia|]); cbn [next_items].
  - replace k with n by lia. rewrite next_at_end by lia. reflexivity.
  - rewrite next_inside by lia. rewrite (IH (k + 1) fuel) by lia. reflexivity.
Qed.

Lemma for_loop_default (fuel : nat) :
  0 <= n -> (Z.to_nat n < fuel)%nat ->
  for_loop fuel self
  = (__iter__ self, map (fun k => row_item k (at_cursor self k)) (arange n), Exhausted).
Proof.
  intros Hn Hfuel. unfold for_loop. change (__iter__ self) with (at_cursor self 0).
  rewrite (next_items_from (Z.to_nat n) 0 fuel) by lia.
  unfold arange, py_range. rewrite range_len_unit. now rewrite Z.sub_0_r.
Qed.

Lemma item_fields (k : Z) (key : string) (v : pyval) :
  key <> "_class_index" -> key <> "idx" -> lookup key self = Some v ->
  lookup key (row_item k (at_cursor self k))
  = Some (val_map (block (Z.to_nat k) (S (Z.to_nat k))) v).
Proof.
  intros H1 H2 L. unfold row_item, at_cursor.
  rewrite lookup_map_values, lookup_setattr_neq, L by assumption. simpl.
  apply String.eqb_neq in H1. now rewrite H1.
Qed.

Lemma item_cursor (k : Z) :
  lookup "idx" (row_item k (at_cursor self k)) = Some (VOpaque (OInt k)).
Proof. unfold row_item, at_cursor. rewrite lookup_map_values, lookup_setattr_eq. reflexivity. Qed.

Lemma item_is_read (k : Z) :
  0 <= k < n -> __getitem__ (at_cursor self k) (SInt k) = Ok (row_item k (at_cursor self k)).
Proof.
  intros Hk. apply (default_read_int n (at_cursor self k)); [|exact Hk].
  now apply default_indexed_idx.
Qed.

End Iteration.

(** X10: iterating over an instance under the default index.  [__iter__]
    stores the cursor 0 in the attribute [idx] of the instance itself; the
    loop then sees exactly [n] items, the [i]-th being [self[i]] read while
    the cursor is [i], that is row [i] alone of every array, masked array and
    Time (and the cursor value, which the copy carries along); the call after
    the last item raises StopIteration and puts the cursor back to 0, so the
    instance ends as [__iter__] left it, with the attribute [idx] added to
    (or written over in) its dictionary. *)
Theorem iteration_yields_each_row_once (fields self : entity)
  (Hinit : __init__ SpecNone fields = (self, Ok tt))
  (Hkeys : NoDup (map fst fields))
  (Hfields : forall k v, In (k, v) fields -> is_leaf v = true /\ well_formed v) :
  exists n,
    __len__ self = Ok n
    /\ forall fuel, (Z.to_nat n < fuel)%nat ->
         exists items,
           for_loop fuel self = (__iter__ self, items, Exhausted)
           /\ List.length items = Z.to_nat n
           /\ lookup "idx" (__iter__ self) = Some (VOpaque (OInt 0))
           /\ forall i x, nth_error items i = Some x ->
                __getitem__ (at_cursor self (Z.of_nat i)) (SInt (Z.of_nat i)) = Ok x
                /\ lookup "idx" x = Some (VOpaque (OInt (Z.of_nat i)))
                /\ forall k v, k <> "_class_index" -> k <> "idx" ->
                     lookup k self = Some v ->
                     lookup k x = Some (val_map (block i (S i)) v).
Proof.
  unfold __init__ in Hinit.
  destruct (default_index_state fields self Hinit Hkeys Hfields)
    as (n & M & Hn & D & L & _).
  exists n. split; [exact L|]. intros fuel Hfuel.
  eexists. split; [apply (for_loop_default n self D fuel Hn Hfuel)|].
  split; [now rewrite length_map, length_arange|].
  split; [unfold __iter__; apply lookup_setattr_eq|].
  intros i x Hx. rewrite nth_error_map in Hx.
  destruct (nth_error (arange n) i) as [k|] eqn:E; [|discriminate].
  injection Hx as <-.
  assert (Hi : (i < Z.to_nat n)%nat).
  { rewrite <- length_arange. apply nth_error_Some. congruence. }
  unfold arange, py_range in E. rewrite nth_error_iota in E
    by (rewrite range_len_unit; lia).
  injection E as <-. change (0 + Z.of_nat i) with (Z.of_nat i).
  split; [apply (item_is_read n self D); lia|].
  split; [apply item_cursor|].
  intros k v H1 H2 Lk.
  rewrite (item_fields self (Z.of_nat i) k v H1 H2 Lk). now rewrite Nat2Z.id.
Qed.

Lemma iteration_yields_each_row_once_witness :
  let fields := [("x", VArray (AInt [10; 11; 12])); ("origin", VOpaque (OStr "SUN"))] in
  let self := fst (__init__ SpecNone fields) in
  exists items,
    for_loop 4 self = (__iter__ self, items, Exhausted)
    /\ map (lookup "x") items
       = [Some (VArray (AInt [10])); Some (VArray (AInt [11])); Some (VArray (AInt [12]))].
Proof.
  intros fields self.
  destruct (iteration_yields_each_row_once fields self eq_refl) as (n & L & R).
  { vm_compute. repeat constructor; simpl; intuition discriminate. }
  { intros k v [[= <- <-]|[[= <- <-]|[]]]; split; reflexivity. }
  assert (E : n = 3).
  { assert (L3 : __len__ self = Ok 3) by (vm_compute; reflexivity).
    rewrite L in L3. now injection L3. }
  subst n. destruct (R 4%nat) as (items & H & Len & _ & F); [simpl; lia|].
  exists items. split; [exact H|].
  destruct items as [|x0 [|x1 [|x2 [|? ?]]]]; try discriminate.
  destruct (F 0%nat x0 eq_refl) as (_ & _ & F0).
  destruct (F 1%nat x1 eq_refl) as (_ & _ & F1).
  destruct (F 2%nat x2 eq_refl) as (_ & _ & F2).
  cbn [map].
  rewrite (F0 "x" (VArray (AInt [10; 11; 12]))), (F1 "x" (VArray (AInt [10; 11; 12]))),
    (F2 "x" (VArray (AInt [10; 11; 12]))); try discriminate; reflexivity.
Defined.

(** ** Chunks *)

Lemma in_iota_step (x a st : Z) (k : nat) :
  In x (iota a st k) <-> exists j, (j < k)%nat /\ x = a + Z.of_nat j * st.
Proof.
  revert a. induction k as [|k IH]; intros a; simpl.
  - split; [contradiction | intros (j & Hj & _); lia].
  - rewrite IH. split.
    + intros [<-|(j & Hj & ->)]; [exists 0%nat | exists (S j)]; split; lia.
    + intros ([|j] & Hj & ->); [left; lia|].
      right. exists j. split; lia.
Qed.

Lemma nth_error_iota_step (a st : Z) (k j : nat) :
  (j < k)%nat -> nth_error (iota a st k) j = Some (a + Z.of_nat j * st).
Proof.
  revert a j. induction k as [|k IH]; intros a [|j] Hj; cbn [iota nth_error]; try lia.
  - f_equal. change (Z.of_nat 0) with 0. ring.
  - rewrite IH by lia. f_equal. rewrite Nat2Z.inj_succ. ring.
Qed.

(** The number of turns of [range(0, n, size)] for a positive [size]. *)
Lemma range_len_chunks (n size : Z) :
  0 <= n -> 0 < size ->
  Z.of_nat (range_len 0 n size) = (n + size - 1) / size
  /\ (forall j, (j < range_len 0 n size)%nat -> Z.of_nat j * size < n)
  /\ n <= Z.of_nat (range_len 0 n size) * size.
Proof.
  intros Hn Hs. unfold range_len.
  destruct (0 <? size) eqn:E; [|apply Z.ltb_ge in E; lia].
  destruct (0 <? n) eqn:E2; [apply Z.ltb_lt in E2 | apply Z.ltb_ge in E2].
  - replace (n - 0 - 1) with (n - 1) by lia.
    pose proof (Z.div_pos (n - 1) size ltac:(lia) Hs) as Hq.
    pose proof (Z.mul_div_le (n - 1) size Hs) as Hle.
    pose proof (Z.mul_succ_div_gt (n - 1) size Hs) as Hgt.
    rewrite Z2Nat.id by lia.
    split; [|split].
    + replace (n + size - 1) with ((n - 1) + 1 * size) by lia.
      now rewrite Z.div_add by lia.
    + intros j Hj. nia.
    + nia.
  - assert (n = 0) by lia. subst n. simpl Z.of_nat.
    split; [|split; [intros j Hj; lia | lia]].
    symmetry. apply Z.div_small. lia.
Qed.

Lemma chunks_from_ok (self : entity) (chunk_size : Z) (g : Z -> entity) (starts : list Z) :
  (forall c, In c starts ->
     __getitem__ self (SSlice (Slice (Some c) (Some (c + chunk_size)) None)) = Ok (g c)) ->
  chunks_from self chunk_size starts = (map g starts, None).
Proof.
  induction starts as [|c rest IH]; intros H; [reflexivity|].
  cbn [chunks_from]. rewrite (H c) by now left.
  rewrite IH by (intros c' Hc'; apply H; now right). reflexivity.
Qed.

(** Consecutive blocks of [s] rows from row 0 make up the first [k * s]
    rows. *)
Lemma concat_blocks {A} (l : list A) (s k : nat) :
  List.concat (map (fun j => block (j * s) (j * s + s) A l) (seq 0 k)) = block 0 (k * s) A l.
Proof.
  induction k as [|k IH]; [reflexivity|].
  rewrite seq_S, map_app, concat_app, IH. cbn [map List.concat Nat.add].
  rewrite app_nil_r. symmetry.
  replace (S k * s)%nat with (k * s + s)%nat by lia.
  apply block_app; lia.
Qed.

(** X11: chunks of an instance under the default index.  With a positive
    [chunk_size] the generator yields [ceil(n / chunk_size)] chunks and then
    ends without an exception; chunk [j] is the read
    [self[j*chunk_size : (j+1)*chunk_size]] and holds those rows of every
    attribute (the last chunk may be shorter); the chunks taken one after the
    other hold every row exactly once, in order.  With [chunk_size = 0] the
    first [next] raises the ValueError of [range]; with a negative
    [chunk_size] nothing is yielded and nothing is raised. *)
Theorem yield_chunks_partitions_the_rows (fields self : entity)
  (Hinit : __init__ SpecNone fields = (self, Ok tt))
  (Hkeys : NoDup (map fst fields))
  (Hfields : forall k v, In (k, v) fields -> is_leaf v = true /\ well_formed v) :
  exists n,
    __len__ self = Ok n
    /\ yield_chunks self 0 = ([], Some (ValueError "range() arg 3 must not be zero"))
    /\ (forall chunk_size, chunk_size < 0 -> yield_chunks self chunk_size = ([], None))
    /\ (forall chunk_size, 0 < chunk_size ->
          exists chunks,
            yield_chunks self chunk_size = (chunks, None)
            /\ Z.of_nat (List.length chunks) = (n + chunk_size - 1) / chunk_size
            /\ (forall j chunk, nth_error chunks j = Some chunk ->
                  let c := Z.of_nat j * chunk_size in
                  c < n
                  /\ __getitem__ self (SSlice (Slice (Some c) (Some (c + chunk_size)) None))
                     = Ok chunk
                  /\ forall k v, lookup k self = Some v ->
                       lookup k chunk
                       = Some (val_map (block (Z.to_nat c) (Z.to_nat (c + chunk_size))) v))
            /\ (forall A (l : list A), zlen l = n ->
                  List.concat
                    (map (fun j => block (j * Z.to_nat chunk_size)
                                         (j * Z.to_nat chunk_size + Z.to_nat chunk_size) A l)
                         (seq 0 (List.length chunks)))
                  = l)).
Proof.
  unfold __init__ in Hinit.
  destruct (default_index_state fields self Hinit Hkeys Hfields)
    as (n & M & Hn & D & L & _).
  exists n. split; [exact L|].
  split; [unfold yield_chunks; rewrite L; reflexivity|].
  split.
  { intros size Hs. unfold yield_chunks. rewrite L.
    destruct (size =? 0) eqn:E; [apply Z.eqb_eq in E; lia|].
    unfold py_range, range_len.
    destruct (0 <? size) eqn:E1; [apply Z.ltb_lt in E1; lia|].
    destruct (size <? 0) eqn:E2; [|reflexivity].
    destruct (n <? 0) eqn:E3; [apply Z.ltb_lt in E3; lia | reflexivity]. }
  intros size Hs.
  destruct (range_len_chunks n size Hn Hs) as (R1 & R2 & R3).
  set (g := fun c : Z =>
              map_values (fun _ v => val_map (block (Z.to_nat c) (Z.to_nat (c + size))) v) self).
  assert (Y : yield_chunks self size = (map g (py_range 0 n size), None)).
  { unfold yield_chunks. rewrite L.
    destruct (size =? 0) eqn:E; [apply Z.eqb_eq in E; lia|].
    apply chunks_from_ok. intros c Hc. unfold py_range in Hc.
    apply in_iota_step in Hc. destruct Hc as (j & Hj & ->).
    specialize (R2 j Hj).
    apply (default_read_range n self D); lia. }
  exists (map g (py_range 0 n size)). split; [exact Y|].
  assert (Len : List.length (map g (py_range 0 n size)) = range_len 0 n size).
  { unfold py_range. now rewrite length_map, length_iota. }
  split; [now rewrite Len|]. split.
  - intros j chunk Hj c. rewrite nth_error_map in Hj.
    destruct (nth_error (py_range 0 n size) j) as [c'|] eqn:E; [|discriminate].
    injection Hj as <-.
    assert (Hlt : (j < range_len 0 n size)%nat).
    { rewrite <- (length_iota 0 size). apply nth_error_Some. unfold py_range in E. congruence. }
    unfold py_range in E. rewrite nth_error_iota_step in E by assumption.
    injection E as <-. change (0 + Z.of_nat j * size) with c.
    pose proof (R2 j Hlt) as Hc. fold c in Hc.
    split; [exact Hc|].
    split; [apply (default_read_range n self D); unfold c in *; lia|].
    intros k v Lk. unfold g. now rewrite lookup_map_values, Lk.
  - intros A l Hl. rewrite Len, concat_blocks. unfold block.
    rewrite Nat.sub_0_r. cbn [skipn]. apply firstn_all2. unfold zlen in Hl. nia.
Qed.

Lemma yield_chunks_partitions_the_rows_witness :
  let fields := [("x", VArray (AInt [10; 11; 12; 13; 14]))] in
  let self := fst (__init__ SpecNone fields) in
  exists chunks,
    yield_chunks self 2 = (chunks, None)
    /\ map (lookup "x") chunks
       = [Some (VArray (AInt [10; 11])); Some (VArray (AInt [12; 13]));
          Some (VArray (AInt [14]))].
Proof.
  intros fields self.
  destruct (yield_chunks_partitions_the_rows fields self eq_refl) as (n & L & _ & _ & R).
  { vm_compute. repeat constructor; simpl; intuition discriminate. }
  { intros k v [[= <- <-]|[]]; split; reflexivity. }
  assert (E : n = 5).
  { assert (L5 : __len__ self = Ok 5) by (vm_compute; reflexivity).
    rewrite L in L5. now injection L5. }
  subst n. destruct (R 2) as (chunks & H & Len & F & _); [lia|].
  exists chunks. split; [exact H|].
  change ((5 + 2 - 1) / 2) with 3 in Len.
  destruct chunks as [|x0 [|x1 [|x2 [|? ?]]]]; try (simpl in Len; lia).
  destruct (F 0%nat x0 eq_refl) as (_ & _ & F0).
  destruct (F 1%nat x1 eq_refl) as (_ & _ & F1).
  destruct (F 2%nat x2 eq_refl) as (_ & _ & F2).
  cbn [map].
  rewrite (F0 "x" (VArray (AInt [10; 11; 12; 13; 14]))),
    (F1 "x" (VArray (AInt [10; 11; 12; 13; 14]))),
    (F2 "x" (VArray (AInt [10; 11; 12; 13; 14]))); reflexivity.
Defined.

(** ** Sorting: missing keys and rows already in order *)

Lemma mapM_error {A B} (f : A -> result B) (l : list A) (x : A) (e0 : exn) :
  (forall y e, f y = Err e -> e = e0) -> In x l -> f x = Err e0 -> mapM f l = Err e0.
Proof.
  intros Honly Hin Hx. induction l as [|y l IH]; [contradiction|].
  simpl. destruct (f y) as [b|e] eqn:E.
  - destruct Hin as [->|Hin]; [congruence|]. simpl. now rewrite (IH Hin).
  - simpl. f_equal. now apply (Honly y).
Qed.




(** Rows that are already in order are left where they are. *)
Lemma stable_argsort_sorted (keys : list (ndarray * bool)) (a n : nat) :
  (forall i j, (a <= i < j)%nat -> (j < a + n)%nat -> row_compare keys i j <> Gt) ->
  fold_right (insert_row keys) [] (seq a n) = seq a n.
Proof.
  revert a. induction n as [|n IH]; intros a H; [reflexivity|].
  cbn [seq fold_right]. rewrite IH by (intros i j Hij Hj; apply H; lia).
  destruct n as [|n]; [reflexivity|]. cbn [seq insert_row].
  pose proof (ord_antisym _ (row_compare_ordering keys) (S a) a) as An.
  specialize (H a (S a) ltac:(lia) ltac:(lia)).
  destruct (row_compare keys a (S a)); simpl in An; rewrite An; try reflexivity.
  congruence.
Qed.

Lemma pick_all {A} (l : list A) :
  pick l (map Z.of_nat (seq 0 (List.length l))) = l.
Proof.
  assert (E : forall a k, map Z.of_nat (seq a k) = iota (Z.of_nat a) 1 k).
  { intros a k. revert a. induction k as [|k IH]; intros a; [reflexivity|].
    cbn [seq map iota]. f_equal. rewrite IH. f_equal. lia. }
  rewrite E. rewrite (pick_iota l (List.length l) 0) by lia.
  cbn [skipn]. apply firstn_all.
Qed.

Lemma sort_values_member_length (self self' : entity) (by' : by_arg) (inplace : bool)
  (ascending : ascending_arg) (ret : option entity) :
  sort_values by' inplace ascending self = (self', Ok ret) ->
  exists m, member_lengths self = [m].
Proof.
  intros H. unfold sort_values in H.
  destruct (args <- sort_arguments by' ascending ;;
            frame <- sort_frame self (fst args) (snd args) ;;
            index_attribute <- getattr "_class_index_attribute" self ;;
            Ok (frame, index_attribute)) as [[[n0 keys] index_attribute]|e];
    [|discriminate].
  destruct (set_index SpecNone self) as [self1 [[]|e]] eqn:S; [|discriminate].
  destruct (set_index_ok _ _ _ S) as (m & _ & _ & M & _). eauto.
Qed.

(** X13: sorting on a key that is already in order changes no row.  When the
    sort key [b] is a plain array of the instance whose values are already in
    the order asked for (no row is followed by a row that should come before
    it), a [sort_values] that does not raise returns, or leaves in place,
    every array, masked array and Time exactly as it was. *)
Theorem sort_values_on_sorted_key_keeps_rows (self self' : entity) (b : string)
  (asc inplace : bool) (a : ndarray) (ret : option entity)
  (Hkeys : NoDup (map fst self))
  (Hsort : sort_values (ByName b) inplace (AscBool asc) self = (self', Ok ret))
  (Hb : lookup b self = Some (VArray a))
  (Hsorted : forall i j, (i < j)%nat -> Z.of_nat j < arr_len a ->
               row_compare [(a, asc)] i j <> Gt) :
  stable_argsort [(a, asc)] (Z.to_nat (arr_len a)) = seq 0 (Z.to_nat (arr_len a))
  /\ forall k v, is_field k -> lookup k self = Some v -> is_leaf v = true -> well_formed v ->
       lookup k (match ret with Some copy => copy | None => self' end) = Some v.
Proof.
  assert (Id : stable_argsort [(a, asc)] (Z.to_nat (arr_len a)) = seq 0 (Z.to_nat (arr_len a))).
  { apply stable_argsort_sorted. intros i j Hij Hj. apply Hsorted; lia. }
  split; [exact Id|].
  destruct (sort_values_member_length _ _ _ _ _ _ Hsort) as (m & M).
  destruct (sort_values_rows _ _ _ _ _ _ Hsort)
    as (by_ & ascending_ & n & keys & copy & A & F & R & Nc & Hret).
  simpl in A. injection A as <- <-.
  destruct (sort_frame_single self b asc a n keys Hb F) as [-> ->].
  rewrite Id in R.
  assert (Ha : arr_len a = m).
  { apply (member_lengths_all self m (arr_len a) b (VArray a) M); [|reflexivity].
    now apply lookup_In. }
  intros k v Hk Lk Hv Hw.
  assert (E : val_map (at_positions (map Z.of_nat (seq 0 (Z.to_nat (arr_len a))))) v = v).
  { assert (P : forall A (l : list A), zlen l = m ->
                  at_positions (map Z.of_nat (seq 0 (Z.to_nat (arr_len a)))) A l = l).
    { intros A l Hl. unfold at_positions. rewrite Ha, <- Hl.
      unfold zlen. rewrite Nat2Z.id. apply pick_all. }
    assert (Hlen : forall m', sliceable_len v = Some m' -> m' = m).
    { intros m' Hm'. apply (member_lengths_all self m m' k v M); [|exact Hm'].
      now apply lookup_In. }
    destruct v as [x|x mk|mjd sc fm| | | | | |]; simpl in *; try reflexivity.
    - specialize (Hlen _ eq_refl). f_equal. destruct x; simpl in *; f_equal; now apply P.
    - specialize (Hlen _ eq_refl). f_equal.
      + destruct x; simpl in *; f_equal; now apply P.
      + apply P. congruence.
    - specialize (Hlen _ eq_refl). f_equal. now apply P. }
  specialize (R k v Hk Lk Hv). rewrite E in R.
  destruct inplace.
  - destruct Hret as [-> [self2 ->]]. apply dict_update_lookup; auto.
  - subst ret. exact R.
Qed.

Lemma sort_values_on_sorted_key_keeps_rows_witness :
  let fields := [("name", VArray (AStr ["x"; "y"; "z"])); ("num", VArray (AInt [1; 2; 2]))] in
  let self := fst (__init__ SpecNone fields) in
  exists self' copy,
    sort_values (ByName "num") false (AscBool true) self = (self', Ok (Some copy))
    /\ lookup "name" copy = Some (VArray (AStr ["x"; "y"; "z"])).
Proof.
  intros fields self.
  destruct (sort_values (ByName "num") false (AscBool true) self)
    as [self' [[copy|]|e]] eqn:H; try (vm_compute in H; discriminate).
  exists self', copy. split; [reflexivity|].
  assert (N : NoDup (map fst self)).
  { vm_compute. repeat constructor; simpl; intuition discriminate. }
  destruct (sort_values_on_sorted_key_keeps_rows self self' "num" true false
              (AInt [1; 2; 2]) (Some copy) N H eq_refl) as (_ & R).
  { intros i j Hij Hj. change (arr_len (AInt [1; 2; 2])) with 3 in Hj.
    assert (Hc : ((j = 1 /\ i = 0) \/ (j = 2 /\ (i = 0 \/ i = 1)))%nat) by lia.
    destruct Hc as [[-> ->] | [-> [-> | ->]]]; vm_compute; discriminate. }
  apply (R "name" (VArray (AStr ["x"; "y"; "z"])));
    [intros I; simpl in I; intuition discriminate | reflexivity | reflexivity | exact I].
Defined.

(** ** Concatenating instances of different numbers of rows *)

Lemma time_scales_lookup_none (first : entity) (k : string) (o : opaque) :
  NoDup (map fst first) -> lookup k first = Some (VOpaque o) ->
  lookup k (time_scales_of first) = None.
Proof.
  unfold time_scales_of. induction first as [|[k' v'] d IH]; intros N L; [reflexivity|].
  inversion N as [|? ? Hnot Hrest]; subst. simpl in L. cbn [flat_map fst snd].
  destruct (String.eqb k k') eqn:E.
  - apply String.eqb_eq in E. subst k'. injection L as ->. cbn [app].
    destruct (lookup k (flat_map _ d)) as [sc|] eqn:T; [|reflexivity].
    exfalso. apply Hnot. apply lookup_In in T. apply in_flat_map in T.
    destruct T as ([k2 v2] & Hin & T). simpl in T.
    destruct v2 as [a|a m|mjd sc2 fm| | | | | |]; try contradiction.
    destruct T as [[= -> _]|[]].
    apply in_map_iff. now exists (k, VTime mjd sc2 fm).
  - destruct v'; cbn [app]; try (now apply IH).
    cbn [lookup]. rewrite E. now apply IH.
Qed.

Section Concatenate.

Variables (time_scales : list (string * string)) (n1 : Z).
Hypothesis Hscale : lookup "_member_length" time_scales = None.

(** While the attributes of the later instances are collected, the member
    length of the first instance stays in [data] as it is. *)
Lemma collect_field_keeps_member_length (data data' : list (string * data_entry))
  (kv : string * pyval) :
  lookup "_member_length" data = Some (DValue (OInt n1)) ->
  collect_field time_scales data kv = Ok data' ->
  lookup "_member_length" data' = Some (DValue (OInt n1)).
Proof.
  intros Inv H. destruct kv as [k v]. unfold collect_field in H.
  assert (App : forall w, data_append k w data = Ok data' ->
                  lookup "_member_length" data' = Some (DValue (OInt n1))).
  { intros w Ha. unfold data_append in Ha.
    destruct (lookup k data) as [[vs|o|]|] eqn:L; try discriminate.
    injection Ha as <-. rewrite lookup_setattr_neq; [exact Inv|].
    intros <-. rewrite Inv in L. discriminate. }
  destruct (lookup k time_scales) as [scale|].
  - destruct v as [a|a m|mjd sc fm| | | | | |]; try discriminate.
    destruct (String.eqb scale sc); [eauto | discriminate].
  - destruct v as [a|a m|mjd sc fm|d|o| | | |]; eauto; try (now injection H as <-).
    destruct (lookup k data) as [[vs|o'|]|]; try discriminate.
    destruct (opaque_eqb o' o); [now injection H as <- | discriminate].
Qed.

Lemma collect_fields_keep_member_length (items : entity)
  (data data' : list (string * data_entry)) :
  lookup "_member_length" data = Some (DValue (OInt n1)) ->
  foldM (collect_field time_scales) data items = Ok data' ->
  lookup "_member_length" data' = Some (DValue (OInt n1)).
Proof.
  revert data. induction items as [|kv items IH]; intros data Inv H; simpl in H.
  - now injection H as <-.
  - inv_bind H as d1 Hd1. apply (IH d1); [|exact H].
    now apply (collect_field_keeps_member_length data d1 kv).
Qed.

(** An instance with another member length stops the collection. *)
Lemma collect_fields_other_length (items : entity) (data : list (string * data_entry))
  (n2 : Z) :
  lookup "_member_length" data = Some (DValue (OInt n1)) ->
  In ("_member_length", VOpaque (OInt n2)) items -> n1 <> n2 ->
  exists e, foldM (collect_field time_scales) data items = Err e.
Proof.
  revert data. induction items as [|kv items IH]; intros data Inv Hin Hne; [contradiction|].
  simpl. destruct (collect_field time_scales data kv) as [d1|e] eqn:E; [|simpl; eauto].
  simpl. destruct Hin as [->|Hin].
  - exfalso. unfold collect_field in E. rewrite Hscale, Inv in E. simpl in E.
    apply Z.eqb_neq in Hne. rewrite Hne in E. discriminate.
  - apply IH; [|assumption|assumption].
    now apply (collect_field_keeps_member_length data d1 kv).
Qed.

Lemma collect_all_other_length (others : list entity) (second : entity)
  (data : list (string * data_entry)) (n2 : Z) :
  lookup "_member_length" data = Some (DValue (OInt n1)) ->
  In second others -> In ("_member_length", VOpaque (OInt n2)) second -> n1 <> n2 ->
  exists e, foldM (foldM (collect_field time_scales)) data others = Err e.
Proof.
  revert data. induction others as [|d others IH]; intros data Inv Hin H2 Hne; [contradiction|].
  simpl. destruct Hin as [->|Hin].
  - destruct (collect_fields_other_length second data n2 Inv H2 Hne) as [e ->]. simpl. eauto.
  - destruct (foldM (collect_field time_scales) data d) as [d1|e] eqn:E; [|simpl; eauto].
    simpl. apply IH; try assumption.
    now apply (collect_fields_keep_member_length d data d1).
Qed.

End Concatenate.

Lemma mapM_indexables (others : list entity) :
  mapM (fun v => match v with
                 | VIndexable d => Ok d
                 | _ => Err AttributeError
                 end) (map VIndexable others) = Ok others.
Proof. induction others as [|d r IH]; simpl; [reflexivity|]. now rewrite IH. Qed.

(** X14: instances of different numbers of rows cannot be concatenated.
    [_member_length] is an int of the instance dictionary, so the loop over
    the later instances handles it like any unsliceable attribute and asserts
    that it equals the value of the first instance.  If one of the later
    instances has a member length other than that of the first, [concatenate]
    raises, whatever the attributes are. *)
Theorem concatenate_needs_equal_member_lengths
  (first second : entity) (others : list entity) (n1 n2 : Z)
  (Hkeys : NoDup (map fst first))
  (H1 : lookup "_member_length" first = Some (VOpaque (OInt n1)))
  (H2 : lookup "_member_length" second = Some (VOpaque (OInt n2)))
  (Hin : In second others)
  (Hne : n1 <> n2) :
  exists e, concatenate (first :: others) = Err e.
Proof.
  assert (Inv : lookup "_member_length" (data_of_first first) = Some (DValue (OInt n1))).
  { unfold data_of_first. clear Hkeys.
    induction first as [|[k v] d IH]; cbn [lookup map fst snd] in *; [discriminate|].
    destruct (String.eqb "_member_length" k); [now injection H1 as -> | auto]. }
  destruct (collect_all_other_length (time_scales_of first) n1
              (time_scales_lookup_none first "_member_length" (OInt n1) Hkeys H1)
              others second (data_of_first first) n2 Inv Hin (lookup_In _ _ _ H2) Hne)
    as [e E].
  exists e. unfold concatenate. cbn [concatenate_val].
  rewrite mapM_indexables. cbn [bind]. rewrite E. reflexivity.
Qed.

Lemma concatenate_needs_equal_member_lengths_witness :
  let a := fst (__init__ SpecNone [("x", VArray (AInt [10; 11]))]) in
  let b := fst (__init__ SpecNone [("x", VArray (AInt [12; 13; 14]))]) in
  exists e, concatenate [a; b] = Err e.
Proof.
  intros a b.
  apply (concatenate_needs_equal_member_lengths a b [b] 2 3).
  - vm_compute. repeat constructor; simpl; intuition discriminate.
  - reflexivity.
  - reflexivity.
  - now left.
  - lia.
Defined.

(** ** Entries a read or a delete cannot get past *)







(** ** What [set_index] does not check, and what it leaves when it raises *)

(** X16: [set_index] with an array of keys never compares the number of keys
    with the number of rows.  On any instance whose sliceable members have
    one length [n], every array of int or string keys is accepted, whatever
    its length: the class index gets one entry per distinct key, [len] is the
    number of distinct keys, and the member length stays [n]. *)
Theorem set_index_accepts_keys_of_any_length (self : entity) (n : Z) (keys : ndarray)
  (codes : list Z)
  (Hlen : member_lengths self = [n])
  (Hcodes : key_codes keys = Some codes) :
  exists self',
    set_index (SpecArray keys) self = (self', Ok tt)
    /\ __len__ self' = Ok (distinct_keys keys)
    /\ lookup "_class_index" self' = Some (VArray (AInt (arange (distinct_keys keys))))
    /\ lookup "_member_length" self' = Some (VOpaque (OInt n))
    /\ lookup "_class_index_attribute" self' = Some VNone.
Proof.
  pose proof (set_index_total (SpecArray keys) self n keys codes Hlen eq_refl Hcodes) as T.
  destruct (build_index codes
              (setattr "_class_index_attribute" (attribute_of (SpecArray keys))
                 (setattr "_member_index" (VArray (AInt (arange n)))
                    (setattr "_member_length" (VOpaque (OInt n)) self))))
    as [self' r] eqn:B.
  destruct (build_index_ok _ _ _ _ B) as (-> & CI & _).
  destruct (key_codes_distinct _ _ Hcodes) as [U _]. rewrite U in CI.
  pose proof (distinct_keys_bounds keys) as Hm.
  exists self'. split; [exact T|]. split; [|split; [exact CI|split]].
  - unfold __len__, getattr. rewrite CI. cbn [bind arr_len]. rewrite zlen_arange.
    f_equal. lia.
  - rewrite (build_index_frame _ _ _ _ "_member_length" B) by discriminate.
    lookups. reflexivity.
  - rewrite (build_index_frame _ _ _ _ "_class_index_attribute" B) by discriminate.
    lookups. reflexivity.
Qed.

Lemma set_index_accepts_keys_of_any_length_witness :
  let fields := [("x", VArray (AInt [10; 11; 12]))] in
  exists self',
    set_index (SpecArray (AStr ["a"; "b"; "c"; "d"; "e"])) fields = (self', Ok tt)
    /\ __len__ self' = Ok 5
    /\ lookup "_member_length" self' = Some (VOpaque (OInt 3)).
Proof.
  intros fields.
  destruct (set_index_accepts_keys_of_any_length fields 3 (AStr ["a"; "b"; "c"; "d"; "e"])
              [0; 1; 2; 3; 4] eq_refl eq_refl) as (self' & H & L & _ & M & _).
  exists self'. split; [exact H|]. split; [exact L | exact M].
Defined.

(** X17: a [set_index] that raises has not touched the class index: the
    class index, the mapping to members and its slice flag are as they were
    before the call, and so is every attribute that is not an index
    attribute.  When the exception is the cardinality error nothing at all
    was assigned.  When it is AttributeError, [set_index] was given a name
    that is not an attribute of the instance, and the member length and the
    member index have been assigned already. *)
Theorem set_index_failure_keeps_class_index (spec : index_spec) (self self' : entity)
  (e : exn)
  (Hfail : set_index spec self = (self', Err e)) :
  lookup "_class_index" self' = lookup "_class_index" self
  /\ lookup "_class_index_to_members" self' = lookup "_class_index_to_members" self
  /\ lookup "_class_index_to_members_is_slice" self'
     = lookup "_class_index_to_members_is_slice" self
  /\ (forall k, is_field k -> lookup k self' = lookup k self)
  /\ (e = cardinality_error -> self' = self)
  /\ (e = AttributeError ->
      exists n name,
        spec = SpecName name /\ member_lengths self = [n]
        /\ self' = setattr "_member_index" (VArray (AInt (arange n)))
                     (setattr "_member_length" (VOpaque (OInt n)) self)
        /\ lookup name self' = None).
Proof.
  assert (Fr : forall k, is_field k -> lookup k self' = lookup k self).
  { intros k Hk. now apply (set_index_fields spec self self' (Err e)). }
  unfold set_index, _check_member_validity in Hfail.
  destruct (member_lengths self) as [|n [|n' r]] eqn:M;
    try (injection Hfail as <- <-; repeat split; auto; discriminate).
  set (s1 := setattr "_member_index" (VArray (AInt (arange n)))
               (setattr "_member_length" (VOpaque (OInt n)) self)) in *.
  assert (B : forall codes s, build_index codes s = (self', Err e) -> False).
  { intros codes s Hb. now destruct (build_index_ok _ _ _ _ Hb). }
  destruct spec as [|name|values|]; cbn [bind] in Hfail.
  - exfalso. now apply (B _ _ Hfail).
  - unfold getattr in Hfail. destruct (lookup name s1) as [v|] eqn:L; cbn [bind] in Hfail.
    + destruct v as [[xs|xs|xs]|a m|mjd sc fm|d|o| |z|s|];
        try (exfalso; now apply (B _ _ Hfail));
        injection Hfail as <- <-; unfold s1; lookups;
        (split; [reflexivity|]); (split; [reflexivity|]); (split; [reflexivity|]);
        (split; [exact Fr|]); split; discriminate.
    + injection Hfail as <- <-. unfold s1 at 1 2 3. lookups.
      split; [reflexivity|]. split; [reflexivity|]. split; [reflexivity|].
      split; [exact Fr|]. split; [discriminate|].
      intros _. exists n, name. auto.
  - destruct values as [xs|xs|xs]; try (exfalso; now apply (B _ _ Hfail)).
    injection Hfail as <- <-. unfold s1. lookups.
    split; [reflexivity|]. split; [reflexivity|]. split; [reflexivity|].
    split; [exact Fr|]. split; discriminate.
  - injection Hfail as <- <-. unfold s1. lookups.
    split; [reflexivity|]. split; [reflexivity|]. split; [reflexivity|].
    split; [exact Fr|]. split; discriminate.
Qed.

Lemma set_index_failure_keeps_class_index_witness :
  let self := fst (__init__ SpecNone [("x", VArray (AInt [10; 11; 12]))]) in
  let self' := fst (set_index (SpecName "orbit_id") self) in
  snd (set_index (SpecName "orbit_id") self) = Err AttributeError
  /\ lookup "_class_index" self' = Some (VArray (AInt [0; 1; 2])).
Proof.
  intros self self'. split; [reflexivity|].
  destruct (set_index_failure_keeps_class_index (SpecName "orbit_id") self self'
              AttributeError eq_refl) as (C & _).
  rewrite C. reflexivity.
Defined.

(** ** Reading a list of positions of the default index *)

Lemma mapM_norm_index_error (n : Z) (idx : list Z) (i : Z) :
  In i idx -> (i < - n \/ n <= i) -> mapM (norm_index n) idx = Err IndexError.
Proof.
  intros Hin Hi.
  apply (mapM_error (norm_index n) idx i IndexError); [|exact Hin|].
  - intros y e. unfold norm_index. destruct ((y <? - n) || (n <=? y)); [|discriminate].
    now intros [= <-].
  - unfold norm_index.
    assert (B : (i <? - n) || (n <=? i) = true).
    { apply orb_true_iff. destruct Hi; [left; apply Z.ltb_lt | right; apply Z.leb_le]; lia. }
    now rewrite B.
Qed.

Section DefaultIndexPositions.

Variables (n : Z) (self : entity) (idx : list Z).
Hypothesis Hdefault : default_indexed n self.

Lemma default_member_index_query :
  0 <= n -> lookup "_member_index" self = Some (VArray (AInt (arange n))) ->
  Forall (fun i => 0 <= i < n) idx ->
  _query_index self (SArray idx) = Ok (SArray idx)
  /\ _query_index self (SList idx) = Ok (SArray idx).
Proof.
  intros Hn MI F. destruct Hdefault as (_ & CI & _).
  assert (R : fancy_rows (arange n) idx = Ok idx).
  { rewrite fancy_rows_total by (rewrite zlen_arange; eapply Forall_impl; [|exact F];
                                 simpl; intros; lia).
    f_equal. apply pick_arange. rewrite zlen_arange.
    eapply Forall_impl; [|exact F]. simpl. intros; lia. }
  split; unfold _query_index, class_index_rows, getattr; cbn [bind];
    rewrite CI, MI; cbn [bind array_equal int_array]; rewrite list_eqb_Z_refl;
    cbn [rows]; rewrite R; reflexivity.
Qed.

End DefaultIndexPositions.

(** X18: reading a list or an array of positions on the default index.  When
    every position is in [0, n) the read succeeds and returns, for every
    attribute (the index arrays included), the rows at those positions in the
    order given, repeated positions giving repeated rows; the copy has as many
    class-index entries as positions were given.  A position outside
    [-n, n) makes the read raise IndexError. *)
Theorem default_index_reads_positions (fields self : entity) (idx : list Z)
  (Hinit : __init__ SpecNone fields = (self, Ok tt))
  (Hkeys : NoDup (map fst fields))
  (Hfields : forall k v, In (k, v) fields -> is_leaf v = true /\ well_formed v) :
  exists n,
    __len__ self = Ok n
    /\ (Forall (fun i => 0 <= i < n) idx ->
        __getitem__ self (SList idx)
        = Ok (map_values (fun _ v => val_map (at_positions idx) v) self)
        /\ __getitem__ self (SArray idx) = __getitem__ self (SList idx)
        /\ forall copy, __getitem__ self (SList idx) = Ok copy ->
             __len__ copy = Ok (zlen idx)
             /\ forall k v, lookup k self = Some v ->
                  lookup k copy = Some (val_map (at_positions idx) v))
    /\ ((exists i, In i idx /\ (i < - n \/ n <= i)) ->
        __getitem__ self (SList idx) = Err IndexError
        /\ __getitem__ self (SArray idx) = Err IndexError).
Proof.
  unfold __init__ in Hinit.
  destruct (default_index_state fields self Hinit Hkeys Hfields)
    as (n & M & Hn & D & L & _ & MI).
  pose proof D as (_ & CI & _).
  exists n. split; [exact L|]. split.
  - intros F.
    destruct (default_member_index_query n self idx D Hn MI F)
      as [QA QL].
    assert (E : forall k v, In (k, v) self ->
              forall sel, sel = SArray idx \/ sel = SList idx ->
              getitem_field getitem_val sel (SArray idx) (k, v)
              = Ok (k, val_map (at_positions idx) v)).
    { intros k v Hin sel Hsel.
      destruct (default_indexed_entry n self D k v Hin) as (Lk & Hv & Hw & Hl).
      destruct (String.eqb k "_class_index") eqn:Ek.
      - apply String.eqb_eq in Ek. subst k.
        rewrite (default_indexed_class_index n self D v Hin).
        unfold getitem_field. cbn [String.eqb Ascii.eqb Bool.eqb andb].
        unfold class_index_getitem, arr_getitem, arr_rows, arr_lift.
        assert (R : fancy_rows (arange n) idx = Ok (pick (arange n) idx)).
        { apply fancy_rows_total. rewrite zlen_arange.
          eapply Forall_impl; [|exact F]. simpl. intros; lia. }
        destruct Hsel as [-> | ->]; cbn [rows]; rewrite R; reflexivity.
      - apply String.eqb_neq in Ek. rewrite getitem_field_leaf by assumption.
        rewrite (getitem_leaf_at_total v n idx Hv Hw Hl F). reflexivity. }
    assert (RL : __getitem__ self (SList idx)
                 = Ok (map_values (fun _ v => val_map (at_positions idx) v) self)).
    { unfold __getitem__. rewrite QL. cbn [bind]. apply mapM_map.
      intros [k v] Hin. apply (E k v Hin). now right. }
    assert (RA : __getitem__ self (SArray idx)
                 = Ok (map_values (fun _ v => val_map (at_positions idx) v) self)).
    { unfold __getitem__. rewrite QA. cbn [bind]. apply mapM_map.
      intros [k v] Hin. apply (E k v Hin). now left. }
    split; [exact RL|]. split; [now rewrite RA, RL|].
    intros copy Hc. rewrite RL in Hc. injection Hc as <-. split.
    + unfold __len__, getattr. rewrite lookup_map_values, CI. cbn [option_map bind].
      cbn [val_map arr_map arr_len]. unfold at_positions.
      rewrite pick_arange; [reflexivity|]. rewrite zlen_arange.
      eapply Forall_impl; [|exact F]. simpl. intros; lia.
    + intros k v Lk. now rewrite lookup_map_values, Lk.
  - intros (i & Hin & Hi).
    assert (R : fancy_rows (arange n) idx = Err IndexError).
    { unfold fancy_rows. rewrite zlen_arange.
      rewrite (mapM_norm_index_error (Z.max 0 n) idx i Hin) by lia. reflexivity. }
    split; unfold __getitem__, _query_index, class_index_rows, getattr; cbn [bind];
      rewrite CI, MI; cbn [bind array_equal int_array]; rewrite list_eqb_Z_refl;
      cbn [rows]; rewrite R; reflexivity.
Qed.

Lemma default_index_reads_positions_witness :
  let fields := [("x", VArray (AInt [10; 11; 12]));
                 ("m", VMasked (AStr ["p"; "q"; "r"]) [false; true; false])] in
  let self := fst (__init__ SpecNone fields) in
  exists copy, __getitem__ self (SList [2; 0; 2]) = Ok copy
               /\ lookup "x" copy = Some (VArray (AInt [12; 10; 12]))
               /\ lookup "m" copy = Some (VMasked (AStr ["r"; "p"; "r"]) [false; false; false])
               /\ __len__ copy = Ok 3.
Proof.
  intros fields self.
  destruct (default_index_reads_positions fields self [2; 0; 2] eq_refl)
    as (n & L & R & _).
  { vm_compute. repeat constructor; simpl; intuition discriminate. }
  { intros k v [[= <- <-]|[[= <- <-]|[]]]; split; reflexivity. }
  assert (E : n = 3).
  { assert (L3 : __len__ self = Ok 3) by (vm_compute; reflexivity).
    rewrite L in L3. now injection L3. }
  subst n. destruct R as (H & _ & F); [repeat constructor; lia|].
  eexists. split; [exact H|].
  destruct (F _ H) as (Len & Fk).
  split; [|split; [|exact Len]].
  - rewrite (Fk "x" (VArray (AInt [10; 11; 12]))); reflexivity.
  - rewrite (Fk "m" (VMasked (AStr ["p"; "q"; "r"]) [false; true; false])); reflexivity.
Defined.

(** ** Reads on an index in raw form *)

Lemma np_where_ext {A B} (eqa : A -> A -> bool) (eqb : B -> B -> bool) (f : A -> B)
  (x : A) (c : B) (p : Z) (l : list A) :
  (forall y, In y l -> eqb (f y) c = eqa y x) ->
  np_where eqb c p (map f l) = np_where eqa x p l.
Proof.
  revert p. induction l as [|y l IH]; intros p H; [reflexivity|].
  cbn [map np_where]. rewrite (H y) by now left.
  rewrite IH by (intros z Hz; apply H; now right). reflexivity.
Qed.

Lemma np_where_nonneg {A} (eqb : A -> A -> bool) (v : A) (p : Z) (l : list A) :
  0 <= p -> Forall (fun i => 0 <= i) (np_where eqb v p l).
Proof.
  revert p. induction l as [|y l IH]; intros p Hp; simpl; [constructor|].
  destruct (eqb y v); [constructor; [exact Hp|]|]; apply IH; lia.
Qed.

(** Selecting the member positions with the mask of one code gives the
    positions that hold the code. *)
Lemma mask_select_isin (codes : list Z) (c p : Z) :
  mask_select (iota p 1 (List.length codes)) (np_isin Z.eqb codes [c])
  = np_where Z.eqb c p codes.
Proof.
  revert p. induction codes as [|y l IH]; intros p; [reflexivity|].
  cbn [List.length iota np_isin map mask_select np_where existsb].
  rewrite orb_false_r. fold (np_isin Z.eqb l [c]). rewrite IH. reflexivity.
Qed.

Section KeyPositions.

Context {A : Type} (eqb : A -> A -> bool).
Hypothesis eqb_spec : forall x y, eqb x y = true <-> x = y.

(** The rows whose code is [i] are the rows that hold the [i]-th distinct
    key. *)
Lemma np_where_remap (l : list A) (i p : Z) (x : A) :
  0 <= i -> nth_error (pd_unique eqb l) (Z.to_nat i) = Some x ->
  np_where Z.eqb i p (remap eqb l) = np_where eqb x p l.
Proof.
  intros Hi Hx. unfold remap. apply np_where_ext. intros y Hy.
  set (u := pd_unique eqb l) in *.
  assert (Hyu : In y u) by now apply (pd_unique_iff eqb eqb_spec).
  pose proof (index_of_nth eqb eqb_spec y u 0 Hyu) as Ny. rewrite Z.sub_0_r in Ny.
  pose proof (index_of_range eqb eqb_spec y u 0) as [Ry _].
  destruct (eqb y x) eqn:E.
  - apply eqb_spec in E. subst y. apply Z.eqb_eq.
    pose proof (pd_unique_NoDup eqb eqb_spec l) as N. fold u in N.
    assert (Z.to_nat (index_of eqb x 0 u) = Z.to_nat i); [|lia].
    apply (proj1 (NoDup_nth_error u) N); [|congruence].
    apply nth_error_Some. congruence.
  - apply Z.eqb_neq. intros Eq. rewrite Eq, Hx in Ny. injection Ny as ->.
    rewrite (eqb_refl_of_spec eqb eqb_spec) in E. discriminate.
Qed.

End KeyPositions.

Lemma more_rows_than_keys (widths : list Z) :
  Forall (fun w => 1 <= w) widths -> (exists w, In w widths /\ 1 < w) ->
  zlen widths < total widths.
Proof.
  intros F (w & Hin & Hw). induction F as [|x l Hx F IH]; [contradiction|].
  unfold zlen in *. cbn [List.length total fold_right]. fold (total l).
  assert (Z.of_nat (List.length l) <= total l).
  { clear -F. induction F as [|y r Hy F IH]; simpl; [lia|]. unfold total in *. cbn. lia. }
  destruct Hin as [->|Hin]; [lia|]. specialize (IH Hin). lia.
Qed.

Lemma arange_neq (m n : Z) : 0 <= m -> 0 <= n -> m <> n ->
  list_eqb Z.eqb (arange m) (arange n) = false.
Proof.
  intros Hm Hn Hne. destruct (list_eqb Z.eqb (arange m) (arange n)) eqn:E; [|reflexivity].
  exfalso. apply Hne.
  assert (L : forall l1 l2, list_eqb Z.eqb l1 l2 = true -> List.length l1 = List.length l2).
  { induction l1 as [|x l1 IH]; intros [|y l2]; simpl; try discriminate; auto.
    intros H. apply andb_prop in H. destruct H as [_ H]. now rewrite (IH l2 H). }
  apply L in E. rewrite !length_arange in E. lia.
Qed.

(** X19: reads on an index in raw form (keys that are not grouped).  When
    [set_index] has kept the mapping in raw form and the keys are as many as
    the rows, position [i] of the index resolves to the positions of the rows
    whose code is [i], in increasing order, which are the rows that hold the
    [i]-th distinct key; a read that returns gives exactly those rows of
    every array, masked array and Time.  There are then fewer positions than
    rows.  Keys taken from an attribute are always as many as the rows. *)
Theorem raw_form_read_selects_rows_of_key (spec : index_spec) (self self' : entity)
  (Hset : set_index spec self = (self', Ok tt))
  (Hform : lookup "_class_index_to_members_is_slice" self' = Some (VOpaque (OBool false))) :
  exists n a codes,
    member_lengths self = [n]
    /\ index_keys spec n self = Some a
    /\ key_codes a = Some codes
    /\ __len__ self' = Ok (distinct_keys a)
    /\ distinct_keys a < arr_len a
    /\ (forall name, spec = SpecName name -> arr_len a = n)
    /\ (arr_len a = n ->
        forall i, 0 <= i < distinct_keys a ->
          _query_index self' (SInt i) = Ok (SArray (np_where Z.eqb i 0 codes))
          /\ (forall xs x, a = AStr xs ->
                nth_error (pd_unique String.eqb xs) (Z.to_nat i) = Some x ->
                np_where Z.eqb i 0 codes = np_where String.eqb x 0 xs)
          /\ (forall xs x, a = AInt xs ->
                nth_error (pd_unique Z.eqb xs) (Z.to_nat i) = Some x ->
                np_where Z.eqb i 0 codes = np_where Z.eqb x 0 xs)
          /\ (forall copy k v,
                __getitem__ self' (SInt i) = Ok copy ->
                k <> "_class_index" -> lookup k self' = Some v -> is_leaf v = true ->
                lookup k copy
                = Some (val_map (at_positions (np_where Z.eqb i 0 codes)) v))).
Proof.
  destruct (set_index_ok _ _ _ Hset) as (n & a & codes & M & K & C & B).
  pose proof (member_lengths_nonneg _ _ M) as Hn.
  destruct (key_codes_distinct _ _ C) as [U L].
  pose proof (distinct_keys_bounds a) as Hm.
  destruct (build_index_ok _ _ _ _ B) as (_ & CI & [(slices & _ & E)|(G & E)]);
    [rewrite E in Hform; rewrite lookup_setattr_eq in Hform; discriminate|].
  rewrite U in CI.
  assert (C2M : lookup "_class_index_to_members" self' = Some (VArray (AInt codes))).
  { rewrite E. lookups. reflexivity. }
  assert (MI : lookup "_member_index" self' = Some (VArray (AInt (arange n)))).
  { rewrite (build_index_frame _ _ _ _ "_member_index" B) by discriminate.
    lookups. reflexivity. }
  assert (Hlt : distinct_keys a < arr_len a).
  { unfold _convert_grouped_array_to_slices in G.
    destruct (grouped_slices_error _ _ _ _ G) as (_ & c & Hc & Hcount & _).
    assert (W : zlen (map (count_key Z.eqb codes) (pd_unique Z.eqb codes))
                < total (map (count_key Z.eqb codes) (pd_unique Z.eqb codes))).
    { apply more_rows_than_keys.
      - rewrite Forall_forall. intros w Hw. apply in_map_iff in Hw.
        destruct Hw as (u & <- & Hu). apply (count_key_pos Z.eqb Z_eqb_iff).
        now apply (pd_unique_iff Z.eqb Z_eqb_iff).
      - exists (count_key Z.eqb codes c). split; [now apply in_map | exact Hcount]. }
    rewrite (count_total Z.eqb Z_eqb_iff) in W.
    unfold zlen in W at 1. rewrite length_map, U, length_arange in W. lia. }
  exists n, a, codes.
  split; [exact M|]. split; [exact K|]. split; [exact C|].
  split.
  { unfold __len__, getattr. rewrite CI. cbn [bind arr_len]. rewrite zlen_arange.
    f_equal. lia. }
  split; [exact Hlt|].
  split.
  { intros name ->. unfold index_keys in K.
    destruct (lookup name _) as [[a'| | | | | | | |]|] eqn:Ln; try discriminate.
    injection K as ->.
    apply lookup_setattr in Ln. destruct Ln as [[_ [= ->]]|Ln]; [simpl; rewrite zlen_arange; lia|].
    apply lookup_setattr in Ln. destruct Ln as [[_ Ln]|Ln]; [discriminate|].
    apply lookup_In in Ln. now apply (member_lengths_all self n (arr_len a) name (VArray a)). }
  intros Hrows i Hi.
  assert (Q : _query_index self' (SInt i) = Ok (SArray (np_where Z.eqb i 0 codes))).
  { unfold _query_index, __len__, class_index_rows, getattr. cbn [bind].
    rewrite CI. cbn [bind arr_len]. rewrite zlen_arange.
    destruct (Z.max 0 (distinct_keys a) <=? i) eqn:Bd; [apply Z.leb_le in Bd; lia|].
    rewrite Hform. cbn [bind]. rewrite ?CI, ?MI. cbn [bind array_equal int_array].
    rewrite arange_neq by lia. cbn [bind]. rewrite C2M. cbn [bind rows].
    rewrite slice_rows_default_step.
    pose proof (slice_rows_block (arange (distinct_keys a)) (Z.to_nat i) (S (Z.to_nat i))) as Sl.
    replace (Z.of_nat (S (Z.to_nat i))) with (i + 1) in Sl by lia.
    rewrite Z2Nat.id in Sl by lia. rewrite Sl by lia. cbn [bind].
    replace (firstn (S (Z.to_nat i) - Z.to_nat i) (skipn (Z.to_nat i) (arange (distinct_keys a))))
      with [i].
    2:{ replace (S (Z.to_nat i) - Z.to_nat i)%nat with 1%nat by lia.
        assert (Ni : nth_error (arange (distinct_keys a)) (Z.to_nat i) = Some i).
        { unfold arange, py_range. rewrite nth_error_iota by (rewrite range_len_unit; lia).
          f_equal. lia. }
        rewrite (skipn_nth_error _ _ _ Ni). reflexivity. }
    unfold mask_rows. rewrite length_arange. unfold np_isin. rewrite length_map.
    assert (Lc : List.length codes = Z.to_nat n) by (unfold zlen in L; lia).
    rewrite Lc, Nat.eqb_refl.
    fold (np_isin Z.eqb codes [i]).
    unfold arange, py_range. rewrite range_len_unit, Z.sub_0_r, <- Lc.
    now rewrite mask_select_isin. }
  split; [exact Q|]. split; [|split].
  - intros xs x -> Hx. simpl in C. injection C as <-.
    apply (np_where_remap String.eqb string_eqb_iff); [lia | exact Hx].
  - intros xs x -> Hx. simpl in C. injection C as <-.
    apply (np_where_remap Z.eqb Z_eqb_iff); [lia | exact Hx].
  - intros copy k v R Hk Lk Hv.
    apply (getitem_at self' (SInt i) _ copy k v Q); auto.
    apply np_where_nonneg. lia.
Qed.

Lemma raw_form_read_selects_rows_of_key_witness :
  let fields := [("x", VArray (AInt [10; 11; 12; 13])); ("key", VArray (AStr ["b"; "a"; "b"; "c"]))] in
  let self' := fst (set_index (SpecName "key") fields) in
  _query_index self' (SInt 0) = Ok (SArray [0; 2]).
Proof.
  intros fields self'.
  destruct (raw_form_read_selects_rows_of_key (SpecName "key") fields self' eq_refl eq_refl)
    as (n & a & codes & M & K & C & _ & _ & Hname & R).
  vm_compute in M. injection M as <-.
  vm_compute in K. injection K as <-.
  vm_compute in C. injection C as <-.
  destruct (R (Hname "key" eq_refl) 0) as (Q & _); [vm_compute; split; congruence|].
  exact Q.
Defined.

(** ** Reads on grouped keys *)

Section Runs.

Context {A : Type} (eqb : A -> A -> bool).
Hypothesis eqb_spec : forall x y, eqb x y = true <-> x = y.

Lemma np_where_app (v : A) (p : Z) (l1 l2 : list A) :
  np_where eqb v p (l1 ++ l2) = np_where eqb v p l1 ++ np_where eqb v (p + zlen l1) l2.
Proof.
  revert p. induction l1 as [|y l1 IH]; intros p.
  - cbn [app np_where]. f_equal. unfold zlen. simpl. lia.
  - cbn [app np_where]. rewrite IH.
    replace (p + 1 + zlen l1) with (p + zlen (y :: l1)) by (unfold zlen; cbn [List.length]; lia).
    destruct (eqb y v); reflexivity.
Qed.

Lemma np_where_repeat (v y : A) (p : Z) (c : nat) :
  np_where eqb v p (repeat y c) = if eqb y v then iota p 1 c else [].
Proof.
  revert p. induction c as [|c IH]; intros p; cbn [repeat np_where iota].
  - now destruct (eqb y v).
  - rewrite IH. now destruct (eqb y v).
Qed.

Lemma np_where_absent (v : A) (p : Z) (l : list A) : ~ In v l -> np_where eqb v p l = [].
Proof.
  revert p. induction l as [|y l IH]; intros p H; [reflexivity|].
  cbn [np_where]. simpl in H.
  destruct (eqb y v) eqn:E; [apply eqb_spec in E; tauto|]. apply IH. tauto.
Qed.

Lemma in_expand (x : A) (runs : list (A * nat)) : In x (expand runs) -> In x (map fst runs).
Proof.
  unfold expand. intros H. apply in_flat_map in H. destruct H as ([y c] & Hin & Hx).
  simpl in Hx. apply repeat_spec in Hx. subst y. apply in_map_iff. now exists (x, c).
Qed.

(** The rows that hold the key of run [j] are the rows of run [j]. *)
Lemma np_where_expand (runs : list (A * nat)) (j : nat) (x : A) (c : nat) (p : Z) :
  NoDup (map fst runs) -> nth_error runs j = Some (x, c) ->
  np_where eqb x p (expand runs)
  = iota (p + total (firstn j (map (fun g => Z.of_nat (snd g)) runs))) 1 c.
Proof.
  revert j p. induction runs as [|[y cy] r IH]; intros j p N Hj; [now destruct j|].
  inversion N as [|? ? Hnot Hrest]; subst.
  change (expand ((y, cy) :: r)) with (repeat y cy ++ expand r).
  rewrite np_where_app, np_where_repeat.
  destruct j as [|j]; simpl in Hj.
  - injection Hj as -> ->. rewrite (eqb_refl_of_spec eqb eqb_spec).
    rewrite np_where_absent by (intros H; apply Hnot; now apply in_expand).
    cbn [firstn total fold_right]. rewrite app_nil_r, Z.add_0_r. reflexivity.
  - assert (Hx : In x (map fst r)).
    { apply in_map_iff. exists (x, c). split; [reflexivity|]. eapply nth_error_In; eauto. }
    destruct (eqb y x) eqn:E; [apply eqb_spec in E; subst; contradiction|].
    cbn [app]. rewrite (IH j _ Hrest Hj).
    cbn [map firstn total fold_right fst snd].
    fold (total (firstn j (map (fun g => Z.of_nat (snd g)) r))).
    unfold zlen. rewrite repeat_length. f_equal. lia.
Qed.

Lemma pd_unique_from_repeat (seen : list A) (x : A) (c : nat) (l : list A) :
  In x seen -> pd_unique_from eqb seen (repeat x c ++ l) = pd_unique_from eqb seen l.
Proof.
  intros Hx. induction c as [|c IH]; [reflexivity|].
  cbn [repeat app pd_unique_from].
  rewrite (proj2 (existsb_eqb_In eqb eqb_spec x seen) Hx). exact IH.
Qed.

Lemma pd_unique_from_expand (seen : list A) (runs : list (A * nat)) :
  NoDup (map fst runs) -> Forall (fun g => (1 <= snd g)%nat) runs ->
  (forall x, In x seen -> ~ In x (map fst runs)) ->
  pd_unique_from eqb seen (expand runs) = map fst runs.
Proof.
  revert seen. induction runs as [|[y c] r IH]; intros seen N F Hseen; [reflexivity|].
  inversion N as [|? ? Hnot Hrest]; subst. inversion F as [|? ? Hc Fr]; subst.
  simpl in Hc. destruct c as [|c]; [lia|].
  change (expand ((y, S c) :: r)) with (y :: (repeat y c ++ expand r)).
  cbn [pd_unique_from map fst].
  destruct (existsb (eqb y) seen) eqn:E.
  - apply (existsb_eqb_In eqb eqb_spec) in E. exfalso. apply (Hseen y E). now left.
  - f_equal. rewrite pd_unique_from_repeat by (rewrite in_app_iff; simpl; tauto).
    apply IH; [assumption | assumption|].
    intros x Hx. rewrite in_app_iff in Hx. destruct Hx as [Hx|[<-|[]]]; [|assumption].
    intros Hin. apply (Hseen x Hx). now right.
Qed.

(** The codes of grouped keys are grouped, with the same runs. *)
Lemma remap_expand (runs : list (A * nat)) :
  NoDup (map fst runs) -> Forall (fun g => (1 <= snd g)%nat) runs ->
  remap eqb (expand runs)
  = expand (combine (iota 0 1 (List.length runs)) (map snd runs)).
Proof.
  intros N F. unfold remap. cbv zeta.
  unfold pd_unique. rewrite (pd_unique_from_expand [] runs N F) by (intros x []).
  set (u := map fst runs).
  assert (G : forall (f : A -> Z) (r : list (A * nat)),
            map f (expand r) = expand (combine (map f (map fst r)) (map snd r))).
  { intros f r. induction r as [|[y c] r IH]; [reflexivity|].
    unfold expand in *. cbn [flat_map map combine fst snd].
    rewrite map_app, IH. f_equal. clear. induction c; simpl; congruence. }
  rewrite G. fold u. rewrite (index_of_NoDup eqb eqb_spec u 0 N).
  unfold u. now rewrite length_map.
Qed.

End Runs.

Lemma np_diff_iota (a : Z) (c : nat) :
  np_diff (iota a 1 (S (S c))) = 1 :: np_diff (iota (a + 1) 1 (S c)).
Proof. cbn [iota np_diff]. f_equal. lia. Qed.

Lemma combine_fst {A B} (l : list A) (r : list B) :
  List.length l = List.length r -> map fst (combine l r) = l.
Proof.
  revert r. induction l as [|x l IH]; intros [|y r] H; simpl in *; try lia; [reflexivity|].
  f_equal. apply IH. lia.
Qed.

Lemma combine_snd {A B} (l : list A) (r : list B) :
  List.length l = List.length r -> map snd (combine l r) = r.
Proof.
  revert r. induction l as [|x l IH]; intros [|y r] H; simpl in *; try lia; [reflexivity|].
  f_equal. apply IH. lia.
Qed.

Lemma NoDup_iota (a : Z) (k : nat) : NoDup (iota a 1 k).
Proof.
  revert a. induction k as [|k IH]; intros a; cbn [iota]; constructor; [|apply IH].
  rewrite in_iota. lia.
Qed.

(** The codes of grouped keys: run [j] carries the code [j]. *)
Lemma grouped_codes (a : ndarray) (counts : list nat) (codes : list Z) :
  keys_grouped a counts -> key_codes a = Some codes ->
  grouped codes (combine (iota 0 1 (List.length counts)) counts)
  /\ Forall (fun c => (1 <= c)%nat) counts.
Proof.
  assert (G : forall {A} (runs : list (A * nat)),
            map snd runs = counts -> NoDup (map fst runs) ->
            Forall (fun g => (1 <= snd g)%nat) runs ->
            grouped (expand (combine (iota 0 1 (List.length runs)) (map snd runs)))
                    (combine (iota 0 1 (List.length counts)) counts)
            /\ Forall (fun c => (1 <= c)%nat) counts).
  { intros A runs E N F.
    assert (Lr : List.length runs = List.length counts) by (rewrite <- E; now rewrite length_map).
    rewrite E, Lr.
    assert (Fc : Forall (fun c => (1 <= c)%nat) counts).
    { rewrite <- E. rewrite Forall_forall in *. intros c Hc. apply in_map_iff in Hc.
      destruct Hc as (g & <- & Hg). now apply F. }
    split; [|exact Fc].
    split; [reflexivity|]. split.
    - rewrite combine_fst by now rewrite length_iota. apply NoDup_iota.
    - rewrite Forall_forall in *. intros [z c] Hin. apply in_combine_r in Hin. simpl. auto. }
  destruct a as [xs|xs|xs]; simpl; [| |contradiction].
  - intros (runs & (-> & N & F) & E) [= <-].
    rewrite (remap_expand Z.eqb Z_eqb_iff runs N F). now apply G.
  - intros (runs & (-> & N & F) & E) [= <-].
    rewrite (remap_expand String.eqb string_eqb_iff runs N F). now apply G.
Qed.

Lemma nth_error_combine_some {A B} (l : list A) (r : list B) (j : nat) (x : A) (y : B) :
  nth_error l j = Some x -> nth_error r j = Some y -> nth_error (combine l r) j = Some (x, y).
Proof.
  revert l r. induction j as [|j IH]; intros [|a l] [|b r]; simpl; try discriminate.
  - now intros [= ->] [= ->].
  - apply IH.
Qed.

Lemma map_iota_counts (f : Z -> Z) (counts : list nat) (a : Z) :
  (forall j c, nth_error counts j = Some c -> f (a + Z.of_nat j) = Z.of_nat c) ->
  map f (iota a 1 (List.length counts)) = map Z.of_nat counts.
Proof.
  revert a. induction counts as [|c r IH]; intros a H; [reflexivity|].
  cbn [List.length iota map]. f_equal.
  - rewrite <- (H 0%nat c eq_refl). f_equal. lia.
  - apply IH. intros j c' Hj. rewrite <- (H (S j) c' Hj). f_equal. lia.
Qed.

Lemma rows_before_succ (widths : list Z) (j : nat) (w : Z) :
  nth_error widths j = Some w ->
  rows_before widths (Z.of_nat j + 1) = rows_before widths (Z.of_nat j) + w.
Proof.
  intros H. unfold rows_before.
  replace (Z.to_nat (Z.of_nat j + 1)) with (j + 1)%nat by lia. rewrite Nat2Z.id.
  rewrite firstn_plus, total_app, (skipn_nth_error _ _ _ H).
  cbn [firstn total fold_right]. lia.
Qed.

Lemma rows_before_nonneg (widths : list Z) (a : Z) :
  Forall (fun w => 0 <= w) widths -> 0 <= rows_before widths a.
Proof.
  intros F. unfold rows_before. apply total_nonneg.
  rewrite <- (firstn_skipn (Z.to_nat a) widths) in F. now apply Forall_app in F.
Qed.

(** The positions of run [j] in grouped keys, from the runs of the keys. *)
Lemma grouped_key_positions {A} (eqb : A -> A -> bool)
  (eqb_spec : forall x y, eqb x y = true <-> x = y)
  (xs : list A) (runs : list (A * nat)) (j c : nat) :
  grouped xs runs -> nth_error (map snd runs) j = Some c ->
  exists x, nth_error (pd_unique eqb xs) j = Some x
            /\ np_where eqb x 0 xs
               = iota (rows_before (map Z.of_nat (map snd runs)) (Z.of_nat j)) 1 c.
Proof.
  intros (-> & N & F) Hj. rewrite nth_error_map in Hj.
  destruct (nth_error runs j) as [[x c']|] eqn:E; [|discriminate].
  simpl in Hj. injection Hj as ->.
  exists x. split.
  - unfold pd_unique. rewrite (pd_unique_from_expand eqb eqb_spec [] runs N F) by (intros y []).
    now rewrite nth_error_map, E.
  - rewrite (np_where_expand eqb eqb_spec runs j x c 0 N E).
    unfold rows_before. rewrite Nat2Z.id, map_map, Z.add_0_l. reflexivity.
Qed.

(** X20: reads on grouped keys.  When the rows of every key are adjacent
    (the keys are runs of [counts] rows with distinct keys), [set_index] keeps
    the mapping in slice form with one range per run, [len] is the number of
    runs, and position [j] of the index resolves to the range of the rows of
    run [j], which are exactly the rows that hold the [j]-th distinct key; a
    read that returns gives those rows of every array, masked array and
    Time. *)
Theorem grouped_keys_read_selects_rows_of_key
  (spec : index_spec) (self self' : entity) (n : Z) (a : ndarray) (counts : list nat)
  (Hset : set_index spec self = (self', Ok tt))
  (Hn : member_lengths self = [n])
  (Hkeys : index_keys spec n self = Some a)
  (Hgrouped : keys_grouped a counts) :
  lookup "_class_index_to_members_is_slice" self' = Some (VOpaque (OBool true))
  /\ lookup "_class_index_to_members" self'
     = Some (VArray (ASlice (ranges 0 (map Z.of_nat counts))))
  /\ __len__ self' = Ok (zlen counts)
  /\ forall j c, nth_error counts j = Some c ->
       let lo := rows_before (map Z.of_nat counts) (Z.of_nat j) in
       _query_index self' (SInt (Z.of_nat j)) = Ok (SSlice (sl lo (lo + Z.of_nat c)))
       /\ (forall xs, a = AStr xs ->
             exists x, nth_error (pd_unique String.eqb xs) j = Some x
                       /\ np_where String.eqb x 0 xs = py_range lo (lo + Z.of_nat c) 1)
       /\ (forall xs, a = AInt xs ->
             exists x, nth_error (pd_unique Z.eqb xs) j = Some x
                       /\ np_where Z.eqb x 0 xs = py_range lo (lo + Z.of_nat c) 1)
       /\ (forall copy k v,
             __getitem__ self' (SInt (Z.of_nat j)) = Ok copy ->
             k <> "_class_index" -> lookup k self' = Some v -> is_leaf v = true ->
             lookup k copy = Some (val_map (block (Z.to_nat lo) (Z.to_nat lo + c)) v)).
Proof.
  destruct (set_index_ok _ _ _ Hset) as (n' & a' & codes & M & K & C & B).
  rewrite Hn in M. injection M as <-. rewrite Hkeys in K. injection K as <-.
  destruct (grouped_codes a counts codes Hgrouped C) as ((Ec & Nc & Fc) & Fcounts).
  set (m := List.length counts) in *.
  set (runs := combine (iota 0 1 m) counts) in *.
  assert (Lr : List.length (iota 0 1 m) = List.length counts) by apply length_iota.
  assert (Rf : map fst runs = iota 0 1 m) by (unfold runs; now apply combine_fst).
  assert (Rs : map snd runs = counts) by (unfold runs; now apply combine_snd).
  assert (Rw : map (fun g : Z * nat => Z.of_nat (snd g)) runs = map Z.of_nat counts).
  { rewrite <- Rs. now rewrite map_map. }
  assert (P : forall j c, nth_error counts j = Some c ->
            np_where Z.eqb (Z.of_nat j) 0 codes
            = iota (rows_before (map Z.of_nat counts) (Z.of_nat j)) 1 c).
  { intros j c Hj.
    assert (Hjm : (j < m)%nat) by (apply nth_error_Some; congruence).
    assert (Hr : nth_error runs j = Some (Z.of_nat j, c)).
    { apply nth_error_combine_some; [|exact Hj].
      rewrite nth_error_iota by assumption. f_equal. }
    rewrite Ec, (np_where_expand Z.eqb Z_eqb_iff runs j _ c 0 Nc Hr), Rw.
    unfold rows_before. now rewrite Nat2Z.id, Z.add_0_l. }
  assert (U : pd_unique Z.eqb codes = iota 0 1 m).
  { rewrite Ec. unfold pd_unique.
    rewrite (pd_unique_from_expand Z.eqb Z_eqb_iff [] runs Nc Fc) by (intros y []).
    exact Rf. }
  assert (W : map (count_key Z.eqb codes) (iota 0 1 m) = map Z.of_nat counts).
  { apply map_iota_counts. intros j c Hj. rewrite Z.add_0_l.
    unfold count_key. rewrite (P j c Hj). unfold zlen. now rewrite length_iota. }
  destruct (_convert_grouped_array_to_slices codes) as [slices|e] eqn:G.
  2:{ exfalso. unfold _convert_grouped_array_to_slices in G.
      destruct (grouped_slices_error _ _ _ _ G) as (_ & c0 & Hc0 & Hcount & Hdiff).
      rewrite U in Hc0. apply in_iota in Hc0.
      assert (Hj : exists j, c0 = Z.of_nat j /\ (j < m)%nat)
        by (exists (Z.to_nat c0); lia).
      destruct Hj as (j & -> & Hj).
      destruct (nth_error counts j) as [c|] eqn:E;
        [|apply nth_error_None in E; fold m in E; lia].
      rewrite (P j c E) in Hcount, Hdiff. unfold zlen in Hcount.
      rewrite length_iota in Hcount.
      destruct c as [|[|c]]; try lia.
      rewrite np_diff_iota in Hdiff. inversion Hdiff; congruence. }
  destruct (tiling_of_grouped_slices codes slices G) as (S & _ & _).
  rewrite U, W in S.
  destruct (build_index_ok _ _ _ _ B) as (_ & CI & Form).
  rewrite G in Form. destruct Form as [(slices' & [= <-] & E)|(G' & _)]; [|discriminate].
  rewrite U in CI.
  assert (Form : lookup "_class_index_to_members_is_slice" self' = Some (VOpaque (OBool true)))
    by (rewrite E; lookups; reflexivity).
  assert (C2M : lookup "_class_index_to_members" self'
                = Some (VArray (ASlice (ranges 0 (map Z.of_nat counts)))))
    by (rewrite E; lookups; now rewrite S).
  assert (AL : arr_len (AInt (iota 0 1 m)) = zlen (map Z.of_nat counts)).
  { simpl. unfold zlen. now rewrite length_iota, length_map. }
  split; [exact Form|]. split; [exact C2M|]. split.
  { unfold __len__, getattr. rewrite CI. cbn [bind]. rewrite AL. unfold zlen.
    now rewrite length_map. }
  intros j c Hj lo.
  assert (Hjm : (j < m)%nat) by (apply nth_error_Some; congruence).
  assert (Hw : nth_error (map Z.of_nat counts) j = Some (Z.of_nat c))
    by now rewrite nth_error_map, Hj.
  assert (Q : _query_index self' (SInt (Z.of_nat j)) = Ok (SSlice (sl lo (lo + Z.of_nat c)))).
  { rewrite query_int_is_unit_slice.
    rewrite (query_ranges self' _ (map Z.of_nat counts) (Z.of_nat j) (Z.of_nat j + 1)
               CI AL Form C2M).
    - now rewrite (rows_before_succ _ _ _ Hw).
    - unfold zlen. rewrite length_map. fold m. lia.
    - lia. }
  assert (Hlo : 0 <= lo).
  { apply rows_before_nonneg. rewrite Forall_forall. intros w Hin.
    apply in_map_iff in Hin. destruct Hin as (c' & <- & _). lia. }
  assert (PR : py_range lo (lo + Z.of_nat c) 1 = iota lo 1 c).
  { unfold py_range. rewrite range_len_unit. f_equal. lia. }
  split; [exact Q|]. split; [|split].
  - intros xs ->. simpl in Hgrouped. destruct Hgrouped as (kr & Gk & Ek).
    rewrite <- Ek in Hj.
    destruct (grouped_key_positions String.eqb string_eqb_iff xs kr j c Gk Hj) as (x & Hx & Px).
    exists x. split; [exact Hx|]. rewrite Px, PR, Ek. reflexivity.
  - intros xs ->. simpl in Hgrouped. destruct Hgrouped as (kr & Gk & Ek).
    rewrite <- Ek in Hj.
    destruct (grouped_key_positions Z.eqb Z_eqb_iff xs kr j c Gk Hj) as (x & Hx & Px).
    exists x. split; [exact Hx|]. rewrite Px, PR, Ek. reflexivity.
  - intros copy k v R Hk Lk Hv.
    apply (getitem_block self' (SInt (Z.of_nat j)) (Z.to_nat lo) (Z.to_nat lo + c) copy k v);
      auto; [|lia].
    rewrite Q.
    replace (Z.of_nat (Z.to_nat lo)) with lo by lia.
    replace (Z.of_nat (Z.to_nat lo + c)) with (lo + Z.of_nat c) by lia. reflexivity.
Qed.

Lemma grouped_keys_read_selects_rows_of_key_witness :
  let fields := [("x", VArray (AInt [10; 11; 12; 13; 14; 15]));
                 ("orbit_id", VArray (AStr ["a"; "a"; "b"; "c"; "c"; "c"]))] in
  let self' := fst (set_index (SpecName "orbit_id") fields) in
  _query_index self' (SInt 2) = Ok (SSlice (sl 3 6))
  /\ np_where String.eqb "c" 0 ["a"; "a"; "b"; "c"; "c"; "c"] = [3; 4; 5].
Proof.
  intros fields self'.
  destruct (grouped_keys_read_selects_rows_of_key (SpecName "orbit_id") fields self' 6
              (AStr ["a"; "a"; "b"; "c"; "c"; "c"]) [2; 1; 3]%nat eq_refl eq_refl eq_refl)
    as (_ & _ & _ & R).
  { exists [("a", 2%nat); ("b", 1%nat); ("c", 3%nat)]. split; [|reflexivity].
    split; [reflexivity|]. split.
    - repeat constructor; simpl; intuition discriminate.
    - repeat constructor. }
  destruct (R 2%nat 3%nat eq_refl) as (Q & _). split; [exact Q | reflexivity].
Defined.

(** ** Concatenating the two halves of an instance under the default index *)

Lemma setattr_same {V} (k : string) (v : V) (d : list (string * V)) :
  lookup k d = Some v -> setattr k v d = d.
Proof.
  induction d as [|[k' v'] d IH]; simpl; [discriminate|].
  destruct (String.eqb k k') eqn:E.
  - now intros [= ->].
  - intros H. now rewrite IH.
Qed.

(** [set_index()] finds an instance under the default index as it would
    leave it. *)
Lemma set_index_default_fixpoint (n : Z) (self : entity) :
  default_indexed n self -> 0 <= n ->
  lookup "_member_length" self = Some (VOpaque (OInt n)) ->
  lookup "_member_index" self = Some (VArray (AInt (arange n))) ->
  set_index SpecNone self = (self, Ok tt).
Proof.
  intros D Hn ML MI. pose proof D as (N & CI & Form & C2M & Attr & P).
  assert (M : member_lengths self = [n]).
  { apply (member_lengths_uniform self n "_class_index" (VArray (AInt (arange n)))).
    - now apply lookup_In.
    - simpl. rewrite zlen_arange. f_equal. lia.
    - intros k v m Hin Hm. destruct (default_indexed_entry n self D k v Hin) as (_ & _ & _ & Hl).
      now apply Hl. }
  rewrite (set_index_total SpecNone self n (AInt (arange n)) (remap Z.eqb (arange n))
             M eq_refl eq_refl).
  cbn [attribute_of]. rewrite remap_arange. unfold build_index.
  rewrite default_index_slices, pd_unique_arange.
  rewrite (setattr_same "_member_length") by assumption.
  rewrite (setattr_same "_member_index") by assumption.
  rewrite (setattr_same "_class_index_attribute") by assumption.
  rewrite (setattr_same "_class_index") by assumption.
  rewrite (setattr_same "_class_index_to_members") by assumption.
  rewrite (setattr_same "_class_index_to_members_is_slice") by assumption.
  reflexivity.
Qed.





Section Parts.

Variables (self : entity) (g1 g2 : forall A : Set, list A -> list A).
Hypothesis Hkeys : NoDup (map fst self).
Hypothesis Hleaf : forall k v, In (k, v) self -> is_leaf v = true.





End Parts.

(** X21: [set_index()] on an instance under the default index assigns the six
    index attributes the values they have: the instance dictionary is
    unchanged. *)
Theorem set_index_none_is_idempotent (fields self : entity)
  (Hinit : __init__ SpecNone fields = (self, Ok tt))
  (Hkeys : NoDup (map fst fields))
  (Hfields : forall k v, In (k, v) fields -> is_leaf v = true /\ well_formed v) :
  set_index SpecNone self = (self, Ok tt)
  /\ index_deleter self = (self, Ok tt).
Proof.
  unfold __init__ in Hinit.
  destruct (default_index_state fields self Hinit Hkeys Hfields)
    as (n & M & Hn & D & L & ML & MI).
  assert (S : set_index SpecNone self = (self, Ok tt)); [|split; exact S].
  now apply (set_index_default_fixpoint n self).
Qed.

Lemma set_index_none_is_idempotent_witness :
  let fields := [("x", VArray (AInt [10; 11; 12])); ("origin", VOpaque (OStr "SUN"))] in
  let self := fst (__init__ SpecNone fields) in
  set_index SpecNone self = (self, Ok tt).
Proof.
  intros fields self.
  apply (set_index_none_is_idempotent fields self eq_refl).
  - vm_compute. repeat constructor; simpl; intuition discriminate.
  - intros k v [[= <- <-]|[[= <- <-]|[]]]; split; reflexivity.
Defined.





(** ** Selections that are not fused *)

Lemma pick_In {A} (l : list A) (pos : list Z) (x : A) : In x (pick l pos) -> In x l.
Proof.
  unfold pick. intros H. apply in_flat_map in H. destruct H as (i & _ & H).
  destruct (nth_error l (Z.to_nat i)) as [y|] eqn:E; [|contradiction].
  destruct H as [<-|[]]. eapply nth_error_In; eauto.
Qed.

Lemma mapM_In {A B} (f : A -> result B) (l : list A) (ys : list B) (y : B) :
  mapM f l = Ok ys -> In y ys -> exists x, In x l /\ f x = Ok y.
Proof.
  revert ys. induction l as [|x l IH]; intros ys H Hy; simpl in H.
  - injection H as <-. contradiction.
  - inv_bind H as b Hb. inv_bind H as bs Hbs. injection H as <-.
    destruct Hy as [<-|Hy]; [exists x; split; [now left | exact Hb]|].
    destruct (IH bs Hbs Hy) as (x' & Hin & Hx'). exists x'. split; [now right | exact Hx'].
Qed.

(** X23: the branch of [_query_index] that does not fuse.  On an index in
    slice form, as [set_index] leaves it, a slice selection (with a step, say)
    whose ranges are not consecutive resolves to an array of class-index
    values read at those ranges: every entry of the result is a position of
    the class index, below [len], whatever the number of rows.  A selection
    resolves to an array only on this branch. *)
Theorem unfused_selection_is_in_key_space (spec : index_spec) (self self' : entity)
  (s : pyslice) (r : list Z)
  (Hset : set_index spec self = (self', Ok tt))
  (Hform : lookup "_class_index_to_members_is_slice" self' = Some (VOpaque (OBool true)))
  (Hquery : _query_index self' (SSlice s) = Ok (SArray r)) :
  exists m widths slices,
    __len__ self' = Ok m
    /\ lookup "_class_index_to_members" self' = Some (VArray (ASlice (ranges 0 widths)))
    /\ slice_rows (ranges 0 widths) s = Ok slices
    /\ is_consecutive slices = false
    /\ Forall (fun i => 0 <= i < m) r.
Proof.
  destruct (set_index_slice_form _ _ _ Hset Hform)
    as (n & a & codes & _ & _ & _ & CI & Len & C2M & _).
  set (widths := map (count_key Z.eqb codes) (arange (distinct_keys a))) in *.
  pose proof (distinct_keys_bounds a) as Hm.
  assert (L : __len__ self' = Ok (distinct_keys a)).
  { unfold __len__, getattr. rewrite CI. cbn [bind arr_len]. rewrite zlen_arange.
    f_equal. lia. }
  unfold _query_index in Hquery. cbn [bind] in Hquery.
  inv_bind Hquery as oob Hoob. destruct oob; [discriminate|].
  unfold getattr in Hquery. rewrite Hform in Hquery. cbn [bind] in Hquery.
  rewrite C2M in Hquery. cbn [bind] in Hquery.
  inv_bind Hquery as slices Hs.
  destruct (is_consecutive slices) eqn:Cons; [destruct slices; discriminate|].
  inv_bind Hquery as parts Hp. injection Hquery as <-.
  exists (distinct_keys a), widths, slices.
  split; [exact L|]. split; [exact C2M|]. split; [exact Hs|]. split; [exact Cons|].
  rewrite Forall_forall. intros i Hi. apply in_concat in Hi.
  destruct Hi as (part & Hpart & Hi).
  destruct (mapM_In _ _ _ _ Hp Hpart) as (s0 & _ & Hs0).
  unfold class_index_rows, getattr in Hs0. rewrite CI in Hs0. cbn [bind int_array rows] in Hs0.
  unfold slice_rows in Hs0. inv_bind Hs0 as pos Hpos. injection Hs0 as <-.
  apply pick_In in Hi. unfold arange, py_range in Hi. apply in_iota in Hi.
  rewrite range_len_unit in Hi. lia.
Qed.

Lemma unfused_selection_is_in_key_space_witness :
  let fields := [("x", VArray (AInt [10; 11; 12; 13; 14; 15]))] in
  let self' := fst (set_index (SpecArray (AStr ["a"; "a"; "b"; "c"; "c"; "c"])) fields) in
  _query_index self' (SSlice (Slice None None (Some 2))) = Ok (SArray [0; 1])
  /\ Forall (fun i => 0 <= i < 3) [0; 1].
Proof.
  intros fields self'.
  assert (Q : _query_index self' (SSlice (Slice None None (Some 2))) = Ok (SArray [0; 1]))
    by (vm_compute; reflexivity).
  split; [exact Q|].
  destruct (unfused_selection_is_in_key_space
              (SpecArray (AStr ["a"; "a"; "b"; "c"; "c"; "c"])) fields self'
              (Slice None None (Some 2)) [0; 1] eq_refl eq_refl Q)
    as (m & widths & slices & L & _ & _ & _ & F).
  assert (E : m = 3).
  { assert (L3 : __len__ self' = Ok 3) by (vm_compute; reflexivity).
    rewrite L in L3. now injection L3. }
  now subst m.
Defined.
